(** * zvon: room registry and membership index of [server.js]

    A shallow embedding of the Socket.IO chat relay in [src/server.js].
    The source file holds two revisions of the server, one after the
    other: the first (lines 1-283) keeps no [expiresAt] and announces a
    deletion with [io.emit]; the second (lines 283-581) adds
    [expiresAt], message ids, [get_room_expiration] and announces a
    deletion with [io.to(roomId).emit].  Module [V1] embeds the parts of
    the first revision that the properties below talk about, module [V2]
    embeds the second revision in full.

    Modelling choices, the same in both modules:
    - a JS [Set] of strings is an insertion-ordered list without
      repetitions ([JSSet]): iteration order is observable in
      [join_by_user] and [sendUserRooms];
    - the two [Map]s are [gmap string _]; they are never iterated;
    - a room object is stored by value in the registry; where the source
      keeps a reference [room] across a call that mutates the object, the
      model reads the object again from the registry;
    - [Date.now()] and [Math.random()] are inputs of the handlers, one
      argument per call in the source, times in milliseconds as [Z];
    - [setTimeout]/[clearTimeout] act on a table of pending timers; a
      pending timer firing is an input of the server;
    - [socket.emit], [io.to(x).emit] and [io.emit] produce addressed
      emissions; [socket.join] updates the channel table used to resolve
      [io.to(x)]. *)

From stdpp Require Import base option list gmap strings pretty.
From Stdlib Require Import ZArith Lia Ascii.

Local Open Scope Z_scope.

(** ** JS [Set<string>] *)

Module JSSet.

Abbreviation t := (list string).

(** [new Set()] *)
Definition empty : t := [].

(** [s.has(x)] *)
Definition has (x : string) (s : t) : bool := bool_decide (x ∈ s).

(** [s.add(x)]: appended at the end of the iteration order when new. *)
Definition add (x : string) (s : t) : t :=
  if has x s then s else s ++ [x].

(** [s.delete(x)] *)
Definition remove (x : string) (s : t) : t :=
  filter (λ y, y ≠ x) s.

(** [s.size] *)
Definition size (s : t) : nat := length s.

(** [new Set(iterable)] *)
Definition of_list (l : list string) : t :=
  foldl (λ acc x, add x acc) empty l.

End JSSet.

(** ** Gateway: addressed emissions, channels and timers *)

(** The three ways the source addresses an event. *)
Inductive Target :=
| ToSocket (sid : string)      (* socket.emit(...)      *)
| ToChannel (name : string)    (* io.to(name).emit(...) *)
| ToAll.                       (* io.emit(...)          *)

(** A stored message of the second revision:
    [{ id, userId, message, timestamp }]. *)
Record Message := {
  msg_id : string;
  msg_userId : string;
  msg_message : string;
  msg_timestamp : Z
}.

(** Outbound events with their payloads. *)
Inductive Payload :=
| ev_room_created (id : string) (userCount : nat)
| ev_room_joined (id : string) (userCount : nat)
| ev_room_deleted (roomId : string)
| ev_new_message (id roomId userId message : string)
| ev_room_expiration (minutesLeft : Z)
| ev_room_messages (roomId : string) (messages : list Message)
| ev_user_rooms (roomsData : list (string * nat))
| ev_error (reason : string).

(** The three reason strings of the [error] event. *)
Definition ERR_ALREADY_EXISTS : string := "Комната с таким ID уже существует".
Definition ERR_NOT_FOUND : string := "Комната не найдена".
Definition ERR_NOT_MEMBER : string := "Вы не участник комнаты".

(** A connected socket: the [userId] stored on it by [register] and the
    channels it is in.  Socket.IO puts every socket in the channel named
    by its own id when it connects. *)
Record Socket := {
  sock_userId : option string;
  sock_channels : JSSet.t
}.

Definition socket_connect (sid : string) (sockets : gmap string Socket)
  : gmap string Socket :=
  <[sid := {| sock_userId := None; sock_channels := [sid] |}]> sockets.

(** [socket.userId = userId] *)
Definition socket_set_userId (sid userId : string)
    (sockets : gmap string Socket) : gmap string Socket :=
  alter (λ sk, {| sock_userId := Some userId;
                  sock_channels := sock_channels sk |}) sid sockets.

(** [socket.join(name)] *)
Definition socket_join (sid name : string)
    (sockets : gmap string Socket) : gmap string Socket :=
  alter (λ sk, {| sock_userId := sock_userId sk;
                  sock_channels := JSSet.add name (sock_channels sk) |})
        sid sockets.

(** Whether the connected socket [sid] is handed an emission addressed
    to [tg]. *)
Definition receives (sockets : gmap string Socket) (sid : string)
    (tg : Target) : bool :=
  match sockets !! sid with
  | None => false
  | Some sk =>
      match tg with
      | ToSocket s => bool_decide (s = sid)
      | ToChannel name => JSSet.has name (sock_channels sk)
      | ToAll => true
      end
  end.

(** A pending [setTimeout(() => deleteRoom(roomId), delay)]. *)
Record Timer := {
  timer_room : string;
  timer_delay : Z
}.

Definition ROOM_EXPIRATION_MINUTES : Z := 5.

(** ** The membership index [userRooms], same code in both revisions *)

(** Body of the [userIds.forEach] of [createRoom] and of the branch of
    [join_room]:
    [if (!userRooms.has(userId)) userRooms.set(userId, new Set());
     userRooms.get(userId).add(roomId);] *)
Definition index_add (userId roomId : string)
    (userRooms : gmap string JSSet.t) : gmap string JSSet.t :=
  let userRooms1 :=
    if bool_decide (is_Some (userRooms !! userId)) then userRooms
    else <[userId := JSSet.empty]> userRooms in
  <[userId := JSSet.add roomId (default JSSet.empty (userRooms1 !! userId))]>
    userRooms1.

(** Body of the [room.users.forEach] of [deleteRoom]:
    [if (userRooms.has(userId)) {
       userRooms.get(userId).delete(roomId);
       if (userRooms.get(userId).size === 0) userRooms.delete(userId); }] *)
Definition index_remove (userId roomId : string)
    (userRooms : gmap string JSSet.t) : gmap string JSSet.t :=
  match userRooms !! userId with
  | None => userRooms
  | Some s =>
      let s' := JSSet.remove roomId s in
      if bool_decide (JSSet.size s' = 0%nat) then delete userId userRooms
      else <[userId := s']> userRooms
  end.

(** [Math.ceil(x / d)] on integers, [d > 0]. *)
Definition ceil_div (x d : Z) : Z := - ((- x) / d).

(** [generateRoomId()], the same in both revisions.  [r1], [r2] are the
    two values of [Math.floor(Math.random() * letters.length)] and [r3],
    [r4] the two values of [Math.floor(Math.random() * 10)];
    [charAt] out of range is the empty string, as [substring] is. *)
Definition letters : string := "ABCDEFGHIJKLMNOPQRSTUVWXYZ".

Definition charAt (i : nat) (s : string) : string := String.substring i 1 s.

Definition generateRoomId (r1 r2 r3 r4 : nat) : string :=
  let result := ""%string in
  let result := (result +:+ charAt r1 letters)%string in
  let result := (result +:+ charAt r2 letters)%string in
  let result := (result +:+ pretty r3)%string in
  let result := (result +:+ pretty r4)%string in
  result.

(** ** First revision of the server (source lines 1-283)

    Embedded: [createRoom], [deleteRoom], [resetRoomTimer], the
    ['create_room'] and ['join_room'] handlers and the firing of a
    timer. *)

Module V1.

(** The [Timeout] object returned by [setTimeout]: its handle and the
    two fields ['join_room'] reads, [_idleStart] (the timer clock when
    it was armed) and [_idleTimeout] (the delay). *)
Record Timeout := {
  handle : nat;
  idleStart : Z;
  idleTimeout : Z
}.

(** A stored message: [{ userId, message, timestamp }]. *)
Record StoredMessage := {
  sm_userId : string;
  sm_message : string;
  sm_timestamp : Z
}.

(** [{ id, users, messages, createdAt, timer }] *)
Record Room := {
  id : string;
  users : JSSet.t;
  messages : list StoredMessage;
  createdAt : Z;
  timer : Timeout
}.

Record State := {
  rooms : gmap string Room;
  userRooms : gmap string JSSet.t;
  timers : gmap nat Timer;
  nextTimer : nat;
  sockets : gmap string Socket
}.

Definition init : State :=
  {| rooms := ∅; userRooms := ∅; timers := ∅; nextTimer := 0;
     sockets := ∅ |}.

Definition with_rooms (f : gmap string Room → gmap string Room)
    (st : State) : State :=
  {| rooms := f (rooms st); userRooms := userRooms st;
     timers := timers st; nextTimer := nextTimer st;
     sockets := sockets st |}.

Definition with_userRooms
    (f : gmap string JSSet.t → gmap string JSSet.t) (st : State) : State :=
  {| rooms := rooms st; userRooms := f (userRooms st);
     timers := timers st; nextTimer := nextTimer st;
     sockets := sockets st |}.

Definition with_sockets (f : gmap string Socket → gmap string Socket)
    (st : State) : State :=
  {| rooms := rooms st; userRooms := userRooms st;
     timers := timers st; nextTimer := nextTimer st;
     sockets := f (sockets st) |}.

(** [setTimeout(() => deleteRoom(roomId), delay)] armed when the timer
    clock reads [tLoop]. *)
Definition setTimeout (roomId : string) (delay tLoop : Z) (st : State)
  : Timeout * State :=
  ({| handle := nextTimer st; idleStart := tLoop; idleTimeout := delay |},
   {| rooms := rooms st; userRooms := userRooms st;
      timers := <[nextTimer st := {| timer_room := roomId;
                                     timer_delay := delay |}]> (timers st);
      nextTimer := S (nextTimer st);
      sockets := sockets st |}).

Definition clearTimeout (t : Timeout) (st : State) : State :=
  {| rooms := rooms st; userRooms := userRooms st;
     timers := delete (handle t) (timers st); nextTimer := nextTimer st;
     sockets := sockets st |}.

(** [createRoom(roomId, userIds)], lines 27-52.  The room is stored
    with [timer: null] and the timer is assigned before the function
    returns; the model stores the room once, with its timer. *)
Definition createRoom (roomId : string) (userIds : list string)
    (tCreated tLoop : Z) (st : State) : Room * State :=
  let st :=
    foldl (λ st userId, with_userRooms (index_add userId roomId) st)
          st userIds in
  let '(t, st) :=
    setTimeout roomId (ROOM_EXPIRATION_MINUTES * 60 * 1000) tLoop st in
  let room := {| id := roomId;
                 users := JSSet.of_list userIds;
                 messages := [];
                 createdAt := tCreated;
                 timer := t |} in
  (room, with_rooms (insert roomId room) st).

(** [deleteRoom(roomId)], lines 55-75. *)
Definition deleteRoom (roomId : string) (st : State)
  : State * list (Target * Payload) :=
  match rooms st !! roomId with
  | None => (st, [])
  | Some room =>
      let st :=
        foldl (λ st userId, with_userRooms (index_remove userId roomId) st)
              st (users room) in
      let st := clearTimeout (timer room) st in
      let st := with_rooms (delete roomId) st in
      (st, [(ToAll, ev_room_deleted roomId)])
  end.

(** [resetRoomTimer(roomId)], lines 78-87. *)
Definition resetRoomTimer (roomId : string) (tLoop : Z) (st : State)
  : State :=
  match rooms st !! roomId with
  | None => st
  | Some room =>
      let st := clearTimeout (timer room) st in
      let '(t, st) :=
        setTimeout roomId (ROOM_EXPIRATION_MINUTES * 60 * 1000) tLoop st in
      with_rooms (insert roomId
        {| id := id room; users := users room;
           messages := messages room; createdAt := createdAt room;
           timer := t |}) st
  end.

Record Result := {
  res_state : State;
  res_out : list (Target * Payload);
  res_threw : bool
}.

Definition done_with (st : State) (out : list (Target * Payload))
  : Result :=
  {| res_state := st; res_out := out; res_threw := false |}.

Definition threw_with (st : State) (out : list (Target * Payload))
  : Result :=
  {| res_state := st; res_out := out; res_threw := true |}.

(** [sendUserRooms(userId)], lines 241-255. *)
Definition roomsData (userId : string) (st : State)
  : option (list (string * nat)) :=
  match userRooms st !! userId with
  | Some rs =>
      mapM (λ roomId,
              room ← rooms st !! roomId;
              Some (roomId, JSSet.size (users room))) rs
  | None => Some []
  end.

Definition sendUserRooms (sid userId : string) (st : State)
    (out : list (Target * Payload)) : Result :=
  match roomsData userId st with
  | Some d => done_with st (out ++ [(ToSocket sid, ev_user_rooms d)])
  | None => threw_with st out
  end.

(** [Math.ceil((room.timer._idleStart + room.timer._idleTimeout
                - Date.now()) / 60000)] *)
Definition minutesLeft (t : Timeout) (tNow : Z) : Z :=
  ceil_div (idleStart t + idleTimeout t - tNow) 60000.

Definition deref (roomId : string) (room : Room) (st : State) : Room :=
  default room (rooms st !! roomId).

(** ['create_room'], lines 100-115. *)
Definition create_room (sid roomId : string) (userIds : list string)
    (tCreated tLoop : Z) (st : State) : Result :=
  if bool_decide (is_Some (rooms st !! roomId)) then
    done_with st [(ToSocket sid, ev_error ERR_ALREADY_EXISTS)]
  else
    let '(room, st) := createRoom roomId userIds tCreated tLoop st in
    done_with st
      (map (λ userId,
              (ToChannel userId,
               ev_room_created roomId (JSSet.size (users room))))
           userIds).

(** ['join_room'], lines 118-150.  [tLoop] is the timer clock when
    [resetRoomTimer] arms the timer, [tEmit] the [Date.now()] of
    [minutesLeft]. *)
Definition join_room (sid roomId userId : string) (tLoop tEmit : Z)
    (st : State) : Result :=
  match rooms st !! roomId with
  | None => done_with st [(ToSocket sid, ev_error ERR_NOT_FOUND)]
  | Some room =>
      let st :=
        if negb (JSSet.has userId (users room)) then
          let st := with_rooms (insert roomId
            {| id := id room; users := JSSet.add userId (users room);
               messages := messages room; createdAt := createdAt room;
               timer := timer room |}) st in
          with_userRooms (index_add userId roomId) st
        else st in
      let st := with_sockets (socket_join sid roomId) st in
      let st := resetRoomTimer roomId tLoop st in
      let room := deref roomId room st in
      let out :=
        [(ToSocket sid, ev_room_joined roomId (JSSet.size (users room)));
         (ToSocket sid, ev_room_expiration (minutesLeft (timer room) tEmit))]
      in
      sendUserRooms sid userId st out
  end.

(** A pending timer [h] fires and its callback runs. *)
Definition timer_fires (h : nat) (st : State) : Result :=
  match timers st !! h with
  | None => done_with st []
  | Some t =>
      let st :=
        {| rooms := rooms st; userRooms := userRooms st;
           timers := delete h (timers st); nextTimer := nextTimer st;
           sockets := sockets st |} in
      let '(st, out) := deleteRoom (timer_room t) st in
      done_with st out
  end.

End V1.

(** ** Second revision of the server (source lines 283-581) *)

Module V2.

(** [{ id, users, messages, createdAt, expiresAt, timer }]; [timer] is
    the handle returned by [setTimeout]. *)
Record Room := {
  id : string;
  users : JSSet.t;
  messages : list Message;
  createdAt : Z;
  expiresAt : Z;
  timer : nat
}.

(** The module-level [rooms] and [userRooms], the pending timers of
    the event loop with the next fresh handle, and the connected
    sockets. *)
Record State := {
  rooms : gmap string Room;
  userRooms : gmap string JSSet.t;
  timers : gmap nat Timer;
  nextTimer : nat;
  sockets : gmap string Socket
}.

Definition init : State :=
  {| rooms := ∅; userRooms := ∅; timers := ∅; nextTimer := 0;
     sockets := ∅ |}.

Definition with_rooms (f : gmap string Room → gmap string Room)
    (st : State) : State :=
  {| rooms := f (rooms st); userRooms := userRooms st;
     timers := timers st; nextTimer := nextTimer st;
     sockets := sockets st |}.

Definition with_userRooms
    (f : gmap string JSSet.t → gmap string JSSet.t) (st : State) : State :=
  {| rooms := rooms st; userRooms := f (userRooms st);
     timers := timers st; nextTimer := nextTimer st;
     sockets := sockets st |}.

Definition with_sockets (f : gmap string Socket → gmap string Socket)
    (st : State) : State :=
  {| rooms := rooms st; userRooms := userRooms st;
     timers := timers st; nextTimer := nextTimer st;
     sockets := f (sockets st) |}.

(** [setTimeout(() => deleteRoom(roomId), delay)]: a fresh handle. *)
Definition setTimeout (roomId : string) (delay : Z) (st : State)
  : nat * State :=
  (nextTimer st,
   {| rooms := rooms st; userRooms := userRooms st;
      timers := <[nextTimer st := {| timer_room := roomId;
                                     timer_delay := delay |}]> (timers st);
      nextTimer := S (nextTimer st);
      sockets := sockets st |}).

(** [clearTimeout(h)] *)
Definition clearTimeout (h : nat) (st : State) : State :=
  {| rooms := rooms st; userRooms := userRooms st;
     timers := delete h (timers st); nextTimer := nextTimer st;
     sockets := sockets st |}.

(** [createRoom(roomId, userIds)], lines 313-335.  [tExp] and
    [tCreated] are its two [Date.now()]. *)
Definition createRoom (roomId : string) (userIds : list string)
    (tExp tCreated : Z) (st : State) : Room * State :=
  let expiresAt := tExp + ROOM_EXPIRATION_MINUTES * 60 * 1000 in
  let '(h, st) :=
    setTimeout roomId (ROOM_EXPIRATION_MINUTES * 60 * 1000) st in
  let room := {| id := roomId;
                 users := JSSet.of_list userIds;
                 messages := [];
                 createdAt := tCreated;
                 expiresAt := expiresAt;
                 timer := h |} in
  let st := with_rooms (insert roomId room) st in
  let st :=
    foldl (λ st userId, with_userRooms (index_add userId roomId) st)
          st userIds in
  (room, st).

(** [deleteRoom(roomId)], lines 337-359: the state after it and what
    it emitted. *)
Definition deleteRoom (roomId : string) (st : State)
  : State * list (Target * Payload) :=
  match rooms st !! roomId with
  | None => (st, [])
  | Some room =>
      let out := [(ToChannel roomId, ev_room_deleted roomId)] in
      let st :=
        foldl (λ st userId, with_userRooms (index_remove userId roomId) st)
              st (users room) in
      let st := clearTimeout (timer room) st in
      let st := with_rooms (delete roomId) st in
      (st, out)
  end.

(** [resetRoomTimer(roomId)], lines 361-371; [tNow] is its
    [Date.now()]. *)
Definition resetRoomTimer (roomId : string) (tNow : Z) (st : State)
  : State :=
  match rooms st !! roomId with
  | None => st
  | Some room =>
      let st := clearTimeout (timer room) st in
      let expiresAt' := tNow + ROOM_EXPIRATION_MINUTES * 60 * 1000 in
      let '(h, st) :=
        setTimeout roomId (ROOM_EXPIRATION_MINUTES * 60 * 1000) st in
      with_rooms (insert roomId
        {| id := id room; users := users room;
           messages := messages room; createdAt := createdAt room;
           expiresAt := expiresAt'; timer := h |}) st
  end.

(** What a handler leaves behind: the state, the emissions in order,
    and whether it ended in an uncaught [TypeError]. *)
Record Result := {
  res_state : State;
  res_out : list (Target * Payload);
  res_threw : bool
}.

Definition done_with (st : State) (out : list (Target * Payload))
  : Result :=
  {| res_state := st; res_out := out; res_threw := false |}.

Definition threw_with (st : State) (out : list (Target * Payload))
  : Result :=
  {| res_state := st; res_out := out; res_threw := true |}.

(** The [roomsData] of [sendUserRooms(userId)], lines 561-575;
    [None] when [rooms.get(roomId)] is [undefined] and reading
    [room.users] throws. *)
Definition roomsData (userId : string) (st : State)
  : option (list (string * nat)) :=
  match userRooms st !! userId with
  | Some rs =>
      mapM (λ roomId,
              room ← rooms st !! roomId;
              Some (roomId, JSSet.size (users room))) rs
  | None => Some []
  end.

(** [sendUserRooms(userId)] run as the last statement of a handler of
    socket [sid] that has emitted [out] so far. *)
Definition sendUserRooms (sid userId : string) (st : State)
    (out : list (Target * Payload)) : Result :=
  match roomsData userId st with
  | Some d => done_with st (out ++ [(ToSocket sid, ev_user_rooms d)])
  | None => threw_with st out
  end.

(** [Math.max(0, Math.ceil((room.expiresAt - Date.now()) / 60000))] *)
Definition minutesLeft (expiresAt tNow : Z) : Z :=
  Z.max 0 (ceil_div (expiresAt - tNow) 60000).

(** The object behind the reference [room] after calls that changed
    the registry's copy of it. *)
Definition deref (roomId : string) (room : Room) (st : State) : Room :=
  default room (rooms st !! roomId).

(** ['register'], lines 393-396. *)
Definition register (sid userId : string) (st : State) : Result :=
  let st := with_sockets (socket_set_userId sid userId) st in
  sendUserRooms sid userId st [].

(** ['create_room'], lines 399-414. *)
Definition create_room (sid roomId : string) (userIds : list string)
    (tExp tCreated : Z) (st : State) : Result :=
  if bool_decide (is_Some (rooms st !! roomId)) then
    done_with st [(ToSocket sid, ev_error ERR_ALREADY_EXISTS)]
  else
    let '(room, st) := createRoom roomId userIds tExp tCreated st in
    done_with st
      (map (λ userId,
              (ToChannel userId,
               ev_room_created roomId (JSSet.size (users room))))
           userIds).

(** ['join_room'], lines 417-452.  [tReset] is the [Date.now()] of
    [resetRoomTimer], [tEmit] the one of [minutesLeft]. *)
Definition join_room (sid roomId userId : string) (tReset tEmit : Z)
    (st : State) : Result :=
  match rooms st !! roomId with
  | None => done_with st [(ToSocket sid, ev_error ERR_NOT_FOUND)]
  | Some room =>
      let st :=
        if negb (JSSet.has userId (users room)) then
          let st := with_rooms (insert roomId
            {| id := id room; users := JSSet.add userId (users room);
               messages := messages room; createdAt := createdAt room;
               expiresAt := expiresAt room; timer := timer room |}) st in
          with_userRooms (index_add userId roomId) st
        else st in
      let st := with_sockets (socket_join sid roomId) st in
      let st := resetRoomTimer roomId tReset st in
      let room := deref roomId room st in
      let out :=
        [(ToSocket sid, ev_room_joined roomId (JSSet.size (users room)));
         (ToSocket sid,
          ev_room_expiration (minutesLeft (expiresAt room) tEmit))] in
      sendUserRooms sid userId st out
  end.

(** The loop [for (const roomId of commonRooms) { ... break; }] of
    ['join_by_user']. *)
Fixpoint findExisting (userId currentUserId : string) (st : State)
    (commonRooms : list string) : option Room :=
  match commonRooms with
  | [] => None
  | roomId :: rest =>
      match rooms st !! roomId with
      | Some room =>
          if bool_decide (JSSet.size (users room) = 2%nat)
             && JSSet.has currentUserId (users room)
             && JSSet.has userId (users room)
          then Some room
          else findExisting userId currentUserId st rest
      | None => findExisting userId currentUserId st rest
      end
  end.

(** The search of ['join_by_user'], lines 456-472. *)
Definition existingRoom (userId currentUserId : string) (st : State)
  : option Room :=
  match userRooms st !! currentUserId, userRooms st !! userId with
  | Some mine, Some theirs =>
      let commonRooms := filter (λ roomId, JSSet.has roomId theirs) mine in
      findExisting userId currentUserId st commonRooms
  | _, _ => None
  end.

(** ['join_by_user'], lines 455-495.  [r1..r4] feed
    [generateRoomId], [tExp] and [tCreated] feed [createRoom]. *)
Definition join_by_user (sid userId currentUserId : string)
    (r1 r2 r3 r4 : nat) (tExp tCreated : Z) (st : State) : Result :=
  match existingRoom userId currentUserId st with
  | Some existing =>
      done_with st
        [(ToSocket sid,
          ev_room_joined (id existing) (JSSet.size (users existing)))]
  | None =>
      let roomId := generateRoomId r1 r2 r3 r4 in
      let '(_, st) :=
        createRoom roomId [currentUserId; userId] tExp tCreated st in
      done_with st
        [(ToSocket sid, ev_room_created roomId 2);
         (ToChannel userId, ev_room_created roomId 2)]
  end.

(** [Date.now() + '-' + Math.random().toString(36).substr(2, 9)];
    [rnd] is the value of the second operand. *)
Definition messageId (tId : Z) (rnd : string) : string :=
  pretty tId +:+ "-" +:+ rnd.

(** ['send_message'], lines 498-537.  [tId] is the [Date.now()] of
    the id, [tStamp] the [new Date()], [tReset] the [Date.now()] of
    [resetRoomTimer], [tEmit] the one of [minutesLeft]. *)
Definition send_message (sid roomId userId message : string)
    (tId : Z) (rnd : string) (tStamp tReset tEmit : Z) (st : State)
  : Result :=
  match rooms st !! roomId with
  | None => done_with st [(ToSocket sid, ev_error ERR_NOT_FOUND)]
  | Some room =>
      if negb (JSSet.has userId (users room)) then
        done_with st [(ToSocket sid, ev_error ERR_NOT_MEMBER)]
      else
        let mid := messageId tId rnd in
        let st := with_rooms (insert roomId
          {| id := id room; users := users room;
             messages := messages room ++
               [{| msg_id := mid; msg_userId := userId;
                   msg_message := message; msg_timestamp := tStamp |}];
             createdAt := createdAt room; expiresAt := expiresAt room;
             timer := timer room |}) st in
        let st := resetRoomTimer roomId tReset st in
        let room := deref roomId room st in
        done_with st
          [(ToChannel roomId, ev_new_message mid roomId userId message);
           (ToChannel roomId,
            ev_room_expiration (minutesLeft (expiresAt room) tEmit))]
  end.

(** ['get_messages'], lines 540-547. *)
Definition get_messages (sid roomId : string) (st : State) : Result :=
  match rooms st !! roomId with
  | Some room =>
      done_with st [(ToSocket sid, ev_room_messages roomId (messages room))]
  | None => done_with st []
  end.

(** ['get_room_expiration'], lines 550-558. *)
Definition get_room_expiration (sid roomId : string) (tNow : Z)
    (st : State) : Result :=
  match rooms st !! roomId with
  | Some room =>
      done_with st
        [(ToSocket sid,
          ev_room_expiration (minutesLeft (expiresAt room) tNow))]
  | None => done_with st []
  end.

(** A pending timer [h] fires: it leaves the table and its callback
    [() => deleteRoom(roomId)] runs. *)
Definition timer_fires (h : nat) (st : State) : Result :=
  match timers st !! h with
  | None => done_with st []
  | Some t =>
      let st := clearTimeout h st in
      let '(st, out) := deleteRoom (timer_room t) st in
      done_with st out
  end.

(** Everything that can happen to the server: a socket connects or
    goes away, a connected socket sends one of the seven events (with
    the values [Date.now()] and [Math.random()] take while it is
    handled), a pending timer fires.  A timer may fire at any time here;
    Node fires it once its delay has passed. *)
Inductive Input :=
| Connect (sid : string)
| Disconnect (sid : string)
| Register (sid userId : string)
| CreateRoom (sid roomId : string) (userIds : list string)
    (tExp tCreated : Z)
| JoinRoom (sid roomId userId : string) (tReset tEmit : Z)
| JoinByUser (sid userId currentUserId : string) (r1 r2 r3 r4 : nat)
    (tExp tCreated : Z)
| SendMessage (sid roomId userId message : string) (tId : Z)
    (rnd : string) (tStamp tReset tEmit : Z)
| GetMessages (sid roomId : string)
| GetRoomExpiration (sid roomId : string) (tNow : Z)
| TimerFires (h : nat).

Definition step (st : State) (i : Input) : Result :=
  match i with
  | Connect sid => done_with (with_sockets (socket_connect sid) st) []
  | Disconnect sid => done_with (with_sockets (delete sid) st) []
  | Register sid userId => register sid userId st
  | CreateRoom sid roomId userIds tExp tCreated =>
      create_room sid roomId userIds tExp tCreated st
  | JoinRoom sid roomId userId tReset tEmit =>
      join_room sid roomId userId tReset tEmit st
  | JoinByUser sid userId currentUserId r1 r2 r3 r4 tExp tCreated =>
      join_by_user sid userId currentUserId r1 r2 r3 r4 tExp tCreated st
  | SendMessage sid roomId userId message tId rnd tStamp tReset tEmit =>
      send_message sid roomId userId message tId rnd tStamp tReset tEmit st
  | GetMessages sid roomId => get_messages sid roomId st
  | GetRoomExpiration sid roomId tNow =>
      get_room_expiration sid roomId tNow st
  | TimerFires h => timer_fires h st
  end.

(** The state after a sequence of inputs.  A handler that throws leaves
    the state it had reached; the run goes on from there. *)
Definition run (st : State) (inputs : list Input) : State :=
  foldl (λ st i, res_state (step st i)) st inputs.

End V2.

(** ** Vocabulary of the properties (second revision) *)

(** [u] is in the member set of the live room [rid]. *)
Definition is_member (st : V2.State) (u rid : string) : bool :=
  from_option (λ room, JSSet.has u (V2.users room)) false
              (V2.rooms st !! rid).

(** [rid] is in the entry of [u] in an index. *)
Definition idx_has (userRooms : gmap string JSSet.t) (u rid : string)
  : bool :=
  from_option (JSSet.has rid) false (userRooms !! u).

Definition is_indexed (st : V2.State) (u rid : string) : bool :=
  idx_has (V2.userRooms st) u rid.

(** The bidirectional membership invariant, and its two halves: no
    missing reverse entry, no dangling index entry. *)
Definition membership_inv (st : V2.State) : Prop :=
  ∀ u rid, is_member st u rid = is_indexed st u rid.

Definition index_complete (st : V2.State) : Prop :=
  ∀ u rid, is_member st u rid = true → is_indexed st u rid = true.

Definition index_sound (st : V2.State) : Prop :=
  ∀ u rid, is_indexed st u rid = true → is_member st u rid = true.

(** Every room is stored under its own id and its member list repeats
    no user (what a JS [Set] guarantees). *)
Definition registry_wf (st : V2.State) : Prop :=
  ∀ rid room, V2.rooms st !! rid = Some room →
    V2.id room = rid ∧ NoDup (V2.users room).

(** What a change of state keeps of the three. *)
Definition keeps (st st' : V2.State) : Prop :=
  (index_complete st → index_complete st')
  ∧ (registry_wf st → registry_wf st')
  ∧ (index_sound st → index_sound st').

(** The test in the loop body of ['join_by_user']. *)
Definition fits (userId currentUserId : string) (room : V2.Room) : Prop :=
  JSSet.size (V2.users room) = 2%nat
  ∧ currentUserId ∈ V2.users room ∧ userId ∈ V2.users room.

(** The implicit-create branch of ['join_by_user'] is taken with a
    generated id that is live. *)
Definition collides (st : V2.State) (i : V2.Input) : Prop :=
  match i with
  | V2.JoinByUser _ userId currentUserId r1 r2 r3 r4 _ _ =>
      V2.existingRoom userId currentUserId st = None
      ∧ is_Some (V2.rooms st !! generateRoomId r1 r2 r3 r4)
  | _ => False
  end.

(** States reached from the initial one by any inputs. *)
Inductive reachable : V2.State → Prop :=
| reachable_init : reachable V2.init
| reachable_step st i :
    reachable st → reachable (V2.res_state (V2.step st i)).

(** States reached from the initial one by inputs none of which
    collides. *)
Inductive collision_free : V2.State → Prop :=
| collision_free_init : collision_free V2.init
| collision_free_step st i :
    collision_free st → ¬ collides st i →
    collision_free (V2.res_state (V2.step st i)).

(** The input [i] deletes the live room [roomId]: only a timer whose
    callback targets it does. *)
Definition deletes (roomId : string) (st : V2.State) (i : V2.Input)
  : Prop :=
  match i with
  | V2.TimerFires h => timer_room <$> V2.timers st !! h = Some roomId
  | _ => False
  end.

Fixpoint no_delete_of (roomId : string) (st : V2.State)
    (inputs : list V2.Input) : Prop :=
  match inputs with
  | [] => True
  | i :: rest =>
      ¬ deletes roomId st i
      ∧ no_delete_of roomId (V2.res_state (V2.step st i)) rest
  end.

(** The spec's [remainingTTL]: [max(0, expiresAt − now)]. *)
Definition remainingTTL (expiresAt now : Z) : Z := Z.max 0 (expiresAt - now).

(** The member set of [room] is exactly [{a, b}] and has size 2. *)
Definition exactly_two (room : V2.Room) (a b : string) : Prop :=
  JSSet.size (V2.users room) = 2%nat
  ∧ ∀ u, u ∈ V2.users room ↔ u = a ∨ u = b.

(** The state ['join_room'] leaves when the room is live. *)
Definition joined_state (sid roomId userId : string) (tReset : Z)
    (room : V2.Room) (st : V2.State) : V2.State :=
  {| V2.rooms :=
       <[roomId := {| V2.id := V2.id room;
                      V2.users := JSSet.add userId (V2.users room);
                      V2.messages := V2.messages room;
                      V2.createdAt := V2.createdAt room;
                      V2.expiresAt := tReset + 300000;
                      V2.timer := V2.nextTimer st |}]> (V2.rooms st);
     V2.userRooms :=
       if JSSet.has userId (V2.users room) then V2.userRooms st
       else index_add userId roomId (V2.userRooms st);
     V2.timers :=
       <[V2.nextTimer st := {| timer_room := roomId;
                               timer_delay := 300000 |}]>
         (delete (V2.timer room) (V2.timers st));
     V2.nextTimer := S (V2.nextTimer st);
     V2.sockets := socket_join sid roomId (V2.sockets st) |}.

(** The state ['send_message'] leaves when it accepts the message. *)
Definition sent_state (roomId userId message : string) (tId : Z)
    (rnd : string) (tStamp tReset : Z) (room : V2.Room) (st : V2.State)
  : V2.State :=
  {| V2.rooms :=
       <[roomId := {| V2.id := V2.id room;
                      V2.users := V2.users room;
                      V2.messages := V2.messages room ++
                        [{| msg_id := V2.messageId tId rnd;
                            msg_userId := userId;
                            msg_message := message;
                            msg_timestamp := tStamp |}];
                      V2.createdAt := V2.createdAt room;
                      V2.expiresAt := tReset + 300000;
                      V2.timer := V2.nextTimer st |}]> (V2.rooms st);
     V2.userRooms := V2.userRooms st;
     V2.timers :=
       <[V2.nextTimer st := {| timer_room := roomId;
                               timer_delay := 300000 |}]>
         (delete (V2.timer room) (V2.timers st));
     V2.nextTimer := S (V2.nextTimer st);
     V2.sockets := V2.sockets st |}.

(** Whether a string holds the character [-]. *)
Fixpoint has_dash (s : string) : bool :=
  match s with
  | EmptyString => false
  | String c s' => Ascii.eqb c "-"%char || has_dash s'
  end.

(** ** Sample runs of the second revision *)

(** Two sockets connect; the first creates room "R1" for users "u1" and
    "u2" and then joins it as "u1". *)
Definition run_one_room : V2.State :=
  V2.run V2.init
    [V2.Connect "s1"; V2.Connect "s2";
     V2.CreateRoom "s1" "R1" ["u1"; "u2"] 1000 1000;
     V2.JoinRoom "s1" "R1" "u1" 2000 2000].

(** A socket creates room "AA00" for "x", "y" and "z"; "x" sends one
    message. *)
Definition run_three_party : V2.State :=
  V2.run V2.init
    [V2.Connect "s1";
     V2.CreateRoom "s1" "AA00" ["x"; "y"; "z"] 0 0;
     V2.SendMessage "s1" "AA00" "x" "hello" 5 "abc" 5 5 5].

(** A room "R1" for "u1"; "u1" sends two messages within the same
    millisecond and [Math.random()] gives the same nine characters
    both times. *)
Definition run_same_instant : V2.State :=
  V2.run V2.init
    [V2.Connect "s1";
     V2.CreateRoom "s1" "R1" ["u1"] 1700000000000 1700000000000;
     V2.SendMessage "s1" "R1" "u1" "first" 1700000000123 "k3j2h1g9f"
       1700000000123 1700000000123 1700000000123;
     V2.SendMessage "s1" "R1" "u1" "second" 1700000000123 "k3j2h1g9f"
       1700000000123 1700000000123 1700000000123].

(** After [run_three_party], "u1" asks for a chat with "u2" and
    [generateRoomId()] returns "AA00". *)
Definition run_collided : V2.State :=
  V2.res_state
    (V2.step run_three_party (V2.JoinByUser "s1" "u2" "u1" 0 0 0 0 100 100)).

(** The first revision with one connected socket and a live room
    "R1". *)
Definition run_v1_room : V1.State :=
  V1.res_state
    (V1.create_room "s1" "R1" ["u1"; "u2"] 1000 1000
       (V1.with_sockets (socket_connect "s1") V1.init)).

(** Two sockets connect and register, "s1" as "u1" and "s2" as "u2". *)
Definition run_registered : V2.State :=
  V2.run V2.init
    [V2.Connect "s1"; V2.Connect "s2";
     V2.Register "s1" "u1"; V2.Register "s2" "u2"].

(** ** Vocabulary of the further properties *)

(** No entry of an index is empty and none lists a room id twice. *)
Definition index_wf (userRooms : gmap string JSSet.t) : Prop :=
  ∀ u rs, userRooms !! u = Some rs → rs ≠ [] ∧ NoDup rs.

(** Every pending timer carries a handle already given out, the delay of
    five minutes, and is the timer of the live room it is aimed at; the
    timer of every live room is pending and aimed at that room. *)
Definition timers_wf (st : V2.State) : Prop :=
  (∀ h t, V2.timers st !! h = Some t →
     (h < V2.nextTimer st)%nat
     ∧ timer_delay t = ROOM_EXPIRATION_MINUTES * 60 * 1000
     ∧ ∃ room, V2.rooms st !! timer_room t = Some room
               ∧ V2.timer room = h)
  ∧ (∀ rid room, V2.rooms st !! rid = Some room →
       ∃ t, V2.timers st !! V2.timer room = Some t ∧ timer_room t = rid).

(** The message log of a room, empty when the room is not live. *)
Definition log_of (st : V2.State) (roomId : string) : list Message :=
  from_option V2.messages [] (V2.rooms st !! roomId).

(** The connected socket [sid] is in the channel [name]. *)
Definition subscribed (st : V2.State) (sid name : string) : bool :=
  receives (V2.sockets st) sid (ToChannel name).

(** What [index_remove] leaves of an entry: the entry without the room
    id, or no entry when that was its last room. *)
Definition prune_entry (rid : string) (entry : option JSSet.t)
  : option JSSet.t :=
  rs ← entry;
  if bool_decide (JSSet.size (JSSet.remove rid rs) = 0%nat) then None
  else Some (JSSet.remove rid rs).

(** The pair ([Date.now()], random suffix) an input spends on a message
    id: one for ['send_message'], none for the others. *)
Definition draw_of (i : V2.Input) : list (Z * string) :=
  match i with
  | V2.SendMessage _ _ _ _ tId rnd _ _ _ => [(tId, rnd)]
  | _ => []
  end.

Definition draws (inputs : list V2.Input) : list (Z * string) :=
  inputs ≫= draw_of.

(** Every stored message carries an id built from one of the draws
    [ds]. *)
Definition ids_from (ds : list (Z * string)) (st : V2.State) : Prop :=
  ∀ rid k m, log_of st rid !! k = Some m →
    ∃ d, d ∈ ds ∧ msg_id m = V2.messageId d.1 d.2.

(** No two stored messages, in the same room or in two rooms, have the
    same id. *)
Definition ids_unique (st : V2.State) : Prop :=
  ∀ rid1 rid2 k1 k2 m1 m2,
    log_of st rid1 !! k1 = Some m1 → log_of st rid2 !! k2 = Some m2 →
    msg_id m1 = msg_id m2 → rid1 = rid2 ∧ k1 = k2.

(** ** The other handlers of the first revision (source lines 94-97
    and 153-238) *)

Module V1b.

(** ['register'], lines 94-97. *)
Definition register (sid userId : string) (st : V1.State) : V1.Result :=
  let st := V1.with_sockets (socket_set_userId sid userId) st in
  V1.sendUserRooms sid userId st [].

(** The loop [for (const roomId of userRoomsSet) { ... break; }] of
    ['join_by_user']. *)
Fixpoint findExisting (userId currentUserId : string) (st : V1.State)
    (userRoomsSet : list string) : option V1.Room :=
  match userRoomsSet with
  | [] => None
  | roomId :: rest =>
      match V1.rooms st !! roomId with
      | Some room =>
          if bool_decide (JSSet.size (V1.users room) = 2%nat)
             && JSSet.has currentUserId (V1.users room)
             && JSSet.has userId (V1.users room)
          then Some room
          else findExisting userId currentUserId st rest
      | None => findExisting userId currentUserId st rest
      end
  end.

(** The search of ['join_by_user'], lines 155-171: the rooms of the two
    users are put together in one [Set], those of the caller first. *)
Definition existingRoom (userId currentUserId : string) (st : V1.State)
  : option V1.Room :=
  match V1.userRooms st !! currentUserId, V1.userRooms st !! userId with
  | Some mine, Some theirs =>
      let userRoomsSet := JSSet.of_list (mine ++ theirs) in
      findExisting userId currentUserId st userRoomsSet
  | _, _ => None
  end.

(** ['join_by_user'], lines 153-194. *)
Definition join_by_user (sid userId currentUserId : string)
    (r1 r2 r3 r4 : nat) (tCreated tLoop : Z) (st : V1.State) : V1.Result :=
  match existingRoom userId currentUserId st with
  | Some existing =>
      V1.done_with st
        [(ToSocket sid,
          ev_room_joined (V1.id existing)
                         (JSSet.size (V1.users existing)))]
  | None =>
      let roomId := generateRoomId r1 r2 r3 r4 in
      let '(_, st) :=
        V1.createRoom roomId [currentUserId; userId] tCreated tLoop st in
      V1.done_with st
        [(ToSocket sid, ev_room_created roomId 2);
         (ToChannel userId, ev_room_created roomId 2)]
  end.

(** The events of ['send_message'] and ['get_messages']: [new_message]
    carries no id and [room_messages] is the bare log in this
    revision. *)
Inductive Payload1 :=
| ev1_error (reason : string)
| ev1_new_message (roomId userId message : string)
| ev1_room_expiration (minutesLeft : Z)
| ev1_room_messages (messages : list V1.StoredMessage).

Record Result1 := {
  res1_state : V1.State;
  res1_out : list (Target * Payload1)
}.

(** ['send_message'], lines 197-231.  [tStamp] is the [new Date()],
    [tLoop] the timer clock when [resetRoomTimer] arms the timer,
    [tEmit] the [Date.now()] of [minutesLeft]. *)
Definition send_message (sid roomId userId message : string)
    (tStamp tLoop tEmit : Z) (st : V1.State) : Result1 :=
  match V1.rooms st !! roomId with
  | None =>
      {| res1_state := st;
         res1_out := [(ToSocket sid, ev1_error ERR_NOT_FOUND)] |}
  | Some room =>
      if negb (JSSet.has userId (V1.users room)) then
        {| res1_state := st;
           res1_out := [(ToSocket sid, ev1_error ERR_NOT_MEMBER)] |}
      else
        let st := V1.with_rooms (insert roomId
          {| V1.id := V1.id room; V1.users := V1.users room;
             V1.messages := V1.messages room ++
               [{| V1.sm_userId := userId; V1.sm_message := message;
                   V1.sm_timestamp := tStamp |}];
             V1.createdAt := V1.createdAt room;
             V1.timer := V1.timer room |}) st in
        let st := V1.resetRoomTimer roomId tLoop st in
        let room := V1.deref roomId room st in
        {| res1_state := st;
           res1_out :=
             [(ToChannel roomId, ev1_new_message roomId userId message);
              (ToChannel roomId,
               ev1_room_expiration (V1.minutesLeft (V1.timer room) tEmit))]
        |}
  end.

(** ['get_messages'], lines 234-238. *)
Definition get_messages (sid roomId : string) (st : V1.State) : Result1 :=
  match V1.rooms st !! roomId with
  | Some room =>
      {| res1_state := st;
         res1_out := [(ToSocket sid, ev1_room_messages (V1.messages room))] |}
  | None => {| res1_state := st; res1_out := [] |}
  end.

End V1b.

(** A message of the second revision without its id: what the first
    revision stores. *)
Definition strip_id (m : Message) : V1.StoredMessage :=
  {| V1.sm_userId := msg_userId m; V1.sm_message := msg_message m;
     V1.sm_timestamp := msg_timestamp m |}.

(** A state of the first revision and a state of the second hold the
    same rooms with the same members, timer handles and, ids aside,
    logs, the same membership index, the same pending timers and the
    same sockets.  [createdAt], [expiresAt] and the timer clock are left
    aside. *)
Definition same_core (s1 : V1.State) (s2 : V2.State) : Prop :=
  V1.users <$> V1.rooms s1 = V2.users <$> V2.rooms s2
  ∧ (V1.handle ∘ V1.timer) <$> V1.rooms s1 = V2.timer <$> V2.rooms s2
  ∧ V1.userRooms s1 = V2.userRooms s2
  ∧ V1.timers s1 = V2.timers s2
  ∧ V1.nextTimer s1 = V2.nextTimer s2
  ∧ V1.sockets s1 = V2.sockets s2
  ∧ V1.messages <$> V1.rooms s1
    = (λ room, strip_id <$> V2.messages room) <$> V2.rooms s2
  ∧ V1.id <$> V1.rooms s1 = V2.id <$> V2.rooms s2.

(** An event of the second revision as the first revision's
    ['send_message'] and ['get_messages'] emit it. *)
Definition to_v1 (p : Payload) : option V1b.Payload1 :=
  match p with
  | ev_error reason => Some (V1b.ev1_error reason)
  | ev_new_message _ roomId userId message =>
      Some (V1b.ev1_new_message roomId userId message)
  | ev_room_expiration m => Some (V1b.ev1_room_expiration m)
  | ev_room_messages _ log => Some (V1b.ev1_room_messages (strip_id <$> log))
  | _ => None
  end.

(** The first room id of a list that passes a test. *)
Definition first_fit (fit : string → bool) (l : list string)
  : option string :=
  head (filter (λ rid, fit rid = true) l).

(** The test of the loop of ['join_by_user'] on a room id, in each
    revision. *)
Definition fit1 (userId currentUserId : string) (st : V1.State)
    (rid : string) : bool :=
  from_option
    (λ room, bool_decide (JSSet.size (V1.users room) = 2%nat)
             && JSSet.has currentUserId (V1.users room)
             && JSSet.has userId (V1.users room))
    false (V1.rooms st !! rid).

Definition fit2 (userId currentUserId : string) (st : V2.State)
    (rid : string) : bool :=
  from_option
    (λ room, bool_decide (JSSet.size (V2.users room) = 2%nat)
             && JSSet.has currentUserId (V2.users room)
             && JSSet.has userId (V2.users room))
    false (V2.rooms st !! rid).

(** The second revision with one connected socket and a live room
    "R1": the counterpart of [run_v1_room]. *)
Definition run_created : V2.State :=
  V2.run V2.init
    [V2.Connect "s1"; V2.CreateRoom "s1" "R1" ["u1"; "u2"] 1000 1000].

(** * Properties *)

(** ** JS sets *)

Section JSSetFacts.

Implicit Types (x y : string) (s : JSSet.t) (l : list string).

Lemma has_true x s : JSSet.has x s = true ↔ x ∈ s.
Proof. apply bool_decide_eq_true. Qed.

Lemma has_false x s : JSSet.has x s = false ↔ x ∉ s.
Proof. apply bool_decide_eq_false. Qed.

Lemma elem_of_add y x s : y ∈ JSSet.add x s ↔ y = x ∨ y ∈ s.
Proof.
  unfold JSSet.add. destruct (JSSet.has x s) eqn:Hx.
  - apply has_true in Hx. split; [auto | intros [-> | ?]; done].
  - rewrite elem_of_app, list_elem_of_singleton. tauto.
Qed.

Lemma elem_of_remove y x s : y ∈ JSSet.remove x s ↔ y ∈ s ∧ y ≠ x.
Proof. unfold JSSet.remove. rewrite list_elem_of_filter. tauto. Qed.

Lemma NoDup_add x s : NoDup s → NoDup (JSSet.add x s).
Proof.
  intros Hs. unfold JSSet.add. destruct (JSSet.has x s) eqn:Hx; [done |].
  apply has_false in Hx. apply NoDup_app. split_and!; [done | | apply NoDup_singleton].
  intros z Hz ->%list_elem_of_singleton. done.
Qed.

Lemma add_present x s : x ∈ s → JSSet.add x s = s.
Proof. intros H. unfold JSSet.add. by rewrite (proj2 (has_true x s) H). Qed.

Lemma add_idem x s : JSSet.add x (JSSet.add x s) = JSSet.add x s.
Proof. apply add_present, elem_of_add. by left. Qed.

Lemma of_list_acc l s :
  (∀ y, y ∈ foldl (λ acc x, JSSet.add x acc) s l ↔ y ∈ l ∨ y ∈ s)
  ∧ (NoDup s → NoDup (foldl (λ acc x, JSSet.add x acc) s l)).
Proof.
  revert s. induction l as [| x l IH]; intros s; simpl.
  - split; [intros y; rewrite elem_of_nil; tauto | done].
  - destruct (IH (JSSet.add x s)) as [IH1 IH2]. split.
    + intros y. rewrite IH1, elem_of_add, elem_of_cons. tauto.
    + intros Hs. by apply IH2, NoDup_add.
Qed.

Lemma elem_of_of_list y l : y ∈ JSSet.of_list l ↔ y ∈ l.
Proof.
  unfold JSSet.of_list. rewrite (proj1 (of_list_acc l JSSet.empty)).
  unfold JSSet.empty. rewrite elem_of_nil. tauto.
Qed.

Lemma NoDup_of_list l : NoDup (JSSet.of_list l).
Proof. apply of_list_acc, NoDup_nil_2. Qed.

Lemma of_list_pair x y : x ≠ y → JSSet.of_list [x; y] = [x; y].
Proof.
  intros Hxy. unfold JSSet.of_list. cbn [foldl].
  assert (JSSet.add x JSSet.empty = [x]) as ->.
  { unfold JSSet.add. rewrite (proj2 (has_false _ _)); [done |].
    apply not_elem_of_nil. }
  unfold JSSet.add. rewrite (proj2 (has_false _ _)); [done |].
  rewrite list_elem_of_singleton. congruence.
Qed.

End JSSetFacts.

(** ** The membership index *)

Section IndexFacts.

Implicit Types (ur : gmap string JSSet.t) (u rid : string).

Lemma idx_has_true ur u rid :
  idx_has ur u rid = true ↔ ∃ rs, ur !! u = Some rs ∧ rid ∈ rs.
Proof.
  unfold idx_has. destruct (ur !! u) as [rs |]; simpl.
  - rewrite has_true. split; [eauto | by intros (? & [= <-] & ?)].
  - split; [done | by intros (? & ? & ?)].
Qed.

Lemma index_add_lookup ur u rid :
  index_add u rid ur !! u
  = Some (JSSet.add rid (default JSSet.empty (ur !! u))).
Proof.
  unfold index_add. rewrite lookup_insert_eq. f_equal. f_equal.
  case_bool_decide as H.
  - done.
  - rewrite lookup_insert_eq. apply eq_None_not_Some in H. by rewrite H.
Qed.

Lemma index_add_lookup_ne ur u rid u' :
  u' ≠ u → index_add u rid ur !! u' = ur !! u'.
Proof.
  intros Hne. unfold index_add. rewrite lookup_insert_ne by done.
  case_bool_decide; [done |]. by rewrite lookup_insert_ne.
Qed.

Lemma idx_has_add ur u rid u' rid' :
  idx_has (index_add u rid ur) u' rid' = true
  ↔ (u' = u ∧ rid' = rid) ∨ idx_has ur u' rid' = true.
Proof.
  destruct (decide (u' = u)) as [-> | Hne].
  - unfold idx_has at 1. rewrite index_add_lookup. simpl.
    rewrite has_true, elem_of_add, idx_has_true.
    destruct (ur !! u) as [rs |]; simpl.
    + split.
      * intros [-> | ?]; [by left | right; eauto].
      * intros [[_ ->] | (? & [= <-] & ?)]; auto.
    + unfold JSSet.empty. rewrite elem_of_nil. split.
      * intros [-> | []]. by left.
      * intros [[_ ->] | (? & ? & ?)]; [by left | done].
  - unfold idx_has. rewrite index_add_lookup_ne by done.
    split; [auto | intros [[? _] | ?]; done].
Qed.

Lemma idx_has_remove ur u rid u' rid' :
  idx_has (index_remove u rid ur) u' rid' = true
  ↔ idx_has ur u' rid' = true ∧ ¬ (u' = u ∧ rid' = rid).
Proof.
  unfold index_remove. destruct (ur !! u) as [rs |] eqn:Hu.
  - case_bool_decide as Hsz.
    + apply length_zero_iff_nil in Hsz.
      destruct (decide (u' = u)) as [-> | Hne].
      * unfold idx_has. rewrite lookup_delete_eq, Hu. simpl.
        rewrite has_true. split; [done |]. intros [Hin Hn].
        assert (rid' ∈ JSSet.remove rid rs) as Hr.
        { apply elem_of_remove. split; [done |]. intros ->. by apply Hn. }
        rewrite Hsz in Hr. by apply elem_of_nil in Hr.
      * unfold idx_has. rewrite lookup_delete_ne by done.
        split; [intros ?; split; [done | intros [? _]; done] | tauto].
    + destruct (decide (u' = u)) as [-> | Hne].
      * unfold idx_has. rewrite lookup_insert_eq, Hu. simpl.
        rewrite !has_true, elem_of_remove. split.
        -- intros [? ?]. split; [done | intros [_ ?]; done].
        -- intros [? Hn]. split; [done | intros ->; by apply Hn].
      * unfold idx_has. rewrite lookup_insert_ne by done.
        split; [intros ?; split; [done | intros [? _]; done] | tauto].
  - split; [| tauto]. intros H. split; [done |]. intros [-> _].
    unfold idx_has in H. by rewrite Hu in H.
Qed.

Lemma idx_has_add_all (l : list string) ur rid u' rid' :
  idx_has (foldl (λ ur u, index_add u rid ur) ur l) u' rid' = true
  ↔ (u' ∈ l ∧ rid' = rid) ∨ idx_has ur u' rid' = true.
Proof.
  revert ur. induction l as [| u l IH]; intros ur; simpl.
  - rewrite elem_of_nil. tauto.
  - rewrite IH, idx_has_add, elem_of_cons. tauto.
Qed.

Lemma idx_has_remove_all (l : list string) ur rid u' rid' :
  idx_has (foldl (λ ur u, index_remove u rid ur) ur l) u' rid' = true
  ↔ idx_has ur u' rid' = true ∧ ¬ (u' ∈ l ∧ rid' = rid).
Proof.
  revert ur. induction l as [| u l IH]; intros ur; simpl.
  - rewrite elem_of_nil. tauto.
  - rewrite IH, idx_has_remove, elem_of_cons. tauto.
Qed.

End IndexFacts.

(** ** Normal forms of the registry functions *)

Section RegistryFacts.

Import V2.

Implicit Types (st : State) (room : Room) (roomId userId sid : string).

Lemma foldl_with_userRooms
    (f : string → gmap string JSSet.t → gmap string JSSet.t)
    (l : list string) st :
  foldl (λ st u, with_userRooms (f u) st) st l
  = {| rooms := rooms st;
       userRooms := foldl (λ ur u, f u ur) (userRooms st) l;
       timers := timers st; nextTimer := nextTimer st;
       sockets := sockets st |}.
Proof.
  revert st. induction l as [| u l IH]; intros st; simpl.
  - by destruct st.
  - by rewrite IH.
Qed.

Lemma createRoom_eq roomId (userIds : list string) tExp tCreated st :
  createRoom roomId userIds tExp tCreated st
  = let room := {| id := roomId; users := JSSet.of_list userIds;
                   messages := []; createdAt := tCreated;
                   expiresAt := tExp + 300000;
                   timer := nextTimer st |} in
    (room,
     {| rooms := <[roomId := room]> (rooms st);
        userRooms :=
          foldl (λ ur u, index_add u roomId ur) (userRooms st) userIds;
        timers := <[nextTimer st := {| timer_room := roomId;
                                       timer_delay := 300000 |}]>
                    (timers st);
        nextTimer := S (nextTimer st);
        sockets := sockets st |}).
Proof.
  unfold createRoom, setTimeout. cbn zeta.
  by rewrite foldl_with_userRooms.
Qed.

Lemma deleteRoom_live roomId room st :
  rooms st !! roomId = Some room →
  deleteRoom roomId st
  = ({| rooms := delete roomId (rooms st);
        userRooms :=
          foldl (λ ur u, index_remove u roomId ur) (userRooms st)
                (users room);
        timers := delete (timer room) (timers st);
        nextTimer := nextTimer st;
        sockets := sockets st |},
     [(ToChannel roomId, ev_room_deleted roomId)]).
Proof.
  intros H. unfold deleteRoom. rewrite H. cbn zeta.
  by rewrite foldl_with_userRooms.
Qed.

Lemma deleteRoom_absent roomId st :
  rooms st !! roomId = None → deleteRoom roomId st = (st, []).
Proof. intros H. unfold deleteRoom. by rewrite H. Qed.

Lemma resetRoomTimer_live roomId room tNow st :
  rooms st !! roomId = Some room →
  resetRoomTimer roomId tNow st
  = {| rooms := <[roomId := {| id := id room; users := users room;
                               messages := messages room;
                               createdAt := createdAt room;
                               expiresAt := tNow + 300000;
                               timer := nextTimer st |}]> (rooms st);
       userRooms := userRooms st;
       timers := <[nextTimer st := {| timer_room := roomId;
                                      timer_delay := 300000 |}]>
                   (delete (timer room) (timers st));
       nextTimer := S (nextTimer st);
       sockets := sockets st |}.
Proof. intros H. unfold resetRoomTimer. by rewrite H. Qed.

Lemma bool_eq_iff (a b : bool) : a = b ↔ (a = true ↔ b = true).
Proof. destruct a, b; intuition congruence. Qed.

Lemma is_member_true st u rid :
  is_member st u rid = true
  ↔ ∃ room, rooms st !! rid = Some room ∧ u ∈ users room.
Proof.
  unfold is_member. destruct (rooms st !! rid) as [room |]; simpl.
  - rewrite has_true. split; [eauto | by intros (? & [= <-] & ?)].
  - split; [done | by intros (? & ? & ?)].
Qed.

(** Writing one room of the registry. *)
Lemma is_member_insert st st' rid0 room u rid :
  rooms st' = <[rid0 := room]> (rooms st) →
  is_member st' u rid
  = if bool_decide (rid = rid0) then JSSet.has u (users room)
    else is_member st u rid.
Proof.
  intros H. unfold is_member. rewrite H. case_bool_decide as Hr.
  - subst. by rewrite lookup_insert_eq.
  - by rewrite lookup_insert_ne.
Qed.

Lemma is_member_delete st st' rid0 u rid :
  rooms st' = delete rid0 (rooms st) →
  is_member st' u rid
  = if bool_decide (rid = rid0) then false else is_member st u rid.
Proof.
  intros H. unfold is_member. rewrite H. case_bool_decide as Hr.
  - subst. by rewrite lookup_delete_eq.
  - by rewrite lookup_delete_ne.
Qed.

(** A room whose member list is kept leaves membership as it was. *)
Lemma is_member_same_users st st' rid0 room room' :
  rooms st !! rid0 = Some room →
  rooms st' = <[rid0 := room']> (rooms st) →
  users room' = users room →
  ∀ u rid, is_member st' u rid = is_member st u rid.
Proof.
  intros Hl Hr Hu u rid. rewrite (is_member_insert st st' rid0 room') by done.
  case_bool_decide as Hrid; [| done]. subst.
  unfold is_member. by rewrite Hl, Hu.
Qed.

End RegistryFacts.

(** ** Normal forms of the handlers *)

Section HandlerFacts.

Import V2.

Implicit Types (st : State) (room : Room) (roomId userId sid : string).

Lemma sendUserRooms_state sid userId st out :
  res_state (sendUserRooms sid userId st out) = st.
Proof. unfold sendUserRooms. by destruct (roomsData userId st). Qed.

Lemma sendUserRooms_out sid userId st out :
  res_out (sendUserRooms sid userId st out)
  = out ++ match roomsData userId st with
           | Some d => [(ToSocket sid, ev_user_rooms d)]
           | None => []
           end.
Proof.
  unfold sendUserRooms. destruct (roomsData userId st); simpl; [done |].
  by rewrite app_nil_r.
Qed.

Lemma join_room_live sid roomId userId tReset tEmit room st :
  rooms st !! roomId = Some room →
  join_room sid roomId userId tReset tEmit st
  = sendUserRooms sid userId (joined_state sid roomId userId tReset room st)
      [(ToSocket sid,
        ev_room_joined roomId (JSSet.size (JSSet.add userId (users room))));
       (ToSocket sid,
        ev_room_expiration (minutesLeft (tReset + 300000) tEmit))].
Proof.
  intros H. unfold join_room, joined_state. rewrite H.
  destruct (JSSet.has userId (users room)) eqn:Hm; cbn [negb].
  - apply has_true in Hm. rewrite (add_present _ _ Hm).
    erewrite resetRoomTimer_live by exact H.
    unfold deref. cbn. by rewrite lookup_insert_eq.
  - erewrite resetRoomTimer_live by (cbn; apply lookup_insert_eq).
    unfold deref. cbn. rewrite lookup_insert_eq, insert_insert_eq. done.
Qed.

Lemma join_room_absent sid roomId userId tReset tEmit st :
  rooms st !! roomId = None →
  join_room sid roomId userId tReset tEmit st
  = done_with st [(ToSocket sid, ev_error ERR_NOT_FOUND)].
Proof. intros H. unfold join_room. by rewrite H. Qed.

Lemma send_message_accepted sid roomId userId message tId rnd tStamp
    tReset tEmit room st :
  rooms st !! roomId = Some room →
  userId ∈ users room →
  send_message sid roomId userId message tId rnd tStamp tReset tEmit st
  = done_with
      (sent_state roomId userId message tId rnd tStamp tReset room st)
      [(ToChannel roomId,
        ev_new_message (messageId tId rnd) roomId userId message);
       (ToChannel roomId,
        ev_room_expiration (minutesLeft (tReset + 300000) tEmit))].
Proof.
  intros H Hm. unfold send_message, sent_state. rewrite H.
  rewrite (proj2 (has_true _ _) Hm). cbn [negb].
  erewrite resetRoomTimer_live by (cbn; apply lookup_insert_eq).
  unfold deref. cbn. rewrite lookup_insert_eq, insert_insert_eq. done.
Qed.

Lemma send_message_absent sid roomId userId message tId rnd tStamp
    tReset tEmit st :
  rooms st !! roomId = None →
  send_message sid roomId userId message tId rnd tStamp tReset tEmit st
  = done_with st [(ToSocket sid, ev_error ERR_NOT_FOUND)].
Proof. intros H. unfold send_message. by rewrite H. Qed.

Lemma send_message_not_member sid roomId userId message tId rnd tStamp
    tReset tEmit room st :
  rooms st !! roomId = Some room →
  userId ∉ users room →
  send_message sid roomId userId message tId rnd tStamp tReset tEmit st
  = done_with st [(ToSocket sid, ev_error ERR_NOT_MEMBER)].
Proof.
  intros H Hm. unfold send_message. rewrite H.
  by rewrite (proj2 (has_false _ _) Hm).
Qed.

End HandlerFacts.

(** ** The membership invariant, half by half *)

Section Invariant.

Import V2.

Implicit Types (st : State) (room : Room) (roomId userId sid : string).

Lemma membership_inv_halves st :
  membership_inv st ↔ index_complete st ∧ index_sound st.
Proof.
  unfold membership_inv, index_complete, index_sound. split.
  - intros H. split; intros u rid; by rewrite (H u rid).
  - intros [Hc Hs] u rid. apply bool_eq_iff. split; [apply Hc | apply Hs].
Qed.

Lemma registry_wf_insert st st' rid0 room' :
  rooms st' = <[rid0 := room']> (rooms st) →
  id room' = rid0 → NoDup (users room') →
  registry_wf st → registry_wf st'.
Proof.
  intros Hr Hid Hnd Hwf rid room. rewrite Hr.
  destruct (decide (rid = rid0)) as [-> | Hne].
  - rewrite lookup_insert_eq. by intros [= <-].
  - rewrite lookup_insert_ne by done. apply Hwf.
Qed.

Lemma registry_wf_delete st st' rid0 :
  rooms st' = delete rid0 (rooms st) → registry_wf st → registry_wf st'.
Proof.
  intros Hr Hwf rid room. rewrite Hr.
  destruct (decide (rid = rid0)) as [-> | Hne].
  - by rewrite lookup_delete_eq.
  - rewrite lookup_delete_ne by done. apply Hwf.
Qed.

Lemma keeps_refl st : keeps st st.
Proof. by split_and!. Qed.

(** Same rooms with the same members, same index. *)
Lemma keeps_same st st' :
  (∀ u rid, is_member st' u rid = is_member st u rid) →
  userRooms st' = userRooms st →
  (registry_wf st → registry_wf st') →
  keeps st st'.
Proof.
  intros Hm Hu Hwf. split_and!; [| done |].
  - intros Hc u rid. rewrite Hm. unfold is_indexed. rewrite Hu. apply Hc.
  - intros Hs u rid. rewrite Hm. unfold is_indexed. rewrite Hu. apply Hs.
Qed.

Lemma good_init : membership_inv init ∧ registry_wf init.
Proof.
  split.
  - intros u rid. unfold is_member, is_indexed, idx_has. cbn.
    by rewrite !lookup_empty.
  - intros rid room. cbn. by rewrite lookup_empty.
Qed.

(** [createRoom] keeps the index complete and the registry well formed
    on any id, and the index sound on an id that is not live. *)
Lemma createRoom_keeps roomId (userIds : list string) tExp tCreated st :
  let st' := (createRoom roomId userIds tExp tCreated st).2 in
  (index_complete st → index_complete st')
  ∧ (registry_wf st → registry_wf st')
  ∧ (rooms st !! roomId = None → index_sound st → index_sound st').
Proof.
  rewrite createRoom_eq. cbn zeta. cbn [snd].
  set (st' := Build_State _ _ _ _ _).
  assert (∀ u rid, is_member st' u rid = true
                   ↔ (rid = roomId ∧ u ∈ userIds)
                     ∨ (rid ≠ roomId ∧ is_member st u rid = true)) as Hmem.
  { intros u rid. rewrite (is_member_insert st st' roomId _ u rid) by done.
    cbn [users]. case_bool_decide as Hrid.
    - rewrite has_true, elem_of_of_list. intuition congruence.
    - intuition congruence. }
  assert (∀ u rid, is_indexed st' u rid = true
                   ↔ (u ∈ userIds ∧ rid = roomId)
                     ∨ is_indexed st u rid = true) as Hidx.
  { intros u rid. unfold is_indexed. cbn [userRooms st'].
    apply idx_has_add_all. }
  split_and!.
  - intros Hc u rid. rewrite Hmem, Hidx. intros [[-> ?] | [_ ?]]; auto.
  - intros Hwf.
    eapply (registry_wf_insert st st' roomId);
      [reflexivity | done | apply NoDup_of_list | done].
  - intros Hfresh Hs u rid. rewrite Hmem, Hidx.
    intros [[? ->] | Hi]; [by left |]. right. apply Hs in Hi.
    split; [| done]. intros ->. unfold is_member in Hi.
    by rewrite Hfresh in Hi.
Qed.

Lemma deleteRoom_keeps roomId st : keeps st (deleteRoom roomId st).1.
Proof.
  destruct (rooms st !! roomId) as [room |] eqn:Hl.
  - rewrite (deleteRoom_live _ _ _ Hl). cbn [fst].
    set (st' := Build_State _ _ _ _ _).
    assert (∀ u rid, is_member st' u rid = true
                     ↔ rid ≠ roomId ∧ is_member st u rid = true) as Hmem.
    { intros u rid. rewrite (is_member_delete st st' roomId u rid) by done.
      case_bool_decide; intuition congruence. }
    assert (∀ u rid, is_indexed st' u rid = true
                     ↔ is_indexed st u rid = true
                       ∧ ¬ (u ∈ users room ∧ rid = roomId)) as Hidx.
    { intros u rid. unfold is_indexed. cbn [userRooms st'].
      apply idx_has_remove_all. }
    split_and!.
    + intros Hc u rid. rewrite Hmem, Hidx. intros [? ?].
      split; [by apply Hc | tauto].
    + by apply (registry_wf_delete st st' roomId).
    + intros Hs u rid. rewrite Hmem, Hidx. intros [Hi Hn].
      split; [| by apply Hs]. intros ->. apply Hn. split; [| done].
      apply Hs in Hi. unfold is_member in Hi. rewrite Hl in Hi.
      by apply has_true in Hi.
  - rewrite (deleteRoom_absent _ _ Hl). apply keeps_refl.
Qed.

Lemma joined_state_keeps sid roomId userId tReset room st :
  rooms st !! roomId = Some room →
  keeps st (joined_state sid roomId userId tReset room st).
Proof.
  intros Hl. set (st' := joined_state sid roomId userId tReset room st).
  assert (∀ u rid, is_member st' u rid = true
                   ↔ (rid = roomId ∧ (u = userId ∨ u ∈ users room))
                     ∨ (rid ≠ roomId ∧ is_member st u rid = true)) as Hmem.
  { intros u rid. rewrite (is_member_insert st st' roomId _ u rid) by done.
    cbn [users]. case_bool_decide as Hrid.
    - rewrite has_true, elem_of_add. intuition congruence.
    - intuition congruence. }
  assert (∀ u, is_member st u roomId = true ↔ u ∈ users room) as Hold.
  { intros u. unfold is_member. rewrite Hl. apply has_true. }
  assert (∀ u rid, is_indexed st' u rid = true
                   ↔ ((userId ∉ users room) ∧ u = userId ∧ rid = roomId)
                     ∨ is_indexed st u rid = true) as Hidx.
  { intros u rid. unfold is_indexed, st', joined_state. cbn [userRooms].
    destruct (JSSet.has userId (users room)) eqn:Hm.
    - apply has_true in Hm. intuition congruence.
    - apply has_false in Hm. rewrite idx_has_add. intuition congruence. }
  split_and!.
  - intros Hc u rid. rewrite Hmem, Hidx.
    intros [[-> [-> | Hu]] | [_ Hm]].
    + destruct (decide (userId ∈ users room)) as [Hin | Hin].
      * right. by apply Hc, Hold.
      * by left.
    + right. by apply Hc, Hold.
    + right. by apply Hc.
  - intros Hwf. destruct (Hwf _ _ Hl) as [Hid Hnd].
    eapply registry_wf_insert; [reflexivity | done | | done].
    cbn. by apply NoDup_add.
  - intros Hs u rid. rewrite Hmem, Hidx.
    intros [(_ & -> & ->) | Hi]; [left; auto |].
    apply Hs in Hi. destruct (decide (rid = roomId)) as [-> | Hne].
    + left. split; [done |]. right. by apply Hold.
    + by right.
Qed.

Lemma sent_state_keeps roomId userId message tId rnd tStamp tReset room st :
  rooms st !! roomId = Some room →
  keeps st (sent_state roomId userId message tId rnd tStamp tReset room st).
Proof.
  intros Hl. apply keeps_same; [| done |].
  - eapply is_member_same_users; [exact Hl | reflexivity | done].
  - intros Hwf. destruct (Hwf _ _ Hl) as [Hid Hnd].
    eapply registry_wf_insert; [reflexivity | done | done | done].
Qed.

(** Every input keeps the index complete and the registry well formed;
    every input that does not collide keeps the index sound. *)
Lemma step_keeps st i :
  let st' := res_state (step st i) in
  (index_complete st → index_complete st')
  ∧ (registry_wf st → registry_wf st')
  ∧ (¬ collides st i → index_sound st → index_sound st').
Proof.
  assert (∀ st', keeps st st' →
            (index_complete st → index_complete st')
            ∧ (registry_wf st → registry_wf st')
            ∧ (¬ collides st i → index_sound st → index_sound st')) as Hk.
  { intros st' (? & ? & ?). split_and!; auto. }
  destruct i; cbn [step]; cbn zeta.
  - apply Hk. by apply keeps_same.
  - apply Hk. by apply keeps_same.
  - unfold register. rewrite sendUserRooms_state. apply Hk.
    by apply keeps_same.
  - unfold create_room. case_bool_decide as Hlive; [apply Hk, keeps_refl |].
    apply eq_None_not_Some in Hlive.
    pose proof (createRoom_keeps roomId userIds tExp tCreated st)
      as (Hc & Hw & Hs).
    destruct (createRoom roomId userIds tExp tCreated st). cbn in *.
    split_and!; auto.
  - destruct (rooms st !! roomId) as [room |] eqn:Hl.
    + rewrite (join_room_live _ _ _ _ _ _ _ Hl), sendUserRooms_state.
      by apply Hk, joined_state_keeps.
    + rewrite (join_room_absent _ _ _ _ _ _ Hl). apply Hk, keeps_refl.
  - unfold join_by_user.
    destruct (existingRoom userId currentUserId st) eqn:He;
      [apply Hk, keeps_refl |].
    pose proof (createRoom_keeps (generateRoomId r1 r2 r3 r4)
                  [currentUserId; userId] tExp tCreated st)
      as (Hc & Hw & Hs).
    destruct (createRoom _ [currentUserId; userId] tExp tCreated st).
    cbn in *. split_and!; [done | done |].
    intros Hcol. apply Hs. apply eq_None_not_Some. intros Hlive.
    apply Hcol. by split.
  - destruct (rooms st !! roomId) as [room |] eqn:Hl.
    + destruct (decide (userId ∈ users room)) as [Hm | Hm].
      * rewrite (send_message_accepted _ _ _ _ _ _ _ _ _ _ _ Hl Hm).
        by apply Hk, sent_state_keeps.
      * rewrite (send_message_not_member _ _ _ _ _ _ _ _ _ _ _ Hl Hm).
        apply Hk, keeps_refl.
    + rewrite (send_message_absent _ _ _ _ _ _ _ _ _ _ Hl).
      apply Hk, keeps_refl.
  - unfold get_messages. destruct (rooms st !! roomId); apply Hk, keeps_refl.
  - unfold get_room_expiration.
    destruct (rooms st !! roomId); apply Hk, keeps_refl.
  - unfold timer_fires. destruct (timers st !! h) as [t |];
      [| apply Hk, keeps_refl].
    pose proof (deleteRoom_keeps (timer_room t) (clearTimeout h st))
      as (Hc & Hw & Hs).
    destruct (deleteRoom (timer_room t) (clearTimeout h st)). cbn in *.
    apply Hk. split_and!; [intros Hc0 | done | intros Hs0].
    + apply Hc. intros u rid. apply (Hc0 u rid).
    + apply Hs. intros u rid. apply (Hs0 u rid).
Qed.

(** No reachable state misses a reverse entry, and in every reachable
    state each room is stored under its id with a duplicate-free member
    list. *)
Lemma reachable_complete st :
  reachable st → index_complete st ∧ registry_wf st.
Proof.
  induction 1 as [| st i _ [IHc IHw]]; [| ].
  - destruct good_init as [Hinv Hwf]. split; [| done].
    by apply membership_inv_halves in Hinv as [? _].
  - destruct (step_keeps st i) as (Hc & Hw & _). auto.
Qed.

Lemma collision_free_reachable st : collision_free st → reachable st.
Proof. induction 1; by constructor. Qed.

(** As long as no generated id collides with a live room, the whole
    invariant holds. *)
Lemma collision_free_membership_inv st :
  collision_free st → membership_inv st.
Proof.
  intros Hcf. apply membership_inv_halves. split.
  - by apply reachable_complete, collision_free_reachable.
  - induction Hcf as [| st i _ IH Hc].
    + destruct good_init as [Hinv _].
      by apply membership_inv_halves in Hinv as [_ ?].
    + destruct (step_keeps st i) as (_ & _ & Hs). auto.
Qed.

End Invariant.

(** ** ['create_room'] on a live id *)

Section CreateExisting.

Import V2.

Implicit Types (st : State) (room : Room) (roomId userId sid : string).

Lemma create_room_live sid roomId (userIds : list string) tExp tCreated st :
  is_Some (rooms st !! roomId) →
  create_room sid roomId userIds tExp tCreated st
  = done_with st [(ToSocket sid, ev_error ERR_ALREADY_EXISTS)].
Proof. intros H. unfold create_room. by rewrite bool_decide_eq_true_2. Qed.

Lemma create_room_makes_live sid roomId (userIds : list string) tExp
    tCreated st :
  is_Some (rooms (res_state (create_room sid roomId userIds tExp tCreated st))
             !! roomId).
Proof.
  unfold create_room. case_bool_decide as Hlive; [done |].
  rewrite createRoom_eq. cbn. rewrite lookup_insert_eq. eauto.
Qed.

Lemma is_Some_insert_keep (m : gmap string Room) k k' v :
  is_Some (m !! k) → is_Some (<[k' := v]> m !! k).
Proof.
  intros H. apply lookup_insert_is_Some.
  destruct (decide (k' = k)); [by left | by right].
Qed.

(** Only a timer aimed at a room takes it out of the registry. *)
Lemma step_keeps_live roomId st i :
  is_Some (rooms st !! roomId) → ¬ deletes roomId st i →
  is_Some (rooms (res_state (step st i)) !! roomId).
Proof.
  intros Hlive Hnd. destruct i; cbn [step]; try done.
  - unfold register. by rewrite sendUserRooms_state.
  - unfold create_room. case_bool_decide; [done |].
    rewrite createRoom_eq. cbn. by apply is_Some_insert_keep.
  - destruct (rooms st !! roomId0) as [room |] eqn:Hl.
    + rewrite (join_room_live _ _ _ _ _ _ _ Hl), sendUserRooms_state.
      cbn. by apply is_Some_insert_keep.
    + by rewrite (join_room_absent _ _ _ _ _ _ Hl).
  - unfold join_by_user.
    destruct (existingRoom userId currentUserId st); [done |].
    rewrite createRoom_eq. cbn. by apply is_Some_insert_keep.
  - destruct (rooms st !! roomId0) as [room |] eqn:Hl.
    + destruct (decide (userId ∈ users room)) as [Hm | Hm].
      * rewrite (send_message_accepted _ _ _ _ _ _ _ _ _ _ _ Hl Hm).
        cbn. by apply is_Some_insert_keep.
      * by rewrite (send_message_not_member _ _ _ _ _ _ _ _ _ _ _ Hl Hm).
    + by rewrite (send_message_absent _ _ _ _ _ _ _ _ _ _ Hl).
  - unfold get_messages. by destruct (rooms st !! roomId0).
  - unfold get_room_expiration. by destruct (rooms st !! roomId0).
  - unfold timer_fires. cbn in Hnd.
    destruct (timers st !! h) as [t |] eqn:Ht; [| done].
    cbn in Hnd. assert (timer_room t ≠ roomId) as Hne by congruence.
    destruct (rooms (clearTimeout h st) !! timer_room t) as [room |] eqn:Hl.
    + rewrite (deleteRoom_live _ _ _ Hl). cbn.
      by rewrite lookup_delete_ne.
    + by rewrite (deleteRoom_absent _ _ Hl).
Qed.

Lemma run_keeps_live roomId (inputs : list Input) st :
  is_Some (rooms st !! roomId) → no_delete_of roomId st inputs →
  is_Some (rooms (run st inputs) !! roomId).
Proof.
  revert st. induction inputs as [| i inputs IH]; intros st Hlive Hnd.
  - done.
  - destruct Hnd as [Hi Hrest]. cbn. apply IH; [| done].
    by apply step_keeps_live.
Qed.

(** C2.  ['create_room'] on a live id emits the error
    "Комната с таким ID уже существует" to the caller and returns the
    state it was given: no room, member set, message log, registry or
    index entry changes.  After a ['create_room'] for [roomId], a second
    one for the same id fails in this way, whatever happened in
    between, as long as no timer deleted the room. *)
Theorem create_room_already_exists sid roomId (userIds : list string)
    tExp tCreated st :
  (is_Some (rooms st !! roomId) →
   create_room sid roomId userIds tExp tCreated st
   = done_with st [(ToSocket sid, ev_error ERR_ALREADY_EXISTS)])
  ∧ (∀ (inputs : list Input) sid' (userIds' : list string) tExp' tCreated',
       let st1 :=
         res_state (create_room sid roomId userIds tExp tCreated st) in
       let st2 := run st1 inputs in
       no_delete_of roomId st1 inputs →
       create_room sid' roomId userIds' tExp' tCreated' st2
       = done_with st2 [(ToSocket sid', ev_error ERR_ALREADY_EXISTS)]).
Proof.
  split; [apply create_room_live |].
  intros inputs sid' userIds' tExp' tCreated' st1 st2 Hnd.
  apply create_room_live, run_keeps_live; [| done].
  apply create_room_makes_live.
Qed.

End CreateExisting.

(** ** ['join_room'] twice *)

Section JoinTwice.

Import V2.

Implicit Types (st : State) (room : Room) (roomId userId sid : string).

(** C4.  On a live room, every ['join_room'] sets [expiresAt] to the
    [Date.now()] of the reset plus five minutes, cancels the room's
    timer and arms a fresh one aimed at the room, and leaves the member
    set as [users ∪ {userId}].  A second ['join_room'] with the same
    room and user leaves every member set and the whole membership
    index as the first did, and resets [expiresAt] again. *)
Theorem join_room_idempotent sid roomId userId tReset tEmit room st :
  rooms st !! roomId = Some room →
  let st1 := res_state (join_room sid roomId userId tReset tEmit st) in
  (∃ room1,
      rooms st1 !! roomId = Some room1
      ∧ expiresAt room1 = tReset + ROOM_EXPIRATION_MINUTES * 60 * 1000
      ∧ timer room1 = nextTimer st
      ∧ timers st1
        = <[timer room1 :=
              {| timer_room := roomId;
                 timer_delay := ROOM_EXPIRATION_MINUTES * 60 * 1000 |}]>
            (delete (timer room) (timers st))
      ∧ ∀ u, u ∈ users room1 ↔ u = userId ∨ u ∈ users room)
  ∧ ∀ sid' tReset' tEmit',
      let st2 :=
        res_state (join_room sid' roomId userId tReset' tEmit' st1) in
      (∀ rid, users <$> rooms st2 !! rid = users <$> rooms st1 !! rid)
      ∧ userRooms st2 = userRooms st1
      ∧ ∃ room1 room2,
          rooms st1 !! roomId = Some room1
          ∧ rooms st2 !! roomId = Some room2
          ∧ expiresAt room2
            = tReset' + ROOM_EXPIRATION_MINUTES * 60 * 1000
          ∧ timer room2 = nextTimer st1
          ∧ timers st2
            = <[timer room2 :=
                  {| timer_room := roomId;
                     timer_delay := ROOM_EXPIRATION_MINUTES * 60 * 1000 |}]>
                (delete (timer room1) (timers st1)).
Proof.
  intros Hl st1. subst st1.
  rewrite (join_room_live _ _ _ _ _ _ _ Hl), sendUserRooms_state.
  set (st1 := joined_state sid roomId userId tReset room st).
  assert (∃ room1, rooms st1 !! roomId = Some room1
                   ∧ users room1 = JSSet.add userId (users room)
                   ∧ expiresAt room1 = tReset + 300000
                   ∧ timer room1 = nextTimer st) as (room1 & Hl1 & Hu1 & He1 & Ht1).
  { eexists. split; [apply lookup_insert_eq | done]. }
  split.
  - exists room1. split_and!; try done.
    + by rewrite Ht1.
    + intros u. rewrite Hu1. apply elem_of_add.
  - intros sid' tReset' tEmit' st2. subst st2.
    rewrite (join_room_live _ _ _ _ _ _ _ Hl1), sendUserRooms_state.
    assert (userId ∈ users room1) as Hin.
    { rewrite Hu1. apply elem_of_add. by left. }
    unfold joined_state at 1 2 3 4. cbn [rooms userRooms timers].
    rewrite (add_present _ _ Hin), (proj2 (has_true _ _) Hin).
    split_and!.
    + intros rid. destruct (decide (rid = roomId)) as [-> | Hne].
      * by rewrite lookup_insert_eq, Hl1.
      * by rewrite lookup_insert_ne.
    + done.
    + eexists room1, _. split_and!; [done | apply lookup_insert_eq | done..].
Qed.

End JoinTwice.

(** ** ['send_message'] rejected *)

Section SendRejected.

Import V2.

(** C5.  ['send_message'] to an unknown room emits "Комната не найдена"
    to the caller, and from a user who is not in the member set of the
    room emits "Вы не участник комнаты" to the caller; in both cases the
    state returned is the state given: no log grows, registry and index
    are untouched. *)
Theorem send_message_rejected_unchanged sid roomId userId message tId rnd
    tStamp tReset tEmit (st : State) :
  (rooms st !! roomId = None →
   send_message sid roomId userId message tId rnd tStamp tReset tEmit st
   = done_with st [(ToSocket sid, ev_error ERR_NOT_FOUND)])
  ∧ (∀ room, rooms st !! roomId = Some room → userId ∉ users room →
     send_message sid roomId userId message tId rnd tStamp tReset tEmit st
     = done_with st [(ToSocket sid, ev_error ERR_NOT_MEMBER)]).
Proof.
  split; [apply send_message_absent |].
  intros room. apply send_message_not_member.
Qed.

End SendRejected.

(** ** The [room_expiration] values *)

Section Expiration.

Import V2.

Implicit Types (st : State) (room : Room) (roomId userId sid : string).

(** Case analysis on which emission of a short list [H] speaks of. *)
Local Ltac by_emitted H :=
  rewrite ?elem_of_app, ?elem_of_cons, ?elem_of_nil in H;
  intuition congruence.

Lemma ceil_div_max0 x : ceil_div (Z.max 0 x) 60000 = Z.max 0 (ceil_div x 60000).
Proof. unfold ceil_div. Z.div_mod_to_equations. lia. Qed.

Lemma minutesLeft_remaining e n :
  minutesLeft e n = ceil_div (remainingTTL e n) 60000 ∧ 0 ≤ minutesLeft e n.
Proof.
  unfold minutesLeft, remainingTTL. rewrite ceil_div_max0. lia.
Qed.

Lemma minutesLeft_after_reset tReset tEmit :
  tReset ≤ tEmit < tReset + 60000 →
  minutesLeft (tReset + 300000) tEmit = ROOM_EXPIRATION_MINUTES.
Proof.
  intros H. unfold minutesLeft, ceil_div, ROOM_EXPIRATION_MINUTES.
  Z.div_mod_to_equations. lia.
Qed.

(** The second revision, unconditionally.  ['join_room'] on a live room
    and an accepted ['send_message'] emit, as their second event, the
    ceiling in minutes of [remainingTTL] of the fresh [expiresAt], read
    at the handler's second [Date.now()]; ['get_room_expiration'] on a
    live room emits exactly that of the stored [expiresAt].  The value
    is never negative, and is 5 as long as less than a minute passes
    between the reset and the reading. *)
Lemma v2_room_expiration :
  (∀ sid roomId userId tReset tEmit room st,
      rooms st !! roomId = Some room →
      res_out (join_room sid roomId userId tReset tEmit st) !! 1%nat
      = Some (ToSocket sid,
              ev_room_expiration
                (ceil_div (remainingTTL (tReset + 300000) tEmit) 60000)))
  ∧ (∀ sid roomId userId message tId rnd tStamp tReset tEmit room st,
      rooms st !! roomId = Some room → userId ∈ users room →
      res_out (send_message sid roomId userId message tId rnd tStamp tReset
                 tEmit st) !! 1%nat
      = Some (ToChannel roomId,
              ev_room_expiration
                (ceil_div (remainingTTL (tReset + 300000) tEmit) 60000)))
  ∧ (∀ sid roomId tNow room st,
      rooms st !! roomId = Some room →
      get_room_expiration sid roomId tNow st
      = done_with st
          [(ToSocket sid,
            ev_room_expiration
              (ceil_div (remainingTTL (expiresAt room) tNow) 60000))])
  ∧ (∀ e n, 0 ≤ ceil_div (remainingTTL e n) 60000)
  ∧ (∀ tReset tEmit,
      tReset ≤ tEmit < tReset + 60000 →
      ceil_div (remainingTTL (tReset + 300000) tEmit) 60000
      = ROOM_EXPIRATION_MINUTES).
Proof.
  split_and!.
  - intros sid roomId userId tReset tEmit room st Hl.
    rewrite (join_room_live _ _ _ _ _ _ _ Hl), sendUserRooms_out.
    cbn. by destruct (minutesLeft_remaining (tReset + 300000) tEmit) as [-> _].
  - intros sid roomId userId message tId rnd tStamp tReset tEmit room st
      Hl Hm.
    rewrite (send_message_accepted _ _ _ _ _ _ _ _ _ _ _ Hl Hm). cbn.
    by destruct (minutesLeft_remaining (tReset + 300000) tEmit) as [-> _].
  - intros sid roomId tNow room st Hl. unfold get_room_expiration.
    rewrite Hl.
    by destruct (minutesLeft_remaining (expiresAt room) tNow) as [-> _].
  - intros e n. destruct (minutesLeft_remaining e n) as [<- H]. done.
  - intros tReset tEmit H.
    destruct (minutesLeft_remaining (tReset + 300000) tEmit) as [<- _].
    by apply minutesLeft_after_reset.
Qed.

End Expiration.

(** ** ['join_by_user'] *)

Section JoinByUser.

Import V2.

Implicit Types (st : State) (room : Room) (roomId userId sid : string).

Lemma fits_test userId currentUserId room :
  bool_decide (JSSet.size (users room) = 2%nat)
  && JSSet.has currentUserId (users room)
  && JSSet.has userId (users room) = true
  ↔ fits userId currentUserId room.
Proof.
  unfold fits. rewrite !andb_true_iff, bool_decide_eq_true, !has_true.
  tauto.
Qed.

Lemma findExisting_Some userId currentUserId st (l : list string) room :
  findExisting userId currentUserId st l = Some room →
  ∃ rid, rid ∈ l ∧ rooms st !! rid = Some room
         ∧ fits userId currentUserId room.
Proof.
  induction l as [| rid l IH]; simpl; [done |].
  destruct (rooms st !! rid) as [r |] eqn:Hl.
  - destruct (_ && _ && _) eqn:Ht.
    + intros [= <-]. apply fits_test in Ht. exists rid.
      split; [apply elem_of_cons; by left | done].
    + intros (rid' & ? & ?)%IH. exists rid'.
      split; [apply elem_of_cons; by right | done].
  - intros (rid' & ? & ?)%IH. exists rid'.
    split; [apply elem_of_cons; by right | done].
Qed.

Lemma findExisting_None userId currentUserId st (l : list string) :
  findExisting userId currentUserId st l = None →
  ∀ rid room, rid ∈ l → rooms st !! rid = Some room →
              ¬ fits userId currentUserId room.
Proof.
  induction l as [| rid0 l IH]; simpl; intros Hnone rid room Hin Hl Hfit.
  - by apply elem_of_nil in Hin.
  - apply elem_of_cons in Hin as [-> | Hin].
    + rewrite Hl in Hnone. apply fits_test in Hfit.
      by rewrite Hfit in Hnone.
    + destruct (rooms st !! rid0) as [r |].
      * destruct (_ && _ && _); [done |]. by eapply IH.
      * by eapply IH.
Qed.

Lemma findExisting_found userId currentUserId st (l : list string) rid room :
  rid ∈ l → rooms st !! rid = Some room →
  fits userId currentUserId room →
  is_Some (findExisting userId currentUserId st l).
Proof.
  intros Hin Hl Hfit.
  destruct (findExisting userId currentUserId st l) eqn:He; [eauto |].
  exfalso. by eapply findExisting_None.
Qed.

(** A duplicate-free pair holding two different users holds no one
    else. *)
Lemma pair_exactly (l : list string) a b :
  NoDup l → length l = 2%nat → a ∈ l → b ∈ l → a ≠ b →
  ∀ x, x ∈ l ↔ x = a ∨ x = b.
Proof.
  intros Hnd Hlen Ha Hb Hab x.
  destruct l as [| y [| z [| ? ?]]]; try done.
  apply NoDup_cons in Hnd as [Hyz _].
  rewrite list_elem_of_singleton in Hyz.
  rewrite !elem_of_cons, !elem_of_nil in Ha, Hb.
  rewrite !elem_of_cons, elem_of_nil.
  intuition congruence.
Qed.

Lemma fits_exactly_two userId currentUserId room :
  userId ≠ currentUserId → NoDup (users room) →
  fits userId currentUserId room →
  exactly_two room currentUserId userId.
Proof.
  intros Hne Hnd (Hsz & Hc & Hu). split; [done |].
  apply pair_exactly; done.
Qed.

Lemma exactly_two_fits userId currentUserId room :
  exactly_two room currentUserId userId → fits userId currentUserId room.
Proof.
  intros [Hsz Hiff]. split_and!; [done | | ]; apply Hiff; auto.
Qed.

Lemma existingRoom_Some userId currentUserId st room :
  existingRoom userId currentUserId st = Some room →
  ∃ rid, rooms st !! rid = Some room ∧ fits userId currentUserId room.
Proof.
  unfold existingRoom.
  destruct (userRooms st !! currentUserId) as [mine |]; [| done].
  destruct (userRooms st !! userId) as [theirs |]; [| done].
  intros (rid & _ & ? & ?)%findExisting_Some. eauto.
Qed.

(** With a complete index, the search misses no two-party room. *)
Lemma existingRoom_found userId currentUserId st rid room :
  index_complete st →
  rooms st !! rid = Some room → fits userId currentUserId room →
  is_Some (existingRoom userId currentUserId st).
Proof.
  intros Hinv Hl (Hsz & Hc & Hu).
  assert (∀ v, v ∈ users room →
               ∃ rs, userRooms st !! v = Some rs ∧ rid ∈ rs) as Hidx.
  { intros v Hv. apply idx_has_true. fold (is_indexed st v rid).
    apply Hinv. apply is_member_true. eauto. }
  destruct (Hidx _ Hc) as (mine & Hmine & Hin1).
  destruct (Hidx _ Hu) as (theirs & Htheirs & Hin2).
  unfold existingRoom. rewrite Hmine, Htheirs.
  eapply findExisting_found; [| exact Hl | done].
  apply list_elem_of_filter. split; [| done].
  apply Is_true_true, has_true. done.
Qed.

Lemma existingRoom_None_common userId currentUserId st mine theirs rid room :
  existingRoom userId currentUserId st = None →
  userRooms st !! currentUserId = Some mine →
  userRooms st !! userId = Some theirs →
  rid ∈ mine → rid ∈ theirs → rooms st !! rid = Some room →
  ¬ fits userId currentUserId room.
Proof.
  unfold existingRoom. intros Hnone Hm Ht Hin1 Hin2 Hl.
  rewrite Hm, Ht in Hnone.
  eapply findExisting_None; [exact Hnone | | exact Hl].
  apply list_elem_of_filter. split; [| done].
  apply Is_true_true, has_true. done.
Qed.

Lemma existingRoom_Some_common userId currentUserId st room :
  existingRoom userId currentUserId st = Some room →
  ∃ rid mine theirs,
    userRooms st !! currentUserId = Some mine
    ∧ userRooms st !! userId = Some theirs
    ∧ rid ∈ mine ∧ rid ∈ theirs
    ∧ rooms st !! rid = Some room ∧ fits userId currentUserId room.
Proof.
  unfold existingRoom.
  destruct (userRooms st !! currentUserId) as [mine |]; [| done].
  destruct (userRooms st !! userId) as [theirs |]; [| done].
  intros (rid & Hin & ? & ?)%findExisting_Some.
  apply list_elem_of_filter in Hin as [Hin1 Hin2].
  apply Is_true_true, has_true in Hin1.
  exists rid, mine, theirs. done.
Qed.

Lemma existingRoom_None_sym userId currentUserId st :
  existingRoom userId currentUserId st = None →
  existingRoom currentUserId userId st = None.
Proof.
  intros Hnone.
  destruct (existingRoom currentUserId userId st) as [room |] eqn:He;
    [| done].
  apply existingRoom_Some_common in He
    as (rid & mine & theirs & Hm & Ht & Hin1 & Hin2 & Hl & Hsz & Hc & Hu).
  exfalso.
  eapply (existingRoom_None_common userId currentUserId); try done.
Qed.

Lemma join_by_user_creates sid userId currentUserId r1 r2 r3 r4 tExp
    tCreated st :
  existingRoom userId currentUserId st = None →
  join_by_user sid userId currentUserId r1 r2 r3 r4 tExp tCreated st
  = done_with
      (createRoom (generateRoomId r1 r2 r3 r4) [currentUserId; userId]
                  tExp tCreated st).2
      [(ToSocket sid, ev_room_created (generateRoomId r1 r2 r3 r4) 2);
       (ToChannel userId,
        ev_room_created (generateRoomId r1 r2 r3 r4) 2)].
Proof.
  intros He. unfold join_by_user. rewrite He.
  by destruct (createRoom _ _ _ _ _).
Qed.

(** Once the pair has its room [g], the search returns it, whoever of
    the two asks. *)
Lemma existingRoom_after_create a b g tExp tCreated st :
  a ≠ b →
  existingRoom a b st = None →
  existingRoom a b (createRoom g [b; a] tExp tCreated st).2
  = Some {| id := g; users := [b; a]; messages := [];
            createdAt := tCreated; expiresAt := tExp + 300000;
            timer := nextTimer st |}
  ∧ existingRoom b a (createRoom g [b; a] tExp tCreated st).2
    = Some {| id := g; users := [b; a]; messages := [];
              createdAt := tCreated; expiresAt := tExp + 300000;
              timer := nextTimer st |}.
Proof.
  intros Hab Hnone. rewrite createRoom_eq. cbn zeta. cbn [snd foldl].
  rewrite of_list_pair by done.
  set (R := {| id := g; users := [b; a]; messages := [];
               createdAt := tCreated; expiresAt := tExp + 300000;
               timer := nextTimer st |}).
  set (st' := {| rooms := <[g := R]> (rooms st);
                 userRooms := index_add a g (index_add b g (userRooms st));
                 timers := _; nextTimer := _; sockets := _ |}).
  assert (userRooms st' !! b
          = Some (JSSet.add g (default JSSet.empty (userRooms st !! b))))
    as Hb.
  { cbn. rewrite index_add_lookup_ne by done. apply index_add_lookup. }
  assert (userRooms st' !! a
          = Some (JSSet.add g (default JSSet.empty (userRooms st !! a))))
    as Ha.
  { cbn. rewrite index_add_lookup. by rewrite index_add_lookup_ne. }
  assert (rooms st' !! g = Some R) as HR by apply lookup_insert_eq.
  assert (fits a b R ∧ fits b a R) as [HfitR HfitR'].
  { unfold fits. cbn. rewrite !elem_of_cons. tauto. }
  assert (∀ x y room, existingRoom x y st = None →
            (x = a ∧ y = b) ∨ (x = b ∧ y = a) →
            existingRoom x y st' = Some room → room = R) as Huniq.
  { intros x y room Hn Hxy He.
    apply existingRoom_Some_common in He
      as (rid & mine & theirs & Hm & Ht & Hin1 & Hin2 & Hl & Hfit).
    destruct (decide (rid = g)) as [-> | Hne]; [congruence |].
    exfalso. cbn in Hl. rewrite lookup_insert_ne in Hl by done.
    assert (∀ v rs, userRooms st' !! v
                    = Some (JSSet.add g
                              (default JSSet.empty (userRooms st !! v))) →
              userRooms st' !! v = Some rs → rid ∈ rs →
              ∃ rs0, userRooms st !! v = Some rs0 ∧ rid ∈ rs0) as Hold.
    { intros v rs Hv Hv' Hin. rewrite Hv in Hv'. injection Hv' as <-.
      apply elem_of_add in Hin as [? | Hin]; [done |].
      destruct (userRooms st !! v) as [rs0 |]; [eauto |].
      by apply elem_of_nil in Hin. }
    assert (∃ rs0, userRooms st !! y = Some rs0 ∧ rid ∈ rs0)
      as (mine0 & ? & ?).
    { destruct Hxy as [[_ ->] | [_ ->]]; eapply Hold; eauto. }
    assert (∃ rs0, userRooms st !! x = Some rs0 ∧ rid ∈ rs0)
      as (theirs0 & ? & ?).
    { destruct Hxy as [[-> _] | [-> _]]; eapply Hold; eauto. }
    by eapply (existingRoom_None_common x y st). }
  assert (∀ x y, (x = a ∧ y = b) ∨ (x = b ∧ y = a) →
            fits x y R → is_Some (existingRoom x y st')) as Hsome.
  { intros x y Hxy Hfit. unfold existingRoom.
    assert (∃ mine theirs, userRooms st' !! y = Some mine
              ∧ userRooms st' !! x = Some theirs
              ∧ g ∈ mine ∧ g ∈ theirs) as (mine & theirs & -> & -> & ? & ?).
    { destruct Hxy as [[-> ->] | [-> ->]]; rewrite Ha, Hb;
        do 2 eexists; split_and!; try done; apply elem_of_add; by left. }
    eapply findExisting_found; [| exact HR | done].
    apply list_elem_of_filter. split; [| done].
    by apply Is_true_true, has_true. }
  split.
  - destruct (Hsome a b) as [room He]; [by left | done |].
    rewrite He. f_equal. eapply (Huniq a b); [done | by left | done].
  - destruct (Hsome b a) as [room He]; [by right | done |].
    rewrite He. f_equal.
    eapply (Huniq b a); [by apply existingRoom_None_sym | by right | done].
Qed.

(** What ['join_by_user'] does to the registry, in every reachable
    state and for two different users: if some live room has exactly the
    two users as members, it answers the caller with [room_joined] for a
    live room with exactly those two members and changes nothing;
    otherwise it creates the room [generateRoomId()] with exactly the two
    users and addresses [room_created] with [userCount] 2 to the caller's
    socket and to the channel named by the other user's id, and
    ['join_by_user'] for the same pair right after, from either side,
    answers [room_joined] for that room and creates nothing.  Who is
    handed the second [room_created] is another matter, see
    [join_by_user_misses_other_user]. *)
Lemma join_by_user_two_party sid userId currentUserId r1 r2 r3 r4 tExp
    tCreated st :
  reachable st → userId ≠ currentUserId →
  let res :=
    join_by_user sid userId currentUserId r1 r2 r3 r4 tExp tCreated st in
  let g := generateRoomId r1 r2 r3 r4 in
  ((∃ rid room, rooms st !! rid = Some room
                ∧ exactly_two room currentUserId userId) →
   ∃ room', rooms st !! id room' = Some room'
            ∧ exactly_two room' currentUserId userId
            ∧ res = done_with st
                      [(ToSocket sid, ev_room_joined (id room') 2)])
  ∧ ((¬ ∃ rid room, rooms st !! rid = Some room
                    ∧ exactly_two room currentUserId userId) →
     res_out res = [(ToSocket sid, ev_room_created g 2);
                    (ToChannel userId, ev_room_created g 2)]
     ∧ (∃ room', rooms (res_state res) !! g = Some room'
                 ∧ id room' = g
                 ∧ exactly_two room' currentUserId userId
                 ∧ messages room' = [])
     ∧ ∀ sid' r1' r2' r3' r4' tExp' tCreated',
         join_by_user sid' userId currentUserId r1' r2' r3' r4' tExp'
                      tCreated' (res_state res)
         = done_with (res_state res) [(ToSocket sid', ev_room_joined g 2)]
         ∧ join_by_user sid' currentUserId userId r1' r2' r3' r4' tExp'
                        tCreated' (res_state res)
           = done_with (res_state res)
                       [(ToSocket sid', ev_room_joined g 2)]).
Proof.
  intros [Hinv Hwf]%reachable_complete Hne res g. split.
  - intros (rid & room & Hl & Htwo).
    destruct (existingRoom_found userId currentUserId st rid room)
      as [room' He]; [done | done | by apply exactly_two_fits |].
    apply existingRoom_Some in He as Hr. destruct Hr as (rid' & Hl' & Hfit).
    destruct (Hwf _ _ Hl') as [Hid Hnd].
    exists room'. split_and!.
    + by rewrite Hid.
    + by apply fits_exactly_two.
    + subst res. unfold join_by_user. rewrite He.
      destruct Hfit as [-> _]. done.
  - intros Hno.
    assert (existingRoom userId currentUserId st = None) as Hnone.
    { destruct (existingRoom userId currentUserId st) as [room |] eqn:He;
        [| done].
      exfalso. apply Hno.
      apply existingRoom_Some in He as (rid & Hl & Hfit).
      exists rid, room. split; [done |].
      apply fits_exactly_two; [done | by apply (Hwf rid) | done]. }
    subst res. rewrite (join_by_user_creates _ _ _ _ _ _ _ _ _ _ Hnone).
    cbn [res_out res_state done_with]. fold g.
    destruct (existingRoom_after_create userId currentUserId g tExp
                tCreated st Hne Hnone) as [He1 He2].
    split_and!.
    + done.
    + rewrite createRoom_eq. cbn zeta. cbn [snd rooms].
      eexists. split; [apply lookup_insert_eq |].
      cbn [id users messages]. split_and!; [done | | done].
      unfold exactly_two. cbn [users]. rewrite of_list_pair by done.
      split; [done |].
      intros u. rewrite !elem_of_cons, elem_of_nil. tauto.
    + intros sid' r1' r2' r3' r4' tExp' tCreated'.
      unfold join_by_user. rewrite He1, He2. done.
Qed.

End JoinByUser.

(** ** Who is told of a deletion *)

Section Deletion.

(** C8, as the code has it.  Deleting a live room emits one
    [room_deleted] carrying the room id, from [deleteRoom] called
    directly or from a timer firing.  In the first revision it is
    addressed to everyone ([io.emit]) and every connected socket is
    handed it.  In the second revision it is addressed to the channel
    named by the room id ([io.to(roomId).emit]), and the sockets handed
    it are exactly the connected ones that are in that channel. *)
Theorem room_deleted_recipients :
  (∀ (st : V1.State) roomId room,
      V1.rooms st !! roomId = Some room →
      (V1.deleteRoom roomId st).2 = [(ToAll, ev_room_deleted roomId)]
      ∧ V1.rooms (V1.deleteRoom roomId st).1 !! roomId = None
      ∧ (∀ h t, V1.timers st !! h = Some t → timer_room t = roomId →
                V1.res_out (V1.timer_fires h st)
                = [(ToAll, ev_room_deleted roomId)])
      ∧ ∀ sid, is_Some (V1.sockets st !! sid) →
               receives (V1.sockets st) sid ToAll = true)
  ∧ (∀ (st : V2.State) roomId room,
      V2.rooms st !! roomId = Some room →
      (V2.deleteRoom roomId st).2
      = [(ToChannel roomId, ev_room_deleted roomId)]
      ∧ V2.rooms (V2.deleteRoom roomId st).1 !! roomId = None
      ∧ (∀ h t, V2.timers st !! h = Some t → timer_room t = roomId →
                V2.res_out (V2.timer_fires h st)
                = [(ToChannel roomId, ev_room_deleted roomId)])
      ∧ ∀ sid, receives (V2.sockets st) sid (ToChannel roomId) = true
               ↔ ∃ sk, V2.sockets st !! sid = Some sk
                       ∧ roomId ∈ sock_channels sk).
Proof.
  split.
  - intros st roomId room Hl. split_and!.
    + unfold V1.deleteRoom. by rewrite Hl.
    + unfold V1.deleteRoom. rewrite Hl. cbn. apply lookup_delete_eq.
    + intros h t Ht <-. unfold V1.timer_fires. rewrite Ht.
      unfold V1.deleteRoom. cbn. by rewrite Hl.
    + intros sid [sk Hsk]. unfold receives. by rewrite Hsk.
  - intros st roomId room Hl. split_and!.
    + by rewrite (deleteRoom_live _ _ _ Hl).
    + rewrite (deleteRoom_live _ _ _ Hl). cbn. apply lookup_delete_eq.
    + intros h t Ht <-. unfold V2.timer_fires. rewrite Ht.
      assert (V2.rooms (V2.clearTimeout h st) !! timer_room t = Some room)
        as Hl' by done.
      by rewrite (deleteRoom_live _ _ _ Hl').
    + intros sid. unfold receives.
      destruct (V2.sockets st !! sid) as [sk |].
      * rewrite has_true. split; [eauto | by intros (? & [= <-] & ?)].
      * split; [done | by intros (? & ? & ?)].
Qed.

End Deletion.

(** ** Unknown room ids *)

Section UnknownRoom.

Import V2.

(** C9, as the code has it.  With an unknown room id, ['join_room'] and
    ['send_message'] emit the error "Комната не найдена" to the calling
    socket, which no other socket is handed, and change nothing;
    ['get_messages'] and ['get_room_expiration'] emit nothing and
    change nothing. *)
Theorem unknown_room_replies sid roomId userId message tId rnd tStamp
    tReset tEmit tNow (st : State) :
  rooms st !! roomId = None →
  join_room sid roomId userId tReset tEmit st
  = done_with st [(ToSocket sid, ev_error ERR_NOT_FOUND)]
  ∧ send_message sid roomId userId message tId rnd tStamp tReset tEmit st
    = done_with st [(ToSocket sid, ev_error ERR_NOT_FOUND)]
  ∧ get_messages sid roomId st = done_with st []
  ∧ get_room_expiration sid roomId tNow st = done_with st []
  ∧ ∀ sid', receives (sockets st) sid' (ToSocket sid) = true → sid' = sid.
Proof.
  intros Hl. split_and!.
  - by apply join_room_absent.
  - by apply send_message_absent.
  - unfold get_messages. by rewrite Hl.
  - unfold get_room_expiration. by rewrite Hl.
  - intros sid'. unfold receives. destruct (sockets st !! sid'); [| done].
    by intros ->%bool_decide_eq_true.
Qed.

End UnknownRoom.

(** ** Message ids *)

Section MessageIds.

Import V2.

Lemma has_dash_pretty_N_go (x : N) (s : string) :
  has_dash (pretty_N_go x s) = has_dash s.
Proof.
  revert s. induction (N.lt_wf_0 x) as [x _ IH]. intros s.
  destruct (decide (x = 0%N)) as [-> | Hx].
  - by rewrite pretty_N_go_0.
  - rewrite pretty_N_go_step by lia.
    rewrite IH by (apply N.div_lt; lia).
    cbn [has_dash]. unfold pretty_N_char. by repeat case_match.
Qed.

Lemma has_dash_pretty (t : Z) : 0 ≤ t → has_dash (pretty t) = false.
Proof.
  destruct t as [| p | p]; [done | | lia]. intros _.
  unfold pretty, pretty_Z, pretty, pretty_positive, pretty, pretty_N.
  case_decide; [done |]. by rewrite has_dash_pretty_N_go.
Qed.

(** Two strings without [-], each followed by [-] and a suffix: the
    first [-] tells where each ends. *)
Lemma split_at_dash (s1 s2 r1 r2 : string) :
  has_dash s1 = false → has_dash s2 = false →
  s1 +:+ String "-" r1 = s2 +:+ String "-" r2 → s1 = s2 ∧ r1 = r2.
Proof.
  revert s2. induction s1 as [| c s1 IH]; intros [| d s2]; cbn.
  - by intros _ _ [= ->].
  - intros _ Hd [= <- _]. by rewrite Ascii.eqb_refl in Hd.
  - intros Hc _ [= -> _]. by rewrite Ascii.eqb_refl in Hc.
  - intros [_ Hc]%orb_false_iff [_ Hd]%orb_false_iff [= -> He].
    by destruct (IH s2 Hc Hd He) as [-> ->].
Qed.

(** The id determines the millisecond and the random suffix it was built
    from: two ids are equal only if both coincide. *)
Lemma messageId_inj (t1 t2 : Z) (r1 r2 : string) :
  0 ≤ t1 → 0 ≤ t2 →
  messageId t1 r1 = messageId t2 r2 → t1 = t2 ∧ r1 = r2.
Proof.
  intros H1 H2 He. unfold messageId in He.
  apply split_at_dash in He as [Hp ->]; [| by apply has_dash_pretty..].
  by apply (inj pretty) in Hp.
Qed.

End MessageIds.

(** ** [sendUserRooms] and dangling index entries *)

Section UserRooms.

Import V2.


End UserRooms.

(** ** The first revision's [room_expiration] *)

Section FirstRevision.

(** In the first revision ['join_room'] on a live room emits the
    ceiling, in minutes, of the fresh timer's [_idleStart + _idleTimeout]
    minus [Date.now()], without a lower bound. *)
Lemma v1_join_room_expiration sid roomId userId tLoop tEmit room
    (st : V1.State) :
  V1.rooms st !! roomId = Some room →
  (ToSocket sid, ev_room_expiration (ceil_div (tLoop + 300000 - tEmit) 60000))
    ∈ V1.res_out (V1.join_room sid roomId userId tLoop tEmit st).
Proof.
  intros Hl. unfold V1.join_room. rewrite Hl.
  set (st1 := V1.with_sockets _ _).
  assert (∃ room1, V1.rooms st1 !! roomId = Some room1) as [room1 Hl1].
  { unfold st1. destruct (negb _); cbn; [| eauto].
    rewrite lookup_insert_eq. eauto. }
  unfold V1.resetRoomTimer. rewrite Hl1. cbn zeta.
  unfold V1.deref, V1.sendUserRooms. cbn [V1.setTimeout V1.rooms V1.with_rooms].
  rewrite lookup_insert_eq. cbn [default V1.timer V1.minutesLeft].
  destruct (V1.roomsData _ _); cbn;
    rewrite ?elem_of_app, !elem_of_cons; auto.
Qed.

End FirstRevision.

(** ** The properties on sample runs *)

Section Samples.

Import V2.

Lemma run_one_room_reachable : reachable run_one_room.
Proof.
  unfold run_one_room, run. cbn [foldl].
  repeat apply reachable_step. apply reachable_init.
Defined.

Lemma run_three_party_collision_free : collision_free run_three_party.
Proof.
  unfold run_three_party, run. cbn [foldl].
  repeat (apply collision_free_step; [| intros []]).
  apply collision_free_init.
Qed.

Lemma create_room_already_exists_witness :
  is_Some (rooms run_one_room !! "R1"%string)
  ∧ create_room "s2" "R1" ["u9"] 3000 3000 run_one_room
    = done_with run_one_room [(ToSocket "s2", ev_error ERR_ALREADY_EXISTS)]
  ∧ no_delete_of "R1"
      (res_state (create_room "s1" "R1" ["u1"] 10 10 init))
      [JoinRoom "s1" "R1" "u2" 20 20; TimerFires 5]
  ∧ create_room "s2" "R1" ["u9"] 30 30
      (run (res_state (create_room "s1" "R1" ["u1"] 10 10 init))
           [JoinRoom "s1" "R1" "u2" 20 20; TimerFires 5])
    = done_with
        (run (res_state (create_room "s1" "R1" ["u1"] 10 10 init))
             [JoinRoom "s1" "R1" "u2" 20 20; TimerFires 5])
        [(ToSocket "s2", ev_error ERR_ALREADY_EXISTS)].
Proof.
  assert (is_Some (rooms run_one_room !! "R1"%string)) as Hlive.
  { vm_compute. eauto. }
  assert (no_delete_of "R1"
            (res_state (create_room "s1" "R1" ["u1"] 10 10 init))
            [JoinRoom "s1" "R1" "u2" 20 20; TimerFires 5]) as Hnd.
  { cbn [no_delete_of]. split_and!; [intros [] | | done].
    vm_compute. discriminate. }
  split_and!; [done | | done |].
  - by apply (create_room_already_exists "s2" "R1" ["u9"] 3000 3000
                run_one_room).
  - by apply (create_room_already_exists "s1" "R1" ["u1"] 10 10 init).
Defined.

Lemma join_room_idempotent_witness :
  is_Some (rooms run_one_room !! "R1"%string)
  ∧ userRooms
      (res_state
         (join_room "s1" "R1" "u3" 4000 4001
            (res_state (join_room "s2" "R1" "u3" 3000 3001 run_one_room))))
    = userRooms
        (res_state (join_room "s2" "R1" "u3" 3000 3001 run_one_room)).
Proof.
  assert (∃ room, rooms run_one_room !! "R1"%string = Some room)
    as [room Hl].
  { vm_compute. eauto. }
  split; [by exists room |].
  pose proof (join_room_idempotent "s2" "R1" "u3" 3000 3001 room
                run_one_room Hl) as [_ Htwice].
  apply (Htwice "s1" 4000 4001).
Defined.

Lemma send_message_rejected_unchanged_witness :
  rooms run_one_room !! "ZZ99"%string = None
  ∧ send_message "s1" "ZZ99" "u1" "hi" 1 "abc" 1 1 1 run_one_room
    = done_with run_one_room [(ToSocket "s1", ev_error ERR_NOT_FOUND)]
  ∧ send_message "s1" "R1" "u7" "hi" 1 "abc" 1 1 1 run_one_room
    = done_with run_one_room [(ToSocket "s1", ev_error ERR_NOT_MEMBER)].
Proof.
  assert (rooms run_one_room !! "ZZ99"%string = None) as Hnone
    by (vm_compute; reflexivity).
  split_and!; [done | |].
  - by apply (send_message_rejected_unchanged "s1" "ZZ99" "u1" "hi" 1 "abc"
                1 1 1 run_one_room).
  - assert (∃ room, rooms run_one_room !! "R1"%string = Some room
                    ∧ users room = ["u1"; "u2"]) as (room & Hl & Hu).
    { vm_compute. eauto. }
    apply (send_message_rejected_unchanged "s1" "R1" "u7" "hi" 1 "abc"
             1 1 1 run_one_room) with room; [done |].
    rewrite Hu, !elem_of_cons, elem_of_nil.
    intros [H | [H | []]]; discriminate H.
Defined.

Lemma room_deleted_recipients_witness :
  is_Some (V1.rooms run_v1_room !! "R1"%string)
  ∧ (V1.deleteRoom "R1" run_v1_room).2 = [(ToAll, ev_room_deleted "R1")]
  ∧ is_Some (rooms run_one_room !! "R1"%string)
  ∧ (deleteRoom "R1" run_one_room).2
    = [(ToChannel "R1", ev_room_deleted "R1")].
Proof.
  assert (∃ room, V1.rooms run_v1_room !! "R1"%string = Some room)
    as [room1 Hl1] by (vm_compute; eauto).
  assert (∃ room, rooms run_one_room !! "R1"%string = Some room)
    as [room2 Hl2] by (vm_compute; eauto).
  destruct room_deleted_recipients as [Hv1 Hv2].
  split_and!; [by exists room1 | | by exists room2 |].
  - apply (Hv1 run_v1_room "R1"%string room1 Hl1).
  - apply (Hv2 run_one_room "R1"%string room2 Hl2).
Defined.

Lemma unknown_room_replies_witness :
  rooms run_one_room !! "ZZ99"%string = None
  ∧ join_room "s1" "ZZ99" "u1" 1 1 run_one_room
    = done_with run_one_room [(ToSocket "s1", ev_error ERR_NOT_FOUND)]
  ∧ get_messages "s1" "ZZ99" run_one_room = done_with run_one_room [].
Proof.
  assert (rooms run_one_room !! "ZZ99"%string = None) as Hnone
    by (vm_compute; reflexivity).
  split; [done |].
  pose proof (unknown_room_replies "s1" "ZZ99" "u1" "hi" 1 "abc" 1 1 1 1
                run_one_room Hnone) as (Hj & _ & Hg & _).
  done.
Defined.

(** C8, counterexample to the claim as stated.  In the second revision
    "R1" is live, sockets "s1" and "s2" are connected, and the timer of
    the room fires: the room is deleted, the only emission is
    [room_deleted] to the channel "R1", and the connected socket "s2" is
    not handed it. *)
Lemma room_deleted_not_broadcast :
  is_Some (rooms run_one_room !! "R1"%string)
  ∧ is_Some (sockets run_one_room !! "s2"%string)
  ∧ rooms (res_state (step run_one_room (TimerFires 1))) !! "R1"%string
    = None
  ∧ res_out (step run_one_room (TimerFires 1))
    = [(ToChannel "R1", ev_room_deleted "R1")]
  ∧ receives (sockets run_one_room) "s2" (ToChannel "R1") = false.
Proof. vm_compute. split_and!; eauto. Qed.

(** C9, counterexample to the claim as stated.  No room "ZZ99" is
    live; ['get_messages'] and ['get_room_expiration'] for it emit
    nothing at all. *)
Lemma unknown_room_read_silent :
  rooms run_one_room !! "ZZ99"%string = None
  ∧ res_out (step run_one_room (GetMessages "s1" "ZZ99")) = []
  ∧ res_out (step run_one_room (GetRoomExpiration "s1" "ZZ99" 5000)) = [].
Proof. vm_compute. done. Qed.

(** C1, the code at the failing input.  [run_three_party] satisfies the
    invariant.  One more input, a ['join_by_user'] whose generated id is
    the id of the live room "AA00", leads to a reachable state in which
    the index entry of "z" lists "AA00" although "z" is not a member of
    the room stored under "AA00": the invariant no longer holds.  When
    the timer of the replaced room then fires and "z" registers,
    [sendUserRooms] throws on the dangling entry. *)
Theorem membership_invariant_broken_by_collision :
  membership_inv run_three_party
  ∧ reachable run_collided
  ∧ is_indexed run_collided "z" "AA00" = true
  ∧ is_member run_collided "z" "AA00" = false
  ∧ ¬ membership_inv run_collided
  ∧ res_threw
      (step (res_state (step run_collided (TimerFires 1)))
            (Register "s1" "z"))
    = true.
Proof.
  split_and!.
  - apply collision_free_membership_inv, run_three_party_collision_free.
  - apply reachable_step, collision_free_reachable,
      run_three_party_collision_free.
  - vm_compute. done.
  - vm_compute. done.
  - intros Hinv. specialize (Hinv "z"%string "AA00"%string).
    vm_compute in Hinv. discriminate.
  - vm_compute. done.
Qed.

(** C3, the code at the failing input.  Room "AA00" is live with
    members "x", "y", "z" and one message; "u1" asks for a chat with
    "u2" and [generateRoomId()] returns "AA00".  No error is emitted:
    both get [room_created], and the room stored under "AA00" is now a
    new one with members "u1", "u2" and an empty log, while the index
    entry of "z" still lists "AA00". *)
Theorem join_by_user_collision_overwrites :
  generateRoomId 0 0 0 0 = "AA00"%string
  ∧ users <$> rooms run_three_party !! "AA00"%string
    = Some ["x"; "y"; "z"]%string
  ∧ length ∘ messages <$> rooms run_three_party !! "AA00"%string
    = Some 1%nat
  ∧ existingRoom "u2" "u1" run_three_party = None
  ∧ res_out (step run_three_party
               (JoinByUser "s1" "u2" "u1" 0 0 0 0 100 100))
    = [(ToSocket "s1", ev_room_created "AA00" 2);
       (ToChannel "u2", ev_room_created "AA00" 2)]
  ∧ users <$> rooms (res_state (step run_three_party
               (JoinByUser "s1" "u2" "u1" 0 0 0 0 100 100)))
              !! "AA00"%string
    = Some ["u1"; "u2"]%string
  ∧ messages <$> rooms (res_state (step run_three_party
               (JoinByUser "s1" "u2" "u1" 0 0 0 0 100 100)))
                 !! "AA00"%string
    = Some []
  ∧ is_indexed (res_state (step run_three_party
               (JoinByUser "s1" "u2" "u1" 0 0 0 0 100 100))) "z" "AA00"
    = true
  ∧ is_member (res_state (step run_three_party
               (JoinByUser "s1" "u2" "u1" 0 0 0 0 100 100))) "z" "AA00"
    = false.
Proof. vm_compute. done. Qed.

(** C10, the code at the failing input.  Two messages accepted in the
    same millisecond with the same random suffix are stored with the
    same id. *)
Theorem message_ids_collide :
  map msg_id ∘ messages <$> rooms run_same_instant !! "R1"%string
  = Some ["1700000000123-k3j2h1g9f"; "1700000000123-k3j2h1g9f"]%string
  ∧ map msg_message ∘ messages <$> rooms run_same_instant !! "R1"%string
    = Some ["first"; "second"]%string.
Proof. vm_compute. done. Qed.

(** C6, the code at the failing input.  The first revision computes
    the minutes from the timer object, [_idleStart + _idleTimeout], which
    Node counts from the start of the process, minus [Date.now()], which
    counts from 1970, and has no [Math.max(0, ...)].  Room "R1" is live;
    the timer is armed 1500 ms after the process started and [Date.now()]
    is 1700000000000: ['join_room'] emits [room_expiration] -28333328 to
    the caller and ['send_message'] emits the same to the channel of the
    room, a negative value right after a reset.  The second revision,
    which reads [expiresAt] and clamps, emits 5 on the same events. *)
Theorem first_revision_expiration_negative :
  is_Some (V1.rooms run_v1_room !! "R1"%string)
  ∧ V1.res_out (V1.join_room "s1" "R1" "u1" 1500 1700000000000 run_v1_room)
    = [(ToSocket "s1", ev_room_joined "R1" 2);
       (ToSocket "s1", ev_room_expiration (-28333328));
       (ToSocket "s1", ev_user_rooms [("R1"%string, 2%nat)])]
  ∧ V1b.res1_out
      (V1b.send_message "s1" "R1" "u1" "hi" 1700000000000 1500
         1700000000000 run_v1_room)
    = [(ToChannel "R1", V1b.ev1_new_message "R1" "u1" "hi");
       (ToChannel "R1", V1b.ev1_room_expiration (-28333328))]
  ∧ -28333328 < 0
  ∧ -28333328 ≠ ROOM_EXPIRATION_MINUTES
  ∧ res_out (join_room "s1" "R1" "u1" 1700000000000 1700000000000
               run_created)
    = [(ToSocket "s1", ev_room_joined "R1" 2);
       (ToSocket "s1", ev_room_expiration 5);
       (ToSocket "s1", ev_user_rooms [("R1"%string, 2%nat)])]
  ∧ (res_out (send_message "s1" "R1" "u1" "hi" 1700000000000 "abc"
                1700000000000 1700000000000 1700000000000 run_created)).*2
    = [ev_new_message "1700000000000-abc" "R1" "u1" "hi";
       ev_room_expiration 5].
Proof. vm_compute. split_and!; eauto; discriminate. Qed.

(** C7, the code at the failing input.  Sockets "s1" and "s2" are
    connected and registered as "u1" and "u2"; "u1" asks for a chat with
    "u2" and no two-party room exists.  The room "BC34" is created with
    members "u1" and "u2", and [room_created] is addressed to the socket
    "s1" and to the channel "u2".  The socket of "u2" is in no channel
    but the one of its own id, since ['register'] stores the user id and
    joins nothing: it is handed neither emission.  With the same id on
    both sides the room created has one member, [room_created] still
    says [userCount] 2, and a second ['join_by_user'] finds no room of
    size 2 and creates another one. *)
Theorem join_by_user_misses_other_user :
  sock_userId <$> sockets run_registered !! "s1"%string = Some (Some "u1"%string)
  ∧ sock_userId <$> sockets run_registered !! "s2"%string
    = Some (Some "u2"%string)
  ∧ sock_channels <$> sockets run_registered !! "s2"%string
    = Some ["s2"%string]
  ∧ existingRoom "u2" "u1" run_registered = None
  ∧ res_out (step run_registered (JoinByUser "s1" "u2" "u1" 1 2 3 4 100 100))
    = [(ToSocket "s1", ev_room_created "BC34" 2);
       (ToChannel "u2", ev_room_created "BC34" 2)]
  ∧ users <$> rooms (res_state (step run_registered
                       (JoinByUser "s1" "u2" "u1" 1 2 3 4 100 100)))
              !! "BC34"%string
    = Some ["u1"; "u2"]%string
  ∧ sockets (res_state (step run_registered
               (JoinByUser "s1" "u2" "u1" 1 2 3 4 100 100)))
    = sockets run_registered
  ∧ receives (sockets run_registered) "s1" (ToSocket "s1") = true
  ∧ receives (sockets run_registered) "s2" (ToSocket "s1") = false
  ∧ receives (sockets run_registered) "s2" (ToChannel "u2") = false
  ∧ res_out (step run_registered (JoinByUser "s1" "u1" "u1" 1 2 3 4 100 100))
    = [(ToSocket "s1", ev_room_created "BC34" 2);
       (ToChannel "u1", ev_room_created "BC34" 2)]
  ∧ users <$> rooms (res_state (step run_registered
                       (JoinByUser "s1" "u1" "u1" 1 2 3 4 100 100)))
              !! "BC34"%string
    = Some ["u1"%string]
  ∧ res_out
      (step (res_state (step run_registered
                          (JoinByUser "s1" "u1" "u1" 1 2 3 4 100 100)))
            (JoinByUser "s1" "u1" "u1" 0 0 0 0 200 200))
    = [(ToSocket "s1", ev_room_created "AA00" 2);
       (ToChannel "u1", ev_room_created "AA00" 2)].
Proof. vm_compute. split_and!; reflexivity. Qed.

End Samples.


(** * Further properties of the second revision *)

(** ** The index and the registry along a run *)

Section IndexAlongRuns.

Import V2.

Implicit Types (st : State) (room : Room) (roomId userId sid : string).

Lemma membership_index_agree_aux st :
  collision_free st →
  ∀ u rid,
    (∃ room, rooms st !! rid = Some room ∧ u ∈ users room)
    ↔ (∃ rs, userRooms st !! u = Some rs ∧ rid ∈ rs).
Proof.
  intros Hcf u rid. rewrite <- is_member_true, <- idx_has_true.
  fold (is_indexed st u rid).
  by rewrite (collision_free_membership_inv st Hcf u rid).
Qed.

(** X1.  In every state reached without a generated id hitting a live
    room, a user is in the member set of a live room exactly when the
    room id is in the user's entry of [userRooms]. *)
Theorem membership_index_agree st :
  collision_free st →
  ∀ u rid,
    (∃ room, rooms st !! rid = Some room ∧ u ∈ users room)
    ↔ (∃ rs, userRooms st !! u = Some rs ∧ rid ∈ rs).
Proof. apply membership_index_agree_aux. Qed.

(** X2.  In every reachable state, collisions included, every member of
    a live room has the room in its index entry, every room is stored
    under its own id, and no member list repeats a user. *)
Theorem members_always_indexed st :
  reachable st →
  ∀ rid room, rooms st !! rid = Some room →
    id room = rid
    ∧ NoDup (users room)
    ∧ ∀ u, u ∈ users room →
           ∃ rs, userRooms st !! u = Some rs ∧ rid ∈ rs.
Proof.
  intros [Hc Hwf]%reachable_complete rid room Hl.
  destruct (Hwf rid room Hl) as [Hid Hnd]. split_and!; [done | done |].
  intros u Hu. apply idx_has_true. apply (Hc u rid).
  apply is_member_true. eauto.
Qed.

Lemma index_add_wf u rid (ur : gmap string JSSet.t) :
  index_wf ur → index_wf (index_add u rid ur).
Proof.
  intros Hwf v rs. destruct (decide (v = u)) as [-> | Hne].
  - rewrite index_add_lookup. intros [= <-]. split.
    + intros Hnil. assert (rid ∈ JSSet.add rid
                                   (default JSSet.empty (ur !! u))) as Hin.
      { apply elem_of_add. by left. }
      rewrite Hnil in Hin. by apply elem_of_nil in Hin.
    + apply NoDup_add. destruct (ur !! u) as [rs0 |] eqn:Hu; cbn.
      * by apply (Hwf u rs0).
      * apply NoDup_nil_2.
  - rewrite index_add_lookup_ne by done. apply Hwf.
Qed.

Lemma index_remove_wf u rid (ur : gmap string JSSet.t) :
  index_wf ur → index_wf (index_remove u rid ur).
Proof.
  intros Hwf v rs. unfold index_remove.
  destruct (ur !! u) as [rs0 |] eqn:Hu; [| apply Hwf].
  case_bool_decide as Hsz.
  - destruct (decide (v = u)) as [-> | Hne].
    + by rewrite lookup_delete_eq.
    + rewrite lookup_delete_ne by done. apply Hwf.
  - destruct (decide (v = u)) as [-> | Hne].
    + rewrite lookup_insert_eq. intros [= <-]. split.
      * intros Hnil. apply Hsz. by rewrite Hnil.
      * apply NoDup_filter. by apply (Hwf u rs0).
    + rewrite lookup_insert_ne by done. apply Hwf.
Qed.

(** What the handlers do to [userRooms]: nothing, or [index_add]s, or
    [index_remove]s. *)
Lemma step_userRooms (P : gmap string JSSet.t → Prop) st i :
  (∀ u rid ur, P ur → P (index_add u rid ur)) →
  (∀ u rid ur, P ur → P (index_remove u rid ur)) →
  P (userRooms st) → P (userRooms (res_state (step st i))).
Proof.
  intros Hadd Hrem HP.
  assert (∀ rid (l : list string) ur,
            P ur → P (foldl (λ ur u, index_add u rid ur) ur l)) as Hadds.
  { intros rid l. induction l as [| u l IH]; intros ur Hur; cbn; [done |].
    by apply IH, Hadd. }
  assert (∀ rid (l : list string) ur,
            P ur → P (foldl (λ ur u, index_remove u rid ur) ur l)) as Hrems.
  { intros rid l. induction l as [| u l IH]; intros ur Hur; cbn; [done |].
    by apply IH, Hrem. }
  destruct i; cbn [step]; try done.
  - unfold register. by rewrite sendUserRooms_state.
  - unfold create_room. case_bool_decide; [done |].
    rewrite createRoom_eq. cbn. by apply Hadds.
  - destruct (rooms st !! roomId) as [room |] eqn:Hl.
    + rewrite (join_room_live _ _ _ _ _ _ _ Hl), sendUserRooms_state.
      cbn. destruct (JSSet.has userId (users room)); [done | by apply Hadd].
    + by rewrite (join_room_absent _ _ _ _ _ _ Hl).
  - unfold join_by_user.
    destruct (existingRoom userId currentUserId st); [done |].
    rewrite createRoom_eq. cbn. by apply Hadd, Hadd.
  - destruct (rooms st !! roomId) as [room |] eqn:Hl.
    + destruct (decide (userId ∈ users room)) as [Hm | Hm].
      * by rewrite (send_message_accepted _ _ _ _ _ _ _ _ _ _ _ Hl Hm).
      * by rewrite (send_message_not_member _ _ _ _ _ _ _ _ _ _ _ Hl Hm).
    + by rewrite (send_message_absent _ _ _ _ _ _ _ _ _ _ Hl).
  - unfold get_messages. by destruct (rooms st !! roomId).
  - unfold get_room_expiration. by destruct (rooms st !! roomId).
  - unfold timer_fires. destruct (timers st !! h) as [t |]; [| done].
    destruct (rooms (clearTimeout h st) !! timer_room t) as [room |] eqn:Hl.
    + rewrite (deleteRoom_live _ _ _ Hl). cbn. by apply Hrems.
    + by rewrite (deleteRoom_absent _ _ Hl).
Qed.

Lemma reachable_index_wf st : reachable st → index_wf (userRooms st).
Proof.
  induction 1 as [| st i _ IH].
  - intros u rs. cbn. by rewrite lookup_empty.
  - apply (step_userRooms index_wf);
      [apply index_add_wf | apply index_remove_wf | exact IH].
Qed.

(** X3.  In every reachable state no user is kept in [userRooms] with an
    empty set of rooms (the entry is pruned with its last room) and no
    entry lists a room twice. *)
Theorem index_entries_nonempty st :
  reachable st →
  ∀ u rs, userRooms st !! u = Some rs → rs ≠ [] ∧ NoDup rs.
Proof. apply reachable_index_wf. Qed.

End IndexAlongRuns.

(** ** [sendUserRooms] *)

Section UserRoomsReply.

Import V2.

Implicit Types (st : State) (room : Room) (roomId userId sid : string).



Lemma Forall2_Some_elem {A B} (f : A → option B) (l : list A) (k : list B) :
  Forall2 (λ x y, f x = Some y) l k →
  ∀ y, y ∈ k ↔ ∃ x, x ∈ l ∧ f x = Some y.
Proof.
  induction 1 as [| x y l k Hxy _ IH]; intros z.
  - rewrite elem_of_nil. split; [done |]. intros (x & Hx & _).
    by apply elem_of_nil in Hx.
  - rewrite elem_of_cons, IH. split.
    + intros [-> | (x' & ? & ?)].
      * exists x. split; [apply elem_of_cons; by left | done].
      * exists x'. split; [apply elem_of_cons; by right | done].
    + intros (x' & [-> | Hx']%elem_of_cons & Hf).
      * left. congruence.
      * right. eauto.
Qed.

(** With the invariant, the list [sendUserRooms] builds holds exactly
    the live rooms of the user, with their sizes, in index order. *)
Lemma roomsData_lists userId st :
  membership_inv st →
  ∃ d,
    roomsData userId st = Some d
    ∧ d.*1 = default [] (userRooms st !! userId)
    ∧ ∀ rid n,
        (rid, n) ∈ d
        ↔ ∃ room, rooms st !! rid = Some room
                  ∧ userId ∈ users room ∧ n = length (users room).
Proof.
  intros Hinv.
  assert (∀ u rid,
            (∃ room, rooms st !! rid = Some room ∧ u ∈ users room)
            ↔ (∃ rs, userRooms st !! u = Some rs ∧ rid ∈ rs)) as Hagree.
  { intros u rid. rewrite <- is_member_true, <- idx_has_true.
    fold (is_indexed st u rid). by rewrite (Hinv u rid). }
  unfold roomsData.
  destruct (userRooms st !! userId) as [rs |] eqn:Hu.
  - destruct (mapM _ rs) as [d |] eqn:Hd.
    + exists d. split; [done |]. apply mapM_Some in Hd. split.
      * cbn. clear Hu Hagree. induction Hd as [| rid y rs d Hy _ IH]; [done |].
        cbn. rewrite IH. f_equal.
        destruct (rooms st !! rid); [| done]. by injection Hy as <-.
      * intros rid n. rewrite (Forall2_Some_elem _ _ _ Hd). split.
        -- intros (rid' & Hin & Hf).
           destruct (rooms st !! rid') as [room |] eqn:Hl; [| done].
           cbn in Hf. injection Hf as -> <-.
           exists room. split_and!; [done | | done].
           destruct (proj2 (Hagree userId rid)) as (room' & Hl' & Hin');
             [eauto | congruence].
        -- intros (room & Hl & Hin & ->). exists rid. split.
           ++ destruct (proj1 (Hagree userId rid)) as (rs' & Hu' & Hin');
                [eauto | congruence].
           ++ by rewrite Hl.
    + exfalso. apply mapM_None in Hd. apply Exists_exists in Hd
        as (rid & Hin & Hnone).
      destruct (proj2 (Hagree userId rid)) as (room & Hl & _); [eauto |].
      by rewrite Hl in Hnone.
  - exists []. split; [done |]. split; [done |]. intros rid n.
    rewrite elem_of_nil. split; [done |]. intros (room & Hl & Hin & _).
    destruct (proj1 (Hagree userId rid)) as (rs' & Hu' & _); [eauto |].
    congruence.
Qed.

(** X5.  ['register'] stores the user id on the socket, changes nothing
    else, and, in a state reached without collision, answers the caller
    with [user_rooms] listing exactly the live rooms the user is a member
    of, each with the size of its member set, in the order of the user's
    index entry; a user in no room gets the empty list. *)
Theorem register_lists_rooms sid userId st :
  collision_free st →
  ∃ d,
    register sid userId st
    = done_with (with_sockets (socket_set_userId sid userId) st)
                [(ToSocket sid, ev_user_rooms d)]
    ∧ d.*1 = default [] (userRooms st !! userId)
    ∧ ∀ rid n,
        (rid, n) ∈ d
        ↔ ∃ room, rooms st !! rid = Some room
                  ∧ userId ∈ users room ∧ n = length (users room).
Proof.
  intros Hcf.
  destruct (roomsData_lists userId st (collision_free_membership_inv st Hcf))
    as (d & Hd & Hfst & Hmem).
  exists d. split; [| done].
  unfold register, sendUserRooms.
  assert (roomsData userId (with_sockets (socket_set_userId sid userId) st)
          = roomsData userId st) as -> by done.
  by rewrite Hd.
Qed.

End UserRoomsReply.

(** ** [generateRoomId] and the countdown in minutes *)

Section IdsAndMinutes.

Import V2.

Lemma charAt_letters (r : nat) :
  (r < 26)%nat → charAt r letters = String (ascii_of_nat (65 + r)) "".
Proof.
  intros Hr. do 26 (destruct r as [| r]; [reflexivity |]). lia.
Qed.

Lemma pretty_digit (r : nat) :
  (r < 10)%nat → pretty r = String (ascii_of_nat (48 + r)) "".
Proof.
  intros Hr. do 10 (destruct r as [| r]; [reflexivity |]). lia.
Qed.

Lemma ascii_of_nat_inj (n m : nat) :
  (n < 256)%nat → (m < 256)%nat → ascii_of_nat n = ascii_of_nat m → n = m.
Proof.
  intros Hn Hm He. apply (f_equal nat_of_ascii) in He.
  by rewrite !nat_ascii_embedding in He.
Qed.

Lemma generateRoomId_chars (r1 r2 r3 r4 : nat) :
  (r1 < 26)%nat → (r2 < 26)%nat → (r3 < 10)%nat → (r4 < 10)%nat →
  generateRoomId r1 r2 r3 r4
  = String (ascii_of_nat (65 + r1))
      (String (ascii_of_nat (65 + r2))
         (String (ascii_of_nat (48 + r3))
            (String (ascii_of_nat (48 + r4)) ""))).
Proof.
  intros H1 H2 H3 H4. unfold generateRoomId.
  by rewrite !charAt_letters, !pretty_digit.
Qed.

(** X6.  With its four random draws in range (letters 0..25, digits
    0..9) [generateRoomId] returns four characters, the two letters of
    [A-Z] picked by the first two draws followed by the two digits of
    the last two, and different draws give different ids. *)
Theorem generateRoomId_shape (r1 r2 r3 r4 : nat) :
  (r1 < 26)%nat → (r2 < 26)%nat → (r3 < 10)%nat → (r4 < 10)%nat →
  String.length (generateRoomId r1 r2 r3 r4) = 4%nat
  ∧ generateRoomId r1 r2 r3 r4
    = String (ascii_of_nat (65 + r1))
        (String (ascii_of_nat (65 + r2))
           (String (ascii_of_nat (48 + r3))
              (String (ascii_of_nat (48 + r4)) "")))
  ∧ ∀ q1 q2 q3 q4 : nat,
      (q1 < 26)%nat → (q2 < 26)%nat → (q3 < 10)%nat → (q4 < 10)%nat →
      generateRoomId q1 q2 q3 q4 = generateRoomId r1 r2 r3 r4 →
      q1 = r1 ∧ q2 = r2 ∧ q3 = r3 ∧ q4 = r4.
Proof.
  intros H1 H2 H3 H4. rewrite generateRoomId_chars by done.
  split_and!; [done | done |].
  intros q1 q2 q3 q4 G1 G2 G3 G4. rewrite generateRoomId_chars by done.
  intros [= E1 E2 E3 E4].
  apply ascii_of_nat_inj in E1, E2, E3, E4; lia.
Qed.

(** X7.  The minutes ['join_room'], ['send_message'] and
    ['get_room_expiration'] report never go up while time passes without
    a reset, are 0 exactly from [expiresAt] on, are [k] while between
    [k-1] and [k] minutes remain, and are at most 5 after a reset. *)
Theorem minutesLeft_countdown (expiresAt : Z) :
  (∀ n1 n2, n1 ≤ n2 → minutesLeft expiresAt n2 ≤ minutesLeft expiresAt n1)
  ∧ (∀ n, minutesLeft expiresAt n = 0 ↔ expiresAt ≤ n)
  ∧ (∀ n k, 0 < k →
       (k - 1) * 60000 < expiresAt - n ≤ k * 60000 →
       minutesLeft expiresAt n = k)
  ∧ (∀ tReset n, expiresAt = tReset + ROOM_EXPIRATION_MINUTES * 60 * 1000 →
       tReset ≤ n → minutesLeft expiresAt n ≤ ROOM_EXPIRATION_MINUTES).
Proof.
  unfold minutesLeft, ceil_div, ROOM_EXPIRATION_MINUTES. split_and!.
  - intros n1 n2 H. Z.div_mod_to_equations. lia.
  - intros n. Z.div_mod_to_equations. lia.
  - intros n k Hk H. Z.div_mod_to_equations. nia.
  - intros tReset n -> H. Z.div_mod_to_equations. lia.
Qed.

End IdsAndMinutes.


(** ** [index_add] and [index_remove] undo each other *)

Section IndexRoundTrip.

Implicit Types (ur : gmap string JSSet.t) (u rid : string).

Lemma index_remove_lookup ur u rid :
  index_remove u rid ur !! u = prune_entry rid (ur !! u).
Proof.
  unfold index_remove, prune_entry. destruct (ur !! u) as [rs |] eqn:Hu; cbn.
  - case_bool_decide; [apply lookup_delete_eq | apply lookup_insert_eq].
  - done.
Qed.

Lemma index_remove_lookup_ne ur u rid v :
  v ≠ u → index_remove u rid ur !! v = ur !! v.
Proof.
  intros Hne. unfold index_remove. destruct (ur !! u) as [rs |]; [| done].
  case_bool_decide; [by rewrite lookup_delete_ne | by rewrite lookup_insert_ne].
Qed.

Lemma remove_idem rid (rs : JSSet.t) :
  JSSet.remove rid (JSSet.remove rid rs) = JSSet.remove rid rs.
Proof.
  unfold JSSet.remove. induction rs as [| x rs IH]; [done |].
  destruct (decide (x ≠ rid)) as [Hx | Hx].
  - rewrite (filter_cons_True _ x rs Hx), (filter_cons_True _ x _ Hx).
    by rewrite IH.
  - by rewrite (filter_cons_False _ x rs Hx).
Qed.

Lemma remove_absent rid (rs : JSSet.t) : rid ∉ rs → JSSet.remove rid rs = rs.
Proof.
  unfold JSSet.remove. induction rs as [| x rs IH]; [done |].
  intros Hin. apply not_elem_of_cons in Hin as [Hne Hin].
  rewrite filter_cons_True by done. by rewrite IH.
Qed.

Lemma remove_add_absent rid (rs : JSSet.t) :
  rid ∉ rs → JSSet.remove rid (JSSet.add rid rs) = rs.
Proof.
  intros Hin. unfold JSSet.add. rewrite (proj2 (has_false _ _) Hin).
  unfold JSSet.remove. rewrite filter_app.
  fold (JSSet.remove rid rs). rewrite remove_absent by done.
  rewrite filter_cons_False by (intros H; by apply H).
  by rewrite app_nil_r.
Qed.

Lemma prune_entry_idem rid (entry : option JSSet.t) :
  prune_entry rid (prune_entry rid entry) = prune_entry rid entry.
Proof.
  unfold prune_entry. destruct entry as [rs |]; cbn; [| done].
  case_bool_decide as H1; cbn; [done |]. rewrite remove_idem.
  by rewrite bool_decide_eq_false_2.
Qed.

Lemma index_add_all_lookup (l : list string) rid ur u :
  foldl (λ ur v, index_add v rid ur) ur l !! u
  = if bool_decide (u ∈ l)
    then Some (JSSet.add rid (default JSSet.empty (ur !! u)))
    else ur !! u.
Proof.
  revert ur. induction l as [| a l IH]; intros ur; cbn [foldl].
  - by rewrite bool_decide_eq_false_2 by apply not_elem_of_nil.
  - rewrite IH. destruct (decide (u = a)) as [-> | Hne].
    + rewrite (bool_decide_eq_true_2 (a ∈ a :: l))
        by (apply elem_of_cons; by left).
      rewrite index_add_lookup. cbn. rewrite add_idem.
      by case_bool_decide.
    + rewrite index_add_lookup_ne by done.
      case_bool_decide as H1; case_bool_decide as H2; try done.
      * exfalso. apply H2, elem_of_cons. by right.
      * exfalso. apply elem_of_cons in H2 as [? | ?]; done.
Qed.

Lemma index_remove_all_lookup (l : list string) rid ur u :
  foldl (λ ur v, index_remove v rid ur) ur l !! u
  = if bool_decide (u ∈ l) then prune_entry rid (ur !! u) else ur !! u.
Proof.
  revert ur. induction l as [| a l IH]; intros ur; cbn [foldl].
  - by rewrite bool_decide_eq_false_2 by apply not_elem_of_nil.
  - rewrite IH. destruct (decide (u = a)) as [-> | Hne].
    + rewrite (bool_decide_eq_true_2 (a ∈ a :: l))
        by (apply elem_of_cons; by left).
      rewrite index_remove_lookup, prune_entry_idem. by case_bool_decide.
    + rewrite index_remove_lookup_ne by done.
      case_bool_decide as H1; case_bool_decide as H2; try done.
      * exfalso. apply H2, elem_of_cons. by right.
      * exfalso. apply elem_of_cons in H2 as [? | ?]; done.
Qed.

(** Adding a room for some users and removing it for the same users
    gives the index back. *)
Lemma index_add_remove_all (l k : list string) rid ur :
  index_wf ur → (∀ u, idx_has ur u rid = false) →
  (∀ u, u ∈ k ↔ u ∈ l) →
  foldl (λ ur v, index_remove v rid ur)
        (foldl (λ ur v, index_add v rid ur) ur l) k
  = ur.
Proof.
  intros Hwf Hfresh Hkl. apply map_eq. intros u.
  rewrite index_remove_all_lookup, index_add_all_lookup.
  assert (rid ∉ default JSSet.empty (ur !! u)) as Hnot.
  { specialize (Hfresh u). unfold idx_has in Hfresh.
    destruct (ur !! u) as [rs |]; cbn in *.
    - by apply has_false.
    - apply not_elem_of_nil. }
  case_bool_decide as Hk; case_bool_decide as Hl; try done.
  - unfold prune_entry. cbn. rewrite remove_add_absent by done.
    destruct (ur !! u) as [rs |] eqn:Hu; cbn.
    + destruct (Hwf u rs Hu) as [Hne _].
      rewrite bool_decide_eq_false_2; [done |].
      intros Hz. by apply length_zero_iff_nil in Hz.
    + done.
  - exfalso. by apply Hl, Hkl.
  - exfalso. by apply Hk, Hkl.
Qed.

End IndexRoundTrip.

(** ** One pending timer per live room *)

Section Timers.

Import V2.

Implicit Types (st : State) (room : Room) (roomId userId sid : string).

Lemma timers_wf_init : timers_wf init.
Proof.
  split.
  - intros h t. cbn. by rewrite lookup_empty.
  - intros rid room. cbn. by rewrite lookup_empty.
Qed.

Lemma timers_wf_same st st' :
  rooms st' = rooms st → timers st' = timers st →
  nextTimer st' = nextTimer st → timers_wf st → timers_wf st'.
Proof.
  intros Hr Ht Hn [P1 P2]. split.
  - intros h t. rewrite Ht, Hn, Hr. apply P1.
  - intros rid room. rewrite Hr, Ht. apply P2.
Qed.

(** A room that is not live gets a fresh timer. *)
Lemma timers_wf_fresh st st' roomId room' :
  rooms st !! roomId = None →
  rooms st' = <[roomId := room']> (rooms st) →
  timer room' = nextTimer st →
  timers st'
  = <[nextTimer st := {| timer_room := roomId;
                         timer_delay := ROOM_EXPIRATION_MINUTES * 60 * 1000 |}]>
      (timers st) →
  nextTimer st' = S (nextTimer st) →
  timers_wf st → timers_wf st'.
Proof.
  intros Hfresh Hr Htm Ht Hn [P1 P2]. split.
  - intros h t. rewrite Ht, Hn, Hr.
    destruct (decide (h = nextTimer st)) as [-> | Hne].
    + rewrite lookup_insert_eq. intros [= <-]. cbn.
      split_and!; [lia | done |]. exists room'.
      by rewrite lookup_insert_eq.
    + rewrite lookup_insert_ne by done. intros Hh.
      destruct (P1 h t Hh) as (Hlt & Hd & room & Hl & Htr).
      split_and!; [lia | done |]. exists room. split; [| done].
      rewrite lookup_insert_ne; [done |]. intros He. congruence.
  - intros rid room. rewrite Hr, Ht.
    destruct (decide (rid = roomId)) as [-> | Hne].
    + rewrite lookup_insert_eq. intros [= <-]. rewrite Htm.
      rewrite lookup_insert_eq. eauto.
    + rewrite lookup_insert_ne by done. intros Hl.
      destruct (P2 rid room Hl) as (t & Hh & Htr). exists t.
      split; [| done]. rewrite lookup_insert_ne; [done |].
      destruct (P1 _ _ Hh) as (Hlt & _). lia.
Qed.

(** The timer of a live room is cancelled and a fresh one armed. *)
Lemma timers_wf_rearm st st' roomId room room' :
  rooms st !! roomId = Some room →
  rooms st' = <[roomId := room']> (rooms st) →
  timer room' = nextTimer st →
  timers st'
  = <[nextTimer st := {| timer_room := roomId;
                         timer_delay := ROOM_EXPIRATION_MINUTES * 60 * 1000 |}]>
      (delete (timer room) (timers st)) →
  nextTimer st' = S (nextTimer st) →
  timers_wf st → timers_wf st'.
Proof.
  intros Hlive Hr Htm Ht Hn [P1 P2].
  destruct (P2 roomId room Hlive) as (t0 & Ht0 & Htr0). split.
  - intros h t. rewrite Ht, Hn, Hr.
    destruct (decide (h = nextTimer st)) as [-> | Hne].
    + rewrite lookup_insert_eq. intros [= <-]. cbn.
      split_and!; [lia | done |]. exists room'.
      by rewrite lookup_insert_eq.
    + rewrite lookup_insert_ne by done.
      destruct (decide (h = timer room)) as [-> | Hne0].
      * by rewrite lookup_delete_eq.
      * rewrite lookup_delete_ne by done. intros Hh.
        destruct (P1 h t Hh) as (Hlt & Hd & r & Hl & Htr).
        split_and!; [lia | done |]. exists r. split; [| done].
        rewrite lookup_insert_ne; [done |]. intros He. congruence.
  - intros rid r. rewrite Hr, Ht.
    destruct (decide (rid = roomId)) as [-> | Hne].
    + rewrite lookup_insert_eq. intros [= <-]. rewrite Htm.
      rewrite lookup_insert_eq. eauto.
    + rewrite lookup_insert_ne by done. intros Hl.
      destruct (P2 rid r Hl) as (t & Hh & Htr). exists t.
      split; [| done]. destruct (P1 _ _ Hh) as (Hlt & _).
      rewrite lookup_insert_ne by lia.
      rewrite lookup_delete_ne; [done |]. intros He.
      rewrite <- He in Hh. congruence.
Qed.

(** A live room goes away together with its timer. *)
Lemma timers_wf_deleted st st' roomId room :
  rooms st !! roomId = Some room →
  rooms st' = delete roomId (rooms st) →
  timers st' = delete (timer room) (timers st) →
  nextTimer st' = nextTimer st →
  timers_wf st → timers_wf st'.
Proof.
  intros Hlive Hr Ht Hn [P1 P2].
  destruct (P2 roomId room Hlive) as (t0 & Ht0 & Htr0). split.
  - intros h t. rewrite Ht, Hn, Hr.
    destruct (decide (h = timer room)) as [-> | Hne0].
    + by rewrite lookup_delete_eq.
    + rewrite lookup_delete_ne by done. intros Hh.
      destruct (P1 h t Hh) as (Hlt & Hd & r & Hl & Htr).
      split_and!; [done | done |]. exists r. split; [| done].
      rewrite lookup_delete_ne; [done |]. intros He. congruence.
  - intros rid r. rewrite Hr, Ht.
    destruct (decide (rid = roomId)) as [-> | Hne].
    + by rewrite lookup_delete_eq.
    + rewrite lookup_delete_ne by done. intros Hl.
      destruct (P2 rid r Hl) as (t & Hh & Htr). exists t.
      split; [| done]. rewrite lookup_delete_ne; [done |]. intros He.
      rewrite <- He in Hh. congruence.
Qed.

Lemma timer_fires_live h t st :
  timers_wf st → timers st !! h = Some t →
  ∃ room,
    rooms st !! timer_room t = Some room ∧ timer room = h
    ∧ timer_fires h st
      = done_with
          {| rooms := delete (timer_room t) (rooms st);
             userRooms :=
               foldl (λ ur u, index_remove u (timer_room t) ur)
                     (userRooms st) (users room);
             timers := delete h (timers st);
             nextTimer := nextTimer st;
             sockets := sockets st |}
          [(ToChannel (timer_room t), ev_room_deleted (timer_room t))].
Proof.
  intros [P1 P2] Hh. destruct (P1 h t Hh) as (_ & _ & room & Hl & Htr).
  exists room. split_and!; [done | done |].
  unfold timer_fires. rewrite Hh.
  assert (rooms (clearTimeout h st) !! timer_room t = Some room) as Hl'
    by done.
  rewrite (deleteRoom_live _ _ _ Hl'). cbn. rewrite Htr.
  by rewrite delete_delete_eq.
Qed.

Lemma step_timers_wf st i :
  ¬ collides st i → timers_wf st → timers_wf (res_state (step st i)).
Proof.
  intros Hc Hwf. destruct i; cbn [step]; try done.
  - unfold register. rewrite sendUserRooms_state.
    by apply (timers_wf_same st).
  - unfold create_room. case_bool_decide as Hlive; [done |].
    apply eq_None_not_Some in Hlive. rewrite createRoom_eq. cbn zeta.
    cbn [snd res_state done_with].
    by eapply (timers_wf_fresh st _ roomId).
  - destruct (rooms st !! roomId) as [room |] eqn:Hl.
    + rewrite (join_room_live _ _ _ _ _ _ _ Hl), sendUserRooms_state.
      by eapply (timers_wf_rearm st _ roomId room).
    + by rewrite (join_room_absent _ _ _ _ _ _ Hl).
  - unfold join_by_user.
    destruct (existingRoom userId currentUserId st) eqn:He; [done |].
    assert (rooms st !! generateRoomId r1 r2 r3 r4 = None) as Hfresh.
    { apply eq_None_not_Some. intros Hs. apply Hc. by split. }
    rewrite createRoom_eq. cbn zeta. cbn [snd res_state done_with].
    by eapply (timers_wf_fresh st _ (generateRoomId r1 r2 r3 r4)).
  - destruct (rooms st !! roomId) as [room |] eqn:Hl.
    + destruct (decide (userId ∈ users room)) as [Hm | Hm].
      * rewrite (send_message_accepted _ _ _ _ _ _ _ _ _ _ _ Hl Hm).
        by eapply (timers_wf_rearm st _ roomId room).
      * by rewrite (send_message_not_member _ _ _ _ _ _ _ _ _ _ _ Hl Hm).
    + by rewrite (send_message_absent _ _ _ _ _ _ _ _ _ _ Hl).
  - unfold get_messages. by destruct (rooms st !! roomId).
  - unfold get_room_expiration. by destruct (rooms st !! roomId).
  - destruct (timers st !! h) as [t |] eqn:Hh.
    + destruct (timer_fires_live h t st Hwf Hh) as (room & Hl & Htr & ->).
      eapply (timers_wf_deleted st _ (timer_room t) room); try done.
      cbn. by rewrite Htr.
    + unfold timer_fires. by rewrite Hh.
Qed.

Lemma collision_free_timers_wf st : collision_free st → timers_wf st.
Proof.
  induction 1 as [| st i _ IH Hc];
    [apply timers_wf_init | by apply step_timers_wf].
Qed.

(** X8.  In every state reached without collision, each live room has
    exactly one pending timer, its own, armed for five minutes and aimed
    at it, and every pending timer is aimed at a live room. *)
Theorem one_timer_per_room st :
  collision_free st →
  (∀ rid room, rooms st !! rid = Some room →
     timers st !! timer room
     = Some {| timer_room := rid;
               timer_delay := ROOM_EXPIRATION_MINUTES * 60 * 1000 |}
     ∧ ∀ h t, timers st !! h = Some t → timer_room t = rid →
              h = timer room)
  ∧ (∀ h t, timers st !! h = Some t → is_Some (rooms st !! timer_room t)).
Proof.
  intros [P1 P2]%collision_free_timers_wf. split.
  - intros rid room Hl. destruct (P2 rid room Hl) as (t & Hh & Htr).
    destruct (P1 _ _ Hh) as (_ & Hd & _). split.
    + rewrite Hh. f_equal. destruct t as [tr td]. cbn in *. congruence.
    + intros h t' Hh' Htr'.
      destruct (P1 _ _ Hh') as (_ & _ & room' & Hl' & <-). congruence.
  - intros h t Hh. destruct (P1 _ _ Hh) as (_ & _ & room & Hl & _). eauto.
Qed.

(** X9.  In a state reached without collision, a pending timer that
    fires deletes the live room it is aimed at: [room_deleted] goes to
    the channel of the room, the room leaves the registry, its id leaves
    every index entry, its timer is no longer pending, and no other room
    and no other index membership changes. *)
Theorem pending_timer_deletes_room h t st :
  collision_free st → timers st !! h = Some t →
  let res := timer_fires h st in
  let rid := timer_room t in
  is_Some (rooms st !! rid)
  ∧ res_out res = [(ToChannel rid, ev_room_deleted rid)]
  ∧ rooms (res_state res) = delete rid (rooms st)
  ∧ timers (res_state res) = delete h (timers st)
  ∧ (∀ u, idx_has (userRooms (res_state res)) u rid = false)
  ∧ (∀ u rid', rid' ≠ rid →
       idx_has (userRooms (res_state res)) u rid'
       = idx_has (userRooms st) u rid')
  ∧ membership_inv (res_state res).
Proof.
  intros Hcf Hh res rid.
  pose proof (collision_free_membership_inv st Hcf) as Hinv.
  destruct (timer_fires_live h t st (collision_free_timers_wf st Hcf) Hh)
    as (room & Hl & Htr & Hres).
  assert (membership_inv (res_state res)) as Hinv'.
  { apply (collision_free_membership_inv _
             (collision_free_step st (TimerFires h) Hcf (λ H, H))). }
  subst res. rewrite Hres in *. cbn [res_state res_out done_with] in *.
  cbn [rooms userRooms timers].
  split_and!; [eauto | done | done | done | | | done].
  - intros u. apply not_true_is_false. rewrite idx_has_remove_all.
    intros [Hi Hn]. apply Hn. split; [| done].
    specialize (Hinv u rid). unfold is_indexed in Hinv.
    rewrite <- Hinv in Hi. unfold is_member in Hi. fold rid in Hl.
    rewrite Hl in Hi. by apply has_true in Hi.
  - intros u rid' Hne. apply bool_eq_iff. rewrite idx_has_remove_all.
    fold rid. intuition.
Qed.

(** X10.  In a state reached without collision, ['join_room'] on a live
    room and an accepted ['send_message'] cancel the timer the room had:
    when that handle fires afterwards nothing is deleted and nothing is
    emitted. *)
Theorem cancelled_timer_is_noop sid roomId userId message tId rnd tStamp
    tReset tEmit room st :
  collision_free st → rooms st !! roomId = Some room →
  (let st' := res_state (join_room sid roomId userId tReset tEmit st) in
   timer_fires (timer room) st' = done_with st' [])
  ∧ (userId ∈ users room →
     let st' :=
       res_state (send_message sid roomId userId message tId rnd tStamp
                    tReset tEmit st) in
     timer_fires (timer room) st' = done_with st' []).
Proof.
  intros [P1 P2]%collision_free_timers_wf Hl.
  destruct (P2 roomId room Hl) as (t0 & Ht0 & _).
  destruct (P1 _ _ Ht0) as (Hlt & _).
  assert (∀ tm : Timer,
            <[nextTimer st := tm]> (delete (timer room) (timers st))
              !! timer room = None) as Hgone.
  { intros tm. rewrite lookup_insert_ne by lia. apply lookup_delete_eq. }
  split.
  - rewrite (join_room_live _ _ _ _ _ _ _ Hl), sendUserRooms_state. cbn zeta.
    unfold timer_fires, joined_state. cbn [timers]. by rewrite Hgone.
  - intros Hm.
    rewrite (send_message_accepted _ _ _ _ _ _ _ _ _ _ _ Hl Hm). cbn zeta.
    unfold timer_fires, sent_state. cbn [timers res_state done_with].
    by rewrite Hgone.
Qed.

(** X11.  In a state reached without collision, a room created by
    ['create_room'] under an id that is not live and deleted by its own
    timer, with nothing in between, leaves the registry, the membership
    index, the pending timers and the sockets exactly as they were; only
    the next timer handle has advanced. *)
Theorem create_then_expire sid roomId (userIds : list string) tExp tCreated
    st :
  collision_free st → rooms st !! roomId = None →
  let st1 := res_state (create_room sid roomId userIds tExp tCreated st) in
  let res := timer_fires (nextTimer st) st1 in
  res_out res = [(ToChannel roomId, ev_room_deleted roomId)]
  ∧ rooms (res_state res) = rooms st
  ∧ userRooms (res_state res) = userRooms st
  ∧ timers (res_state res) = timers st
  ∧ sockets (res_state res) = sockets st
  ∧ nextTimer (res_state res) = S (nextTimer st).
Proof.
  intros Hcf Hfresh st1 res.
  pose proof (collision_free_timers_wf st Hcf) as [P1 _].
  pose proof (collision_free_membership_inv st Hcf) as Hinv.
  pose proof (reachable_index_wf st (collision_free_reachable st Hcf)) as Hwf.
  assert (timers st !! nextTimer st = None) as Hnone.
  { destruct (timers st !! nextTimer st) as [t |] eqn:Hh; [| done].
    destruct (P1 _ _ Hh) as (Hlt & _). lia. }
  assert (∀ u, idx_has (userRooms st) u roomId = false) as Hnot.
  { intros u. specialize (Hinv u roomId). unfold is_indexed in Hinv.
    rewrite <- Hinv. unfold is_member. by rewrite Hfresh. }
  subst res st1. unfold create_room.
  rewrite bool_decide_eq_false_2 by (by apply eq_None_not_Some).
  rewrite createRoom_eq. cbn zeta. cbn [res_state done_with].
  unfold timer_fires. cbn [timers]. rewrite lookup_insert_eq.
  cbn [timer_room].
  erewrite deleteRoom_live by (cbn; apply lookup_insert_eq).
  cbn [res_state res_out done_with rooms userRooms timers sockets nextTimer
       users timer clearTimeout].
  split_and!; [done | | | | done | done].
  - by rewrite delete_insert_eq, delete_id.
  - apply index_add_remove_all; [done | done |].
    intros u. apply elem_of_of_list.
  - by rewrite delete_delete_eq, delete_insert_eq, delete_id.
Qed.

End Timers.


(** ** Message logs *)

Section Logs.

Import V2.

Implicit Types (st : State) (room : Room) (roomId userId sid : string).

Lemma log_of_insert st st' rid0 room' rid :
  rooms st' = <[rid0 := room']> (rooms st) →
  log_of st' rid
  = if bool_decide (rid = rid0) then messages room' else log_of st rid.
Proof.
  intros Hr. unfold log_of. rewrite Hr. case_bool_decide as H.
  - subst. by rewrite lookup_insert_eq.
  - by rewrite lookup_insert_ne.
Qed.

Lemma log_of_delete st st' rid0 rid :
  rooms st' = delete rid0 (rooms st) →
  log_of st' rid = if bool_decide (rid = rid0) then [] else log_of st rid.
Proof.
  intros Hr. unfold log_of. rewrite Hr. case_bool_decide as H.
  - subst. by rewrite lookup_delete_eq.
  - by rewrite lookup_delete_ne.
Qed.

(** What one input does to the log of one room. *)
Lemma step_log st i rid :
  log_of (res_state (step st i)) rid = log_of st rid
  ∨ log_of (res_state (step st i)) rid = []
  ∨ ∃ sid userId message tId rnd tStamp tReset tEmit,
      i = SendMessage sid rid userId message tId rnd tStamp tReset tEmit
      ∧ log_of (res_state (step st i)) rid
        = log_of st rid
          ++ [{| msg_id := messageId tId rnd; msg_userId := userId;
                 msg_message := message; msg_timestamp := tStamp |}].
Proof.
  destruct i; cbn [step]; try (by left).
  - left. unfold register. by rewrite sendUserRooms_state.
  - unfold create_room. case_bool_decide; [by left |].
    rewrite createRoom_eq. cbn zeta. cbn [snd res_state done_with].
    erewrite log_of_insert by reflexivity.
    case_bool_decide; [right; by left | by left].
  - left. destruct (rooms st !! roomId) as [room |] eqn:Hl.
    + rewrite (join_room_live _ _ _ _ _ _ _ Hl), sendUserRooms_state.
      erewrite log_of_insert by reflexivity.
      case_bool_decide as H; [| done]. subst. unfold log_of.
      by rewrite Hl.
    + by rewrite (join_room_absent _ _ _ _ _ _ Hl).
  - unfold join_by_user.
    destruct (existingRoom userId currentUserId st); [by left |].
    rewrite createRoom_eq. cbn zeta. cbn [snd res_state done_with].
    erewrite log_of_insert by reflexivity.
    case_bool_decide; [right; by left | by left].
  - destruct (rooms st !! roomId) as [room |] eqn:Hl.
    + destruct (decide (userId ∈ users room)) as [Hm | Hm].
      * rewrite (send_message_accepted _ _ _ _ _ _ _ _ _ _ _ Hl Hm).
        cbn [res_state done_with].
        erewrite log_of_insert by reflexivity.
        case_bool_decide as H; [| by left]. subst. right. right.
        exists sid, userId, message, tId, rnd, tStamp, tReset, tEmit.
        split; [done |]. unfold log_of. by rewrite Hl.
      * left.
        by rewrite (send_message_not_member _ _ _ _ _ _ _ _ _ _ _ Hl Hm).
    + left. by rewrite (send_message_absent _ _ _ _ _ _ _ _ _ _ Hl).
  - left. unfold get_messages. by destruct (rooms st !! roomId).
  - left. unfold get_room_expiration. by destruct (rooms st !! roomId).
  - unfold timer_fires. destruct (timers st !! h) as [t |]; [| by left].
    destruct (rooms (clearTimeout h st) !! timer_room t) as [room |] eqn:Hl.
    + rewrite (deleteRoom_live _ _ _ Hl). cbn [res_state done_with fst].
      erewrite log_of_delete by reflexivity.
      case_bool_decide; [right; by left | by left].
    + left. by rewrite (deleteRoom_absent _ _ Hl).
Qed.

(** X12.  Logs are append-only.  One input leaves the log of a room as
    it was, with three exceptions: a ['send_message'] to that room from
    one of its members appends exactly the message sent, with the id
    built from the handler's [Date.now()] and random suffix, after the
    messages already there; a pending timer aimed at the room that fires
    empties the log, the room being deleted; and a ['join_by_user'] that
    finds no two-party room and generates the id of the room empties it,
    the room being replaced by the one created. *)
Theorem log_append_only st i rid :
  log_of (res_state (step st i)) rid
  = match i with
    | SendMessage _ roomId userId message tId rnd tStamp _ _ =>
        if bool_decide (roomId = rid) && is_member st userId rid
        then log_of st rid
             ++ [{| msg_id := messageId tId rnd; msg_userId := userId;
                    msg_message := message; msg_timestamp := tStamp |}]
        else log_of st rid
    | TimerFires h =>
        if bool_decide (timer_room <$> timers st !! h = Some rid)
        then []
        else log_of st rid
    | JoinByUser _ userId currentUserId r1 r2 r3 r4 _ _ =>
        match existingRoom userId currentUserId st with
        | Some _ => log_of st rid
        | None =>
            if bool_decide (generateRoomId r1 r2 r3 r4 = rid) then []
            else log_of st rid
        end
    | _ => log_of st rid
    end.
Proof.
  assert (∀ rid', rooms st !! rid' = None → log_of st rid' = []) as Hdead.
  { intros rid' Hl. unfold log_of. by rewrite Hl. }
  destruct i; cbn [step]; try done.
  - unfold register. by rewrite sendUserRooms_state.
  - unfold create_room. case_bool_decide as Hlive; [done |].
    rewrite createRoom_eq. cbn zeta. cbn [snd res_state done_with].
    erewrite log_of_insert by reflexivity. cbn [messages].
    case_bool_decide as H; [| done]. subst. symmetry. apply Hdead.
    by apply eq_None_not_Some.
  - destruct (rooms st !! roomId) as [room |] eqn:Hl.
    + rewrite (join_room_live _ _ _ _ _ _ _ Hl), sendUserRooms_state.
      erewrite log_of_insert by reflexivity.
      case_bool_decide as H; [| done]. subst. unfold log_of.
      by rewrite Hl.
    + by rewrite (join_room_absent _ _ _ _ _ _ Hl).
  - unfold join_by_user.
    destruct (existingRoom userId currentUserId st); [done |].
    rewrite createRoom_eq. cbn zeta. cbn [snd res_state done_with].
    erewrite log_of_insert by reflexivity. cbn [messages].
    case_bool_decide as H; case_bool_decide as H'; congruence.
  - unfold is_member.
    destruct (rooms st !! roomId) as [room |] eqn:Hl.
    + destruct (decide (userId ∈ users room)) as [Hm | Hm].
      * rewrite (send_message_accepted _ _ _ _ _ _ _ _ _ _ _ Hl Hm).
        cbn [res_state done_with].
        erewrite log_of_insert by reflexivity.
        case_bool_decide as H; case_bool_decide as H'; try congruence;
          [| done].
        subst. rewrite Hl. cbn.
        rewrite (proj2 (has_true _ _) Hm). unfold log_of. by rewrite Hl.
      * rewrite (send_message_not_member _ _ _ _ _ _ _ _ _ _ _ Hl Hm).
        cbn [res_state done_with].
        case_bool_decide as H; [| done]. subst. rewrite Hl. cbn.
        by rewrite (proj2 (has_false _ _) Hm).
    + rewrite (send_message_absent _ _ _ _ _ _ _ _ _ _ Hl).
      cbn [res_state done_with].
      case_bool_decide as H; [| done]. subst. by rewrite Hl.
  - unfold get_messages. by destruct (rooms st !! roomId).
  - unfold get_room_expiration. by destruct (rooms st !! roomId).
  - unfold timer_fires. destruct (timers st !! h) as [t |] eqn:Ht;
      cbn [fmap option_fmap option_map].
    + destruct (rooms (clearTimeout h st) !! timer_room t) as [room |] eqn:Hl.
      * rewrite (deleteRoom_live _ _ _ Hl). cbn [res_state done_with fst].
        erewrite log_of_delete by reflexivity.
        change (log_of (clearTimeout h st) rid) with (log_of st rid).
        case_bool_decide as H; case_bool_decide as H'; congruence.
      * rewrite (deleteRoom_absent _ _ Hl). cbn [res_state done_with].
        case_bool_decide as H; [| done]. injection H as <-.
        unfold log_of. by rewrite Hl.
    + by case_bool_decide.
Qed.

(** X13.  A ['send_message'] from a member of a live room is relayed as
    [new_message] to the channel of the room with the id under which it
    is stored; the member set and the membership index do not change;
    and a ['get_messages'] right after returns the old log followed by
    the new message. *)
Theorem send_then_get_messages sid sid' roomId userId message tId rnd
    tStamp tReset tEmit room st :
  rooms st !! roomId = Some room → userId ∈ users room →
  let res :=
    send_message sid roomId userId message tId rnd tStamp tReset tEmit st in
  let stored :=
    {| msg_id := messageId tId rnd; msg_userId := userId;
       msg_message := message; msg_timestamp := tStamp |} in
  (ToChannel roomId, ev_new_message (msg_id stored) roomId userId message)
    ∈ res_out res
  ∧ users <$> rooms (res_state res) !! roomId = Some (users room)
  ∧ userRooms (res_state res) = userRooms st
  ∧ get_messages sid' roomId (res_state res)
    = done_with (res_state res)
        [(ToSocket sid', ev_room_messages roomId (messages room ++ [stored]))].
Proof.
  intros Hl Hm res stored. subst res.
  rewrite (send_message_accepted _ _ _ _ _ _ _ _ _ _ _ Hl Hm).
  cbn [res_state res_out done_with]. split_and!.
  - apply elem_of_cons. by left.
  - cbn. by rewrite lookup_insert_eq.
  - done.
  - unfold get_messages. cbn [rooms sent_state].
    by rewrite lookup_insert_eq.
Qed.

Lemma step_ids ds st i :
  ids_from ds st → ids_unique st →
  NoDup (ds ++ draw_of i) → Forall (λ d, 0 ≤ d.1) (ds ++ draw_of i) →
  ids_from (ds ++ draw_of i) (res_state (step st i))
  ∧ ids_unique (res_state (step st i)).
Proof.
  intros Hfrom Huniq Hnd Hpos.
  (* a message of the new state is an old one or the one just sent *)
  assert (∀ rid k m, log_of (res_state (step st i)) rid !! k = Some m →
            log_of st rid !! k = Some m
            ∨ ∃ sid userId message tId rnd tStamp tReset tEmit,
                i = SendMessage sid rid userId message tId rnd tStamp
                                tReset tEmit
                ∧ k = length (log_of st rid)
                ∧ msg_id m = messageId tId rnd) as Hcase.
  { intros rid k m Hk.
    destruct (step_log st i rid) as [He | [He | Hsend]].
    - left. by rewrite <- He.
    - rewrite He in Hk. by rewrite lookup_nil in Hk.
    - destruct Hsend as (sid & userId & message & tId & rnd & tStamp
                         & tReset & tEmit & Hi & He).
      rewrite He in Hk. apply lookup_app_Some in Hk as [Hk | [Hge Hk]].
      + by left.
      + right. exists sid, userId, message, tId, rnd, tStamp, tReset, tEmit.
        apply list_lookup_singleton_Some in Hk as [Hz <-].
        split_and!; [done | lia | done]. }
  (* the id just sent is the id of no old message *)
  assert (∀ sid rid userId message tId rnd tStamp tReset tEmit rid0 k m,
            i = SendMessage sid rid userId message tId rnd tStamp tReset
                            tEmit →
            log_of st rid0 !! k = Some m →
            msg_id m ≠ messageId tId rnd) as Hnew.
  { intros sid rid userId message tId rnd tStamp tReset tEmit rid0 k m
           Hi Hk He.
    destruct (Hfrom rid0 k m Hk) as ([t r] & Hd & Hid). cbn in Hid.
    subst i. cbn [draw_of] in Hnd, Hpos.
    apply Forall_app in Hpos as [Hpos1 Hpos2].
    rewrite Forall_forall in Hpos1. specialize (Hpos1 _ Hd). cbn in Hpos1.
    rewrite Forall_singleton in Hpos2. cbn in Hpos2.
    rewrite He in Hid. apply messageId_inj in Hid as [-> ->]; [| done..].
    apply NoDup_app in Hnd as (_ & Hdis & _).
    apply (Hdis _ Hd). apply list_elem_of_singleton. done. }
  split.
  - intros rid k m Hk. destruct (Hcase rid k m Hk) as [Hold | Hsent].
    + destruct (Hfrom rid k m Hold) as (d & Hd & Hid). exists d.
      split; [apply elem_of_app; by left | done].
    + destruct Hsent as (sid & userId & message & tId & rnd & tStamp
                         & tReset & tEmit & Hi & _ & Hid).
      exists (tId, rnd). split; [| done]. subst i. cbn [draw_of].
      apply elem_of_app. right. by apply list_elem_of_singleton.
  - intros rid1 rid2 k1 k2 m1 m2 Hk1 Hk2 He.
    destruct (Hcase rid1 k1 m1 Hk1) as [Hold1 | Hsent1];
      destruct (Hcase rid2 k2 m2 Hk2) as [Hold2 | Hsent2].
    + by apply (Huniq rid1 rid2 k1 k2 m1 m2).
    + exfalso.
      destruct Hsent2 as (sid & userId & message & tId & rnd & tStamp
                          & tReset & tEmit & Hi & _ & Hid).
      eapply Hnew; [exact Hi | exact Hold1 | congruence].
    + exfalso.
      destruct Hsent1 as (sid & userId & message & tId & rnd & tStamp
                          & tReset & tEmit & Hi & _ & Hid).
      eapply Hnew; [exact Hi | exact Hold2 | congruence].
    + destruct Hsent1 as (? & ? & ? & ? & ? & ? & ? & ? & Hi1 & -> & _).
      destruct Hsent2 as (? & ? & ? & ? & ? & ? & ? & ? & Hi2 & -> & _).
      rewrite Hi1 in Hi2. injection Hi2 as _ <-. done.
Qed.

Lemma run_ids (inputs : list Input) ds st :
  ids_from ds st → ids_unique st →
  NoDup (ds ++ draws inputs) → Forall (λ d, 0 ≤ d.1) (ds ++ draws inputs) →
  ids_unique (run st inputs).
Proof.
  revert ds st. induction inputs as [| i inputs IH]; intros ds st Hf Hu Hnd Hp.
  - done.
  - unfold draws in Hnd, Hp. cbn [mbind list_bind] in Hnd, Hp.
    fold (draws inputs) in Hnd, Hp. rewrite app_assoc in Hnd, Hp.
    destruct (step_ids ds st i Hf Hu) as [Hf' Hu'].
    + by apply NoDup_app in Hnd as (? & _ & _).
    + by apply Forall_app in Hp as [? _].
    + cbn [run foldl]. by apply (IH (ds ++ draw_of i)).
Qed.

(** X14.  As long as no two ['send_message'] of a run are handled with
    the same pair of [Date.now()] and random suffix (and [Date.now()] is
    not negative), no two messages stored anywhere in the registry have
    the same id. *)
Theorem ids_unique_for_distinct_draws (inputs : list Input) :
  NoDup (draws inputs) → Forall (λ d, 0 ≤ d.1) (draws inputs) →
  ∀ rid1 rid2 k1 k2 m1 m2,
    log_of (run init inputs) rid1 !! k1 = Some m1 →
    log_of (run init inputs) rid2 !! k2 = Some m2 →
    msg_id m1 = msg_id m2 → rid1 = rid2 ∧ k1 = k2.
Proof.
  intros Hnd Hp. apply (run_ids inputs [] init); [| | done | done].
  - intros rid k m. unfold log_of. cbn. rewrite lookup_empty. cbn.
    by rewrite lookup_nil.
  - intros rid1 rid2 k1 k2 m1 m2. unfold log_of. cbn.
    rewrite lookup_empty. cbn. by rewrite lookup_nil.
Qed.

End Logs.

(** ** What ['create_room'] and ['join_room'] answer *)

Section Replies.

Import V2.

Implicit Types (st : State) (room : Room) (roomId userId sid : string).

Lemma length_add x (s : JSSet.t) :
  length (JSSet.add x s)
  = if JSSet.has x s then length s else S (length s).
Proof.
  unfold JSSet.add. destruct (JSSet.has x s); [done |].
  rewrite length_app. cbn. lia.
Qed.

Lemma length_of_list_acc (l : list string) (s : JSSet.t) :
  (length (foldl (λ acc x, JSSet.add x acc) s l) ≤ length s + length l)%nat.
Proof.
  revert s. induction l as [| x l IH]; intros s; cbn; [lia |].
  etrans; [apply IH |]. rewrite length_add.
  destruct (JSSet.has x s); lia.
Qed.

Lemma of_list_acc_NoDup (l : list string) (s : JSSet.t) :
  NoDup (s ++ l) → foldl (λ acc x, JSSet.add x acc) s l = s ++ l.
Proof.
  revert s. induction l as [| x l IH]; intros s Hnd; cbn.
  - by rewrite app_nil_r.
  - assert (x ∉ s) as Hx.
    { apply NoDup_app in Hnd as (_ & Hdis & _). intros Hin.
      apply (Hdis x Hin). apply elem_of_cons. by left. }
    unfold JSSet.add at 2. rewrite (proj2 (has_false _ _) Hx).
    rewrite IH; [by rewrite <- app_assoc |]. by rewrite <- app_assoc.
Qed.

(** X15.  ['create_room'] with an id that is not live stores a room with
    the listed users, each once and in the order of their first mention,
    an empty log and [expiresAt] five minutes after [Date.now()], touches
    no other room, and emits one [room_created] per listed id, a repeated
    id included, each carrying the number of different users; an empty
    list gives an empty room and no emission. *)
Theorem create_room_fresh sid roomId (userIds : list string) tExp tCreated st :
  rooms st !! roomId = None →
  let res := create_room sid roomId userIds tExp tCreated st in
  let members := JSSet.of_list userIds in
  rooms (res_state res) !! roomId
  = Some {| id := roomId; users := members; messages := [];
            createdAt := tCreated;
            expiresAt := tExp + ROOM_EXPIRATION_MINUTES * 60 * 1000;
            timer := nextTimer st |}
  ∧ (∀ rid, rid ≠ roomId → rooms (res_state res) !! rid = rooms st !! rid)
  ∧ res_out res
    = map (λ u, (ToChannel u, ev_room_created roomId (length members)))
          userIds
  ∧ NoDup members
  ∧ (∀ u, u ∈ members ↔ u ∈ userIds)
  ∧ (length members ≤ length userIds)%nat
  ∧ (NoDup userIds → members = userIds)
  ∧ (userIds = [] → members = [] ∧ res_out res = []).
Proof.
  intros Hfresh res members. subst res. unfold create_room.
  rewrite bool_decide_eq_false_2 by (by apply eq_None_not_Some).
  rewrite createRoom_eq. cbn zeta. cbn [res_state res_out done_with rooms users].
  fold members. split_and!.
  - by rewrite lookup_insert_eq.
  - intros rid Hne. by rewrite lookup_insert_ne.
  - done.
  - apply NoDup_of_list.
  - intros u. apply elem_of_of_list.
  - apply (length_of_list_acc userIds []).
  - intros Hnd. apply (of_list_acc_NoDup userIds []). done.
  - intros ->. done.
Qed.

(** X16.  ['join_room'] on a live room first answers the caller with
    [room_joined] carrying the member count after the join, one more than
    before for a new member and the same for one who was in already, and
    then with [room_expiration]; in a state reached without collision the
    [user_rooms] list that follows holds the room with that count. *)
Theorem join_room_reply sid roomId userId tReset tEmit room st :
  rooms st !! roomId = Some room →
  let res := join_room sid roomId userId tReset tEmit st in
  let n := if JSSet.has userId (users room) then length (users room)
           else S (length (users room)) in
  (∃ rest,
      res_out res
      = [(ToSocket sid, ev_room_joined roomId n);
         (ToSocket sid,
          ev_room_expiration
            (minutesLeft (tReset + ROOM_EXPIRATION_MINUTES * 60 * 1000)
                         tEmit))]
        ++ rest)
  ∧ (collision_free st →
     ∃ d, res_out res !! 2%nat = Some (ToSocket sid, ev_user_rooms d)
          ∧ (roomId, n) ∈ d).
Proof.
  intros Hl res n. subst res.
  rewrite (join_room_live _ _ _ _ _ _ _ Hl), sendUserRooms_out.
  rewrite length_add. fold n. split; [eauto |].
  intros Hcf.
  assert (collision_free (joined_state sid roomId userId tReset room st))
    as Hcf'.
  { pose proof (collision_free_step st
                  (JoinRoom sid roomId userId tReset tEmit) Hcf (λ H, H))
      as H.
    cbn [step] in H.
    by rewrite (join_room_live _ _ _ _ _ _ _ Hl), sendUserRooms_state in H. }
  destruct (roomsData_lists userId _ (collision_free_membership_inv _ Hcf'))
    as (d & -> & _ & Hmem).
  exists d. split; [done |]. apply Hmem. eexists.
  split; [apply lookup_insert_eq |]. cbn [users].
  split; [apply elem_of_add; by left |]. by rewrite length_add.
Qed.

End Replies.

(** ** Channels *)

Section Channels.

Import V2.

Implicit Types (st : State) (room : Room) (roomId userId sid : string).

Lemma subscribed_true st sid name :
  subscribed st sid name = true
  ↔ ∃ sk, sockets st !! sid = Some sk ∧ name ∈ sock_channels sk.
Proof.
  unfold subscribed, receives. destruct (sockets st !! sid) as [sk |].
  - rewrite has_true. split; [eauto | by intros (? & [= <-] & ?)].
  - split; [done | by intros (? & ? & ?)].
Qed.

Lemma step_sockets st i :
  sockets (res_state (step st i))
  = match i with
    | Connect sid => socket_connect sid (sockets st)
    | Disconnect sid => delete sid (sockets st)
    | Register sid userId => socket_set_userId sid userId (sockets st)
    | JoinRoom sid roomId _ _ _ =>
        if bool_decide (is_Some (rooms st !! roomId))
        then socket_join sid roomId (sockets st) else sockets st
    | _ => sockets st
    end.
Proof.
  destruct i; cbn [step]; try done.
  - unfold register. by rewrite sendUserRooms_state.
  - unfold create_room. case_bool_decide; [done |].
    by rewrite createRoom_eq.
  - destruct (rooms st !! roomId) as [room |] eqn:Hl.
    + rewrite (join_room_live _ _ _ _ _ _ _ Hl), sendUserRooms_state.
      by rewrite bool_decide_eq_true_2.
    + rewrite (join_room_absent _ _ _ _ _ _ Hl).
      rewrite bool_decide_eq_false_2; [done |]. by intros [? ?].
  - unfold join_by_user.
    destruct (existingRoom userId currentUserId st); [done |].
    by rewrite createRoom_eq.
  - destruct (rooms st !! roomId) as [room |] eqn:Hl.
    + destruct (decide (userId ∈ users room)) as [Hm | Hm].
      * by rewrite (send_message_accepted _ _ _ _ _ _ _ _ _ _ _ Hl Hm).
      * by rewrite (send_message_not_member _ _ _ _ _ _ _ _ _ _ _ Hl Hm).
    + by rewrite (send_message_absent _ _ _ _ _ _ _ _ _ _ Hl).
  - unfold get_messages. by destruct (rooms st !! roomId).
  - unfold get_room_expiration. by destruct (rooms st !! roomId).
  - unfold timer_fires. destruct (timers st !! h) as [t |]; [| done].
    destruct (rooms (clearTimeout h st) !! timer_room t) as [room |] eqn:Hl.
    + by rewrite (deleteRoom_live _ _ _ Hl).
    + by rewrite (deleteRoom_absent _ _ Hl).
Qed.

(** X17.  ['join_room'] on a live room puts the calling socket, if
    connected, in the channel of the room, the channel [new_message],
    [room_expiration] and [room_deleted] are sent to.  Nothing takes a
    socket out of a channel again but its own disconnection (or a new
    connection under its id): not a rejected or accepted message, not
    the deletion of the room. *)
Theorem channel_subscriptions st :
  (∀ sid roomId userId tReset tEmit,
      is_Some (rooms st !! roomId) → is_Some (sockets st !! sid) →
      subscribed (res_state (join_room sid roomId userId tReset tEmit st))
                 sid roomId = true)
  ∧ (∀ i sid name,
      i ≠ Connect sid → i ≠ Disconnect sid →
      subscribed st sid name = true →
      subscribed (res_state (step st i)) sid name = true).
Proof.
  split.
  - intros sid roomId userId tReset tEmit [room Hl] [sk Hsk].
    rewrite (join_room_live _ _ _ _ _ _ _ Hl), sendUserRooms_state.
    apply subscribed_true. cbn [sockets joined_state]. unfold socket_join.
    rewrite lookup_alter_eq, Hsk. cbn. eexists. split; [done |].
    cbn. apply elem_of_add. by left.
  - intros i sid name Hc Hd (sk & Hsk & Hin)%subscribed_true.
    apply subscribed_true. rewrite step_sockets.
    destruct i; try (by eauto).
    + unfold socket_connect. rewrite lookup_insert_ne by congruence. eauto.
    + rewrite lookup_delete_ne by congruence. eauto.
    + unfold socket_set_userId.
      destruct (decide (sid0 = sid)) as [-> | Hne].
      * rewrite lookup_alter_eq, Hsk. cbn. eauto.
      * rewrite lookup_alter_ne by done. eauto.
    + case_bool_decide; [| by eauto]. unfold socket_join.
      destruct (decide (sid0 = sid)) as [-> | Hne].
      * rewrite lookup_alter_eq, Hsk. cbn. eexists. split; [done |].
        cbn. apply elem_of_add. by right.
      * rewrite lookup_alter_ne by done. eauto.
Qed.

End Channels.


(** * The first revision beside the second *)

Section Revisions.

Lemma v1_foldl_with_userRooms
    (f : string → gmap string JSSet.t → gmap string JSSet.t)
    (l : list string) (st : V1.State) :
  foldl (λ st u, V1.with_userRooms (f u) st) st l
  = {| V1.rooms := V1.rooms st;
       V1.userRooms := foldl (λ ur u, f u ur) (V1.userRooms st) l;
       V1.timers := V1.timers st; V1.nextTimer := V1.nextTimer st;
       V1.sockets := V1.sockets st |}.
Proof.
  revert st. induction l as [| u l IH]; intros st; simpl.
  - by destruct st.
  - by rewrite IH.
Qed.

Lemma v1_createRoom_eq roomId (userIds : list string) tCreated tLoop
    (st : V1.State) :
  V1.createRoom roomId userIds tCreated tLoop st
  = let room :=
      {| V1.id := roomId; V1.users := JSSet.of_list userIds;
         V1.messages := []; V1.createdAt := tCreated;
         V1.timer := {| V1.handle := V1.nextTimer st;
                        V1.idleStart := tLoop;
                        V1.idleTimeout := 300000 |} |} in
    (room,
     {| V1.rooms := <[roomId := room]> (V1.rooms st);
        V1.userRooms :=
          foldl (λ ur u, index_add u roomId ur) (V1.userRooms st) userIds;
        V1.timers := <[V1.nextTimer st := {| timer_room := roomId;
                                             timer_delay := 300000 |}]>
                       (V1.timers st);
        V1.nextTimer := S (V1.nextTimer st);
        V1.sockets := V1.sockets st |}).
Proof.
  unfold V1.createRoom. rewrite v1_foldl_with_userRooms. done.
Qed.

Lemma v1_deleteRoom_live roomId room (st : V1.State) :
  V1.rooms st !! roomId = Some room →
  V1.deleteRoom roomId st
  = ({| V1.rooms := delete roomId (V1.rooms st);
        V1.userRooms :=
          foldl (λ ur u, index_remove u roomId ur) (V1.userRooms st)
                (V1.users room);
        V1.timers := delete (V1.handle (V1.timer room)) (V1.timers st);
        V1.nextTimer := V1.nextTimer st;
        V1.sockets := V1.sockets st |},
     [(ToAll, ev_room_deleted roomId)]).
Proof.
  intros H. unfold V1.deleteRoom. rewrite H. cbn zeta.
  by rewrite v1_foldl_with_userRooms.
Qed.

Lemma v1_deleteRoom_absent roomId (st : V1.State) :
  V1.rooms st !! roomId = None → V1.deleteRoom roomId st = (st, []).
Proof. intros H. unfold V1.deleteRoom. by rewrite H. Qed.

Lemma v1_join_room_live sid roomId userId tLoop tEmit room (st : V1.State) :
  V1.rooms st !! roomId = Some room →
  V1.res_state (V1.join_room sid roomId userId tLoop tEmit st)
  = {| V1.rooms :=
         <[roomId := {| V1.id := V1.id room;
                        V1.users := JSSet.add userId (V1.users room);
                        V1.messages := V1.messages room;
                        V1.createdAt := V1.createdAt room;
                        V1.timer := {| V1.handle := V1.nextTimer st;
                                       V1.idleStart := tLoop;
                                       V1.idleTimeout := 300000 |} |}]>
           (V1.rooms st);
       V1.userRooms :=
         if JSSet.has userId (V1.users room) then V1.userRooms st
         else index_add userId roomId (V1.userRooms st);
       V1.timers :=
         <[V1.nextTimer st := {| timer_room := roomId;
                                 timer_delay := 300000 |}]>
           (delete (V1.handle (V1.timer room)) (V1.timers st));
       V1.nextTimer := S (V1.nextTimer st);
       V1.sockets := socket_join sid roomId (V1.sockets st) |}
  ∧ V1.res_out (V1.join_room sid roomId userId tLoop tEmit st) !! 0%nat
    = Some (ToSocket sid,
            ev_room_joined roomId
              (JSSet.size (JSSet.add userId (V1.users room)))).
Proof.
  intros H. unfold V1.join_room. rewrite H.
  assert (∀ s o, V1.res_state (V1.sendUserRooms sid userId s o) = s) as Hst.
  { intros s o. unfold V1.sendUserRooms. by destruct (V1.roomsData _ _). }
  assert (∀ s p o, V1.res_out (V1.sendUserRooms sid userId s (p :: o)) !! 0%nat
                   = Some p) as Hout.
  { intros s p o. unfold V1.sendUserRooms. by destruct (V1.roomsData _ _). }
  rewrite Hst, Hout.
  destruct (JSSet.has userId (V1.users room)) eqn:Hm; cbn [negb].
  - apply has_true in Hm. rewrite (add_present _ _ Hm).
    unfold V1.resetRoomTimer. cbn [V1.rooms V1.with_sockets]. rewrite H.
    cbn. unfold V1.deref. cbn. by rewrite lookup_insert_eq.
  - unfold V1.resetRoomTimer.
    cbn [V1.rooms V1.with_sockets V1.with_userRooms V1.with_rooms].
    rewrite lookup_insert_eq. cbn. unfold V1.deref, V1.with_rooms. cbn.
    rewrite ?lookup_insert_eq. cbn. rewrite ?insert_insert_eq.
    split; reflexivity.
Qed.

Lemma same_core_lookup (s1 : V1.State) (s2 : V2.State) roomId :
  same_core s1 s2 →
  (V1.rooms s1 !! roomId = None ∧ V2.rooms s2 !! roomId = None)
  ∨ ∃ room1 room2,
      V1.rooms s1 !! roomId = Some room1
      ∧ V2.rooms s2 !! roomId = Some room2
      ∧ V1.users room1 = V2.users room2
      ∧ V1.handle (V1.timer room1) = V2.timer room2
      ∧ V1.messages room1 = strip_id <$> V2.messages room2
      ∧ V1.id room1 = V2.id room2.
Proof.
  intros (Hu & Ht & _ & _ & _ & _ & Hlog & Hid).
  apply (f_equal (λ m, m !! roomId)) in Hu, Ht, Hlog, Hid.
  rewrite !lookup_fmap in Hu. rewrite !lookup_fmap in Ht.
  rewrite !lookup_fmap in Hlog. rewrite !lookup_fmap in Hid.
  destruct (V1.rooms s1 !! roomId) as [room1 |],
           (V2.rooms s2 !! roomId) as [room2 |]; cbn in *; try done.
  - right. exists room1, room2. split_and!; congruence.
  - by left.
Qed.

(** X18.  On states that hold the same rooms, members, logs (ids
    aside), index, timers and sockets, ['create_room'], ['join_room'] and
    a timer firing do the same in both revisions: the states after them again hold the same,
    ['create_room'] emits the same events, ['join_room'] the same first
    event ([room_joined] or the error), and a timer firing the same
    [room_deleted] payload, addressed to everyone in the first revision
    and to the channel of the room in the second. *)
Theorem revisions_agree (s1 : V1.State) (s2 : V2.State) :
  same_core s1 s2 →
  (∀ sid roomId (userIds : list string) tCreated tLoop tExp tCreated',
      same_core
        (V1.res_state (V1.create_room sid roomId userIds tCreated tLoop s1))
        (V2.res_state (V2.create_room sid roomId userIds tExp tCreated' s2))
      ∧ V1.res_out (V1.create_room sid roomId userIds tCreated tLoop s1)
        = V2.res_out (V2.create_room sid roomId userIds tExp tCreated' s2))
  ∧ (∀ sid roomId userId tLoop tEmit tReset tEmit',
      same_core
        (V1.res_state (V1.join_room sid roomId userId tLoop tEmit s1))
        (V2.res_state (V2.join_room sid roomId userId tReset tEmit' s2))
      ∧ V1.res_out (V1.join_room sid roomId userId tLoop tEmit s1) !! 0%nat
        = V2.res_out (V2.join_room sid roomId userId tReset tEmit' s2)
            !! 0%nat)
  ∧ (∀ h,
      same_core (V1.res_state (V1.timer_fires h s1))
                (V2.res_state (V2.timer_fires h s2))
      ∧ (V1.res_out (V1.timer_fires h s1)).*2
        = (V2.res_out (V2.timer_fires h s2)).*2
      ∧ Forall (λ e, e.1 = ToAll) (V1.res_out (V1.timer_fires h s1))
      ∧ Forall (λ e, ∃ rid, e = (ToChannel rid, ev_room_deleted rid))
               (V2.res_out (V2.timer_fires h s2))).
Proof.
  intros Hsame.
  pose proof Hsame as (Hu & Ht & Hur & Htm & Hn & Hs & Hlog & Hid).
  split_and!.
  - intros sid roomId userIds tCreated tLoop tExp tCreated'.
    unfold V1.create_room, V2.create_room.
    destruct (same_core_lookup s1 s2 roomId Hsame)
      as [[H1 H2] | (room1 & room2 & H1 & H2 & _)].
    + rewrite !bool_decide_eq_false_2 by (rewrite ?H1, ?H2; by intros [? ?]).
      rewrite v1_createRoom_eq, createRoom_eq. cbn. split; [| done].
      unfold same_core. cbn. rewrite !fmap_insert. cbn.
      split_and!; congruence.
    + rewrite !bool_decide_eq_true_2 by (rewrite ?H1, ?H2; eauto). done.
  - intros sid roomId userId tLoop tEmit tReset tEmit'.
    destruct (same_core_lookup s1 s2 roomId Hsame)
      as [[H1 H2] | (room1 & room2 & H1 & H2 & Hus & Hh & Hlog' & Hid')].
    + rewrite (join_room_absent _ _ _ _ _ _ H2).
      unfold V1.join_room. rewrite H1. done.
    + destruct (v1_join_room_live sid roomId userId tLoop tEmit room1 s1 H1)
        as [-> ->].
      rewrite (join_room_live _ _ _ _ _ _ _ H2), sendUserRooms_state,
        sendUserRooms_out. cbn [lookup list_lookup app].
      rewrite Hus. split; [| done].
      unfold same_core, joined_state. cbn. rewrite !fmap_insert. cbn.
      split_and!; try congruence. by rewrite Hur.
  - intros h. unfold V1.timer_fires, V2.timer_fires. rewrite Htm.
    destruct (V2.timers s2 !! h) as [t |]; [| by split_and!].
    destruct (same_core_lookup s1 s2 (timer_room t) Hsame)
      as [[H1 H2] | (room1 & room2 & H1 & H2 & Hus & Hh & _)].
    + rewrite v1_deleteRoom_absent by done.
      rewrite deleteRoom_absent by done. cbn. split_and!; try done.
    + erewrite v1_deleteRoom_live by exact H1.
      erewrite deleteRoom_live by exact H2. cbn. split_and!.
      * unfold same_core. cbn. rewrite !fmap_delete.
        split_and!; congruence.
      * done.
      * by apply Forall_singleton.
      * apply Forall_singleton. eauto.
Qed.

(** X19.  In both revisions [deleteRoom] on an id that is not live
    changes nothing and emits nothing, so that deleting a room twice is
    deleting it once: the second call finds it gone. *)
Theorem deleteRoom_twice roomId (s1 : V1.State) (s2 : V2.State) :
  (V1.rooms s1 !! roomId = None → V1.deleteRoom roomId s1 = (s1, []))
  ∧ (V2.rooms s2 !! roomId = None → V2.deleteRoom roomId s2 = (s2, []))
  ∧ V1.deleteRoom roomId (V1.deleteRoom roomId s1).1
    = ((V1.deleteRoom roomId s1).1, [])
  ∧ V2.deleteRoom roomId (V2.deleteRoom roomId s2).1
    = ((V2.deleteRoom roomId s2).1, []).
Proof.
  split_and!.
  - apply v1_deleteRoom_absent.
  - apply deleteRoom_absent.
  - apply v1_deleteRoom_absent.
    destruct (V1.rooms s1 !! roomId) as [room |] eqn:Hl.
    + rewrite (v1_deleteRoom_live _ _ _ Hl). cbn. apply lookup_delete_eq.
    + by rewrite (v1_deleteRoom_absent _ _ Hl).
  - apply deleteRoom_absent.
    destruct (V2.rooms s2 !! roomId) as [room |] eqn:Hl.
    + rewrite (deleteRoom_live _ _ _ Hl). cbn. apply lookup_delete_eq.
    + by rewrite (deleteRoom_absent _ _ Hl).
Qed.

End Revisions.

(** ** The other handlers of the first revision beside the second *)

Section RevisionsRest.

Lemma roomsData_agree userId (s1 : V1.State) (s2 : V2.State) :
  same_core s1 s2 → V1.roomsData userId s1 = V2.roomsData userId s2.
Proof.
  intros Hsame. pose proof Hsame as (_ & _ & Hur & _).
  unfold V1.roomsData, V2.roomsData. rewrite Hur.
  destruct (V2.userRooms s2 !! userId) as [rs |]; [| done].
  induction rs as [| rid rs IH]; [done |].
  cbn. rewrite IH.
  destruct (same_core_lookup s1 s2 rid Hsame)
    as [[-> ->] | (room1 & room2 & -> & -> & Hus & _)]; [done |].
  cbn. by rewrite Hus.
Qed.

Lemma v1_send_message_accepted sid roomId userId message tStamp tLoop tEmit
    room (st : V1.State) :
  V1.rooms st !! roomId = Some room → userId ∈ V1.users room →
  V1b.send_message sid roomId userId message tStamp tLoop tEmit st
  = {| V1b.res1_state :=
         {| V1.rooms :=
              <[roomId := {| V1.id := V1.id room;
                             V1.users := V1.users room;
                             V1.messages := V1.messages room ++
                               [{| V1.sm_userId := userId;
                                   V1.sm_message := message;
                                   V1.sm_timestamp := tStamp |}];
                             V1.createdAt := V1.createdAt room;
                             V1.timer :=
                               {| V1.handle := V1.nextTimer st;
                                  V1.idleStart := tLoop;
                                  V1.idleTimeout := 300000 |} |}]>
                (V1.rooms st);
            V1.userRooms := V1.userRooms st;
            V1.timers :=
              <[V1.nextTimer st := {| timer_room := roomId;
                                      timer_delay := 300000 |}]>
                (delete (V1.handle (V1.timer room)) (V1.timers st));
            V1.nextTimer := S (V1.nextTimer st);
            V1.sockets := V1.sockets st |};
       V1b.res1_out :=
         [(ToChannel roomId, V1b.ev1_new_message roomId userId message);
          (ToChannel roomId,
           V1b.ev1_room_expiration
             (ceil_div (tLoop + 300000 - tEmit) 60000))] |}.
Proof.
  intros H Hm. unfold V1b.send_message. rewrite H.
  rewrite (proj2 (has_true _ _) Hm). cbn [negb].
  unfold V1.resetRoomTimer, V1.with_rooms. cbn [V1.rooms].
  rewrite lookup_insert_eq. cbn. unfold V1.deref. cbn.
  rewrite lookup_insert_eq. cbn. rewrite insert_insert_eq. reflexivity.
Qed.

(** X20.  On states that hold the same, ['register'], ['send_message']
    and ['get_messages'] do the same in both revisions.  ['register']
    emits the same [user_rooms].  ['send_message'] is rejected with the
    same error, or stores the same message, without the id in the first
    revision, and relays it to the channel of the room without the id.
    ['get_messages'] answers with the same log, again without ids and
    without the room id, or stays silent in both. *)
Theorem revisions_agree_messages (s1 : V1.State) (s2 : V2.State) :
  same_core s1 s2 →
  (∀ sid userId,
      same_core (V1.res_state (V1b.register sid userId s1))
                (V2.res_state (V2.register sid userId s2))
      ∧ V1.res_out (V1b.register sid userId s1)
        = V2.res_out (V2.register sid userId s2)
      ∧ V1.res_threw (V1b.register sid userId s1)
        = V2.res_threw (V2.register sid userId s2))
  ∧ (∀ sid roomId userId message tStamp tLoop tEmit tId rnd tReset tEmit',
      let r1 :=
        V1b.send_message sid roomId userId message tStamp tLoop tEmit s1 in
      let r2 :=
        V2.send_message sid roomId userId message tId rnd tStamp tReset
                        tEmit' s2 in
      same_core (V1b.res1_state r1) (V2.res_state r2)
      ∧ length (V1b.res1_out r1) = length (V2.res_out r2)
      ∧ ∃ tg p p1,
          V2.res_out r2 !! 0%nat = Some (tg, p)
          ∧ V1b.res1_out r1 !! 0%nat = Some (tg, p1)
          ∧ to_v1 p = Some p1)
  ∧ (∀ sid roomId,
      V1b.res1_state (V1b.get_messages sid roomId s1) = s1
      ∧ V2.res_state (V2.get_messages sid roomId s2) = s2
      ∧ Forall2 (λ e1 e2, e1.1 = e2.1 ∧ to_v1 e2.2 = Some e1.2)
                (V1b.res1_out (V1b.get_messages sid roomId s1))
                (V2.res_out (V2.get_messages sid roomId s2))).
Proof.
  intros Hsame.
  pose proof Hsame as (Hu & Ht & Hur & Htm & Hn & Hs & Hlog & Hid).
  split_and!.
  - intros sid userId.
    assert (same_core (V1.with_sockets (socket_set_userId sid userId) s1)
                      (V2.with_sockets (socket_set_userId sid userId) s2))
      as Hsame'.
    { unfold same_core. cbn. split_and!; congruence. }
    unfold V1b.register, V2.register, V1.sendUserRooms, V2.sendUserRooms.
    rewrite (roomsData_agree userId _ _ Hsame').
    by destruct (V2.roomsData userId _).
  - intros sid roomId userId message tStamp tLoop tEmit tId rnd tReset tEmit'.
    destruct (same_core_lookup s1 s2 roomId Hsame)
      as [[H1 H2] | (room1 & room2 & H1 & H2 & Hus & Hh & Hlog' & Hid')].
    + rewrite (send_message_absent _ _ _ _ _ _ _ _ _ _ H2).
      unfold V1b.send_message. rewrite H1. cbn. split_and!; [done | done |].
      by eexists _, _, _.
    + destruct (decide (userId ∈ V2.users room2)) as [Hm | Hm].
      * rewrite (send_message_accepted _ _ _ _ _ _ _ _ _ _ _ H2 Hm).
        rewrite (v1_send_message_accepted _ _ _ _ _ _ _ room1)
          by (by rewrite ?Hus).
        cbn. split_and!; [| done | by eexists _, _, _].
        unfold same_core, sent_state. cbn. rewrite !fmap_insert. cbn.
        rewrite fmap_app. cbn. split_and!; try congruence.
        by rewrite Hlog, Hlog'.
      * rewrite (send_message_not_member _ _ _ _ _ _ _ _ _ _ _ H2 Hm).
        unfold V1b.send_message. rewrite H1, Hus.
        rewrite (proj2 (has_false _ _) Hm). cbn.
        split_and!; [done | done |]. by eexists _, _, _.
  - intros sid roomId. unfold V1b.get_messages, V2.get_messages.
    destruct (same_core_lookup s1 s2 roomId Hsame)
      as [[-> ->] | (room1 & room2 & -> & -> & _ & _ & Hlog' & _)]; cbn.
    + split_and!; [done | done | constructor].
    + split_and!; [done | done |]. constructor; [| constructor].
      cbn. by rewrite Hlog'.
Qed.

Lemma findExisting_first_fit userId currentUserId (st : V2.State)
    (l : list string) :
  V2.findExisting userId currentUserId st l
  = first_fit (fit2 userId currentUserId st) l ≫= (λ rid, V2.rooms st !! rid).
Proof.
  unfold first_fit. induction l as [| rid l IH]; [done |].
  cbn [V2.findExisting].
  destruct (decide (fit2 userId currentUserId st rid = true)) as [Hf | Hf].
  - rewrite filter_cons_True by done. cbn [head mbind option_bind].
    unfold fit2 in Hf. destruct (V2.rooms st !! rid) as [room |]; [| done].
    cbn in Hf. by rewrite Hf.
  - rewrite filter_cons_False by done. rewrite <- IH.
    unfold fit2 in Hf. destruct (V2.rooms st !! rid) as [room |]; [| done].
    cbn in Hf. by destruct (_ && _ && _).
Qed.

Lemma v1_findExisting_first_fit userId currentUserId (st : V1.State)
    (l : list string) :
  V1b.findExisting userId currentUserId st l
  = first_fit (fit1 userId currentUserId st) l ≫= (λ rid, V1.rooms st !! rid).
Proof.
  unfold first_fit. induction l as [| rid l IH]; [done |].
  cbn [V1b.findExisting].
  destruct (decide (fit1 userId currentUserId st rid = true)) as [Hf | Hf].
  - rewrite filter_cons_True by done. cbn [head mbind option_bind].
    unfold fit1 in Hf. destruct (V1.rooms st !! rid) as [room |]; [| done].
    cbn in Hf. by rewrite Hf.
  - rewrite filter_cons_False by done. rewrite <- IH.
    unfold fit1 in Hf. destruct (V1.rooms st !! rid) as [room |]; [| done].
    cbn in Hf. by destruct (_ && _ && _).
Qed.

Lemma fit_agree userId currentUserId (s1 : V1.State) (s2 : V2.State) rid :
  same_core s1 s2 →
  fit1 userId currentUserId s1 rid = fit2 userId currentUserId s2 rid.
Proof.
  intros Hsame. unfold fit1, fit2.
  destruct (same_core_lookup s1 s2 rid Hsame)
    as [[-> ->] | (room1 & room2 & -> & -> & Hus & _)]; [done |].
  cbn. by rewrite Hus.
Qed.

(** [new Set([...s, ...l])] starts with the elements of [s], in their
    order. *)
Lemma foldl_add_extends (l : list string) (s : JSSet.t) :
  ∃ r, foldl (λ acc x, JSSet.add x acc) s l = s ++ r
       ∧ ∀ x, x ∈ r → (x ∉ s) ∧ x ∈ l.
Proof.
  revert s. induction l as [| a l IH]; intros s; cbn.
  - exists []. split; [by rewrite app_nil_r |]. intros x Hx.
    by apply elem_of_nil in Hx.
  - destruct (IH (JSSet.add a s)) as (r & -> & Hr).
    unfold JSSet.add in *. destruct (JSSet.has a s) eqn:Ha.
    + exists r. split; [done |]. intros x Hx. destruct (Hr x Hx).
      split; [done | apply elem_of_cons; by right].
    + apply has_false in Ha. exists (a :: r).
      split; [by rewrite <- app_assoc |]. intros x [-> | Hx]%elem_of_cons.
      * split; [done | apply elem_of_cons; by left].
      * destruct (Hr x Hx) as [Hn Hin].
        split; [| apply elem_of_cons; by right].
        intros Hs. apply Hn, elem_of_app. by left.
Qed.

Lemma filter_none (fit : string → bool) (l : list string) :
  (∀ x, x ∈ l → fit x = false) → filter (λ rid, fit rid = true) l = [].
Proof.
  induction l as [| a l IH]; intros H; [done |].
  rewrite filter_cons_False.
  - apply IH. intros x Hx. apply H, elem_of_cons. by right.
  - rewrite (H a) by (apply elem_of_cons; by left). done.
Qed.

Lemma filter_within (fit : string → bool) (P : string → Prop)
    `{∀ x, Decision (P x)} (l : list string) :
  (∀ x, fit x = true → P x) →
  filter (λ rid, fit rid = true) (filter P l)
  = filter (λ rid, fit rid = true) l.
Proof.
  intros Himp. induction l as [| a l IH]; [done |].
  destruct (decide (P a)) as [Ha | Ha].
  - rewrite (filter_cons_True P) by done.
    destruct (decide (fit a = true)) as [Hf | Hf].
    + rewrite !(filter_cons_True (λ rid, fit rid = true)) by done.
      by rewrite IH.
    + rewrite !(filter_cons_False (λ rid, fit rid = true)) by done. done.
  - rewrite (filter_cons_False P) by done.
    rewrite (filter_cons_False (λ rid, fit rid = true)); [done |].
    intros Hf. by apply Ha, Himp.
Qed.

(** Searching the union, the caller's rooms first, and searching the
    caller's rooms that are also the other's find the same room, when
    every room that passes the test is in both lists. *)
Lemma first_fit_union_intersection (fit : string → bool)
    (mine theirs : list string) :
  NoDup mine →
  (∀ rid, fit rid = true → rid ∈ mine ∧ rid ∈ theirs) →
  first_fit fit (JSSet.of_list (mine ++ theirs))
  = first_fit fit (filter (λ rid, JSSet.has rid theirs) mine).
Proof.
  intros Hnd Hfit. unfold first_fit, JSSet.of_list.
  rewrite foldl_app.
  rewrite (of_list_acc_NoDup mine JSSet.empty) by done. cbn [app JSSet.empty].
  destruct (foldl_add_extends theirs mine) as (r & -> & Hr).
  rewrite filter_app, (filter_none fit r), app_nil_r.
  - rewrite filter_within; [done |]. intros rid Hf.
    apply Is_true_true, has_true. by apply Hfit.
  - intros x Hx. destruct (Hr x Hx) as [Hn _].
    destruct (fit x) eqn:Hf; [| done]. exfalso. by apply Hn, Hfit.
Qed.

Lemma existingRoom_agree userId currentUserId (s1 : V1.State)
    (s2 : V2.State) :
  same_core s1 s2 → reachable s2 →
  match V1b.existingRoom userId currentUserId s1,
        V2.existingRoom userId currentUserId s2 with
  | Some room1, Some room2 =>
      V1.id room1 = V2.id room2 ∧ V1.users room1 = V2.users room2
  | None, None => True
  | _, _ => False
  end.
Proof.
  intros Hsame Hreach.
  pose proof Hsame as (_ & _ & Hur & _).
  destruct (reachable_complete s2 Hreach) as [Hc _].
  pose proof (reachable_index_wf s2 Hreach) as Hwf.
  unfold V1b.existingRoom, V2.existingRoom. rewrite Hur.
  destruct (V2.userRooms s2 !! currentUserId) as [mine |] eqn:Hmine;
    [| done].
  destruct (V2.userRooms s2 !! userId) as [theirs |] eqn:Htheirs; [| done].
  cbn zeta. rewrite v1_findExisting_first_fit, findExisting_first_fit.
  rewrite (first_fit_union_intersection _ mine theirs).
  - assert (first_fit (fit1 userId currentUserId s1)
                      (filter (λ rid, JSSet.has rid theirs) mine)
            = first_fit (fit2 userId currentUserId s2)
                        (filter (λ rid, JSSet.has rid theirs) mine)) as ->.
    { unfold first_fit. f_equal. apply list_filter_iff. intros rid.
      by rewrite (fit_agree _ _ s1 s2 rid Hsame). }
    destruct (first_fit _ _) as [rid |]; cbn; [| done].
    destruct (same_core_lookup s1 s2 rid Hsame)
      as [[-> ->] | (room1 & room2 & -> & -> & Hus & _ & _ & Hid)]; done.
  - by apply (Hwf currentUserId mine).
  - intros rid Hf. rewrite (fit_agree _ _ s1 s2 rid Hsame) in Hf.
    unfold fit2 in Hf.
    destruct (V2.rooms s2 !! rid) as [room |] eqn:Hl; [| done]. cbn in Hf.
    apply andb_true_iff in Hf as [[_ Hcu]%andb_true_iff Hu].
    apply has_true in Hcu, Hu.
    assert (∀ v, v ∈ V2.users room →
                 ∃ rs, V2.userRooms s2 !! v = Some rs ∧ rid ∈ rs) as Hidx.
    { intros v Hv. apply idx_has_true. apply (Hc v rid).
      apply is_member_true. eauto. }
    destruct (Hidx _ Hcu) as (? & ? & ?), (Hidx _ Hu) as (? & ? & ?).
    split; congruence.
Qed.

(** X21.  The first revision searches a two-party room in the union of
    the two users' rooms, the second in the caller's rooms that are also
    the other's.  From states that hold the same, the second reachable,
    ['join_by_user'] emits the same events in both revisions (the same
    room is found, or the same room is created) and leaves states that
    again hold the same. *)
Theorem revisions_agree_join_by_user (s1 : V1.State) (s2 : V2.State)
    sid userId currentUserId r1 r2 r3 r4 tCreated tLoop tExp tCreated' :
  same_core s1 s2 → reachable s2 →
  same_core
    (V1.res_state (V1b.join_by_user sid userId currentUserId r1 r2 r3 r4
                     tCreated tLoop s1))
    (V2.res_state (V2.join_by_user sid userId currentUserId r1 r2 r3 r4
                     tExp tCreated' s2))
  ∧ V1.res_out (V1b.join_by_user sid userId currentUserId r1 r2 r3 r4
                  tCreated tLoop s1)
    = V2.res_out (V2.join_by_user sid userId currentUserId r1 r2 r3 r4
                    tExp tCreated' s2).
Proof.
  intros Hsame Hreach.
  pose proof (existingRoom_agree userId currentUserId s1 s2 Hsame Hreach)
    as Hex.
  unfold V1b.join_by_user, V2.join_by_user.
  destruct (V1b.existingRoom userId currentUserId s1) as [room1 |],
           (V2.existingRoom userId currentUserId s2) as [room2 |];
    try done.
  - destruct Hex as [-> ->]. done.
  - rewrite v1_createRoom_eq, createRoom_eq. cbn. split; [| done].
    destruct Hsame as (Hu & Ht & Hur & Htm & Hn & Hs & Hlog & Hid).
    unfold same_core. cbn. rewrite !fmap_insert. cbn.
    split_and!; congruence.
Qed.

End RevisionsRest.

(** ** The further properties on sample runs *)

Section FurtherSamples.

Import V2.

Lemma run_one_room_collision_free : collision_free run_one_room.
Proof.
  unfold run_one_room, run. cbn [foldl].
  repeat (apply collision_free_step; [| intros []]).
  apply collision_free_init.
Qed.

Lemma run_collided_reachable : reachable run_collided.
Proof.
  apply reachable_step, collision_free_reachable,
    run_three_party_collision_free.
Qed.

Lemma run_created_reachable : reachable run_created.
Proof.
  unfold run_created, run. cbn [foldl].
  repeat apply reachable_step. apply reachable_init.
Qed.

Lemma run_created_same_core : same_core run_v1_room run_created.
Proof. unfold same_core. split_and!; vm_compute; reflexivity. Qed.

Lemma membership_index_agree_witness :
  collision_free run_three_party
  ∧ ((∃ room, rooms run_three_party !! "AA00"%string = Some room
              ∧ "y"%string ∈ users room)
     ↔ (∃ rs, userRooms run_three_party !! "y"%string = Some rs
              ∧ "AA00"%string ∈ rs)).
Proof.
  split; [apply run_three_party_collision_free |].
  apply (membership_index_agree run_three_party
           run_three_party_collision_free).
Defined.

Lemma members_always_indexed_witness :
  reachable run_collided
  ∧ ∃ room, rooms run_collided !! "AA00"%string = Some room
            ∧ id room = "AA00"%string
            ∧ NoDup (users room)
            ∧ ∀ u, u ∈ users room →
                   ∃ rs, userRooms run_collided !! u = Some rs
                         ∧ "AA00"%string ∈ rs.
Proof.
  split; [apply run_collided_reachable |].
  assert (∃ room, rooms run_collided !! "AA00"%string = Some room)
    as [room Hl] by (vm_compute; eauto).
  exists room. split; [done |].
  apply (members_always_indexed run_collided run_collided_reachable
           "AA00"%string room Hl).
Defined.

Lemma index_entries_nonempty_witness :
  reachable run_collided
  ∧ ∃ rs, userRooms run_collided !! "z"%string = Some rs
          ∧ rs ≠ [] ∧ NoDup rs.
Proof.
  split; [apply run_collided_reachable |].
  assert (∃ rs, userRooms run_collided !! "z"%string = Some rs)
    as [rs Hl] by (vm_compute; eauto).
  exists rs. split; [done |].
  apply (index_entries_nonempty run_collided run_collided_reachable
           "z"%string rs Hl).
Defined.


Lemma register_lists_rooms_witness :
  collision_free run_three_party
  ∧ ∃ d,
      register "s1" "x" run_three_party
      = done_with (with_sockets (socket_set_userId "s1" "x") run_three_party)
                  [(ToSocket "s1", ev_user_rooms d)]
      ∧ d.*1 = default [] (userRooms run_three_party !! "x"%string)
      ∧ ∀ rid n,
          (rid, n) ∈ d
          ↔ ∃ room, rooms run_three_party !! rid = Some room
                    ∧ "x"%string ∈ users room ∧ n = length (users room).
Proof.
  split; [apply run_three_party_collision_free |].
  apply (register_lists_rooms "s1" "x" run_three_party
           run_three_party_collision_free).
Defined.

Lemma generateRoomId_shape_witness :
  ((1 < 26)%nat ∧ (2 < 26)%nat ∧ (3 < 10)%nat ∧ (4 < 10)%nat)
  ∧ String.length (generateRoomId 1 2 3 4) = 4%nat
  ∧ generateRoomId 1 2 3 4 = "BC34"%string.
Proof.
  assert ((1 < 26)%nat ∧ (2 < 26)%nat ∧ (3 < 10)%nat ∧ (4 < 10)%nat)
    as Hr by lia.
  split; [done |]. destruct Hr as (H1 & H2 & H3 & H4).
  destruct (generateRoomId_shape 1 2 3 4 H1 H2 H3 H4) as (Hlen & Hid & _).
  split; [done |]. rewrite Hid. reflexivity.
Defined.

Lemma minutesLeft_countdown_witness :
  (0 < 4 ∧ (4 - 1) * 60000 < 300000 - 60001 ≤ 4 * 60000)
  ∧ minutesLeft 300000 60001 = 4.
Proof.
  assert (0 < 4 ∧ (4 - 1) * 60000 < 300000 - 60001 ≤ 4 * 60000)
    as Hk by lia.
  split; [done |]. destruct Hk as [Hpos Hin].
  destruct (minutesLeft_countdown 300000) as (_ & _ & Hband & _).
  exact (Hband 60001 4 Hpos Hin).
Defined.

Lemma one_timer_per_room_witness :
  collision_free run_one_room
  ∧ ∃ room, rooms run_one_room !! "R1"%string = Some room
            ∧ timers run_one_room !! timer room
              = Some {| timer_room := "R1";
                        timer_delay := ROOM_EXPIRATION_MINUTES * 60 * 1000 |}.
Proof.
  split; [apply run_one_room_collision_free |].
  assert (∃ room, rooms run_one_room !! "R1"%string = Some room)
    as [room Hl] by (vm_compute; eauto).
  exists room. split; [done |].
  destruct (one_timer_per_room run_one_room run_one_room_collision_free)
    as [Hlive _].
  apply (Hlive "R1"%string room Hl).
Defined.

Lemma pending_timer_deletes_room_witness :
  collision_free run_one_room
  ∧ timers run_one_room !! 1%nat
    = Some {| timer_room := "R1"; timer_delay := 300000 |}
  ∧ res_out (timer_fires 1 run_one_room)
    = [(ToChannel "R1", ev_room_deleted "R1")]
  ∧ rooms (res_state (timer_fires 1 run_one_room))
    = delete "R1"%string (rooms run_one_room)
  ∧ membership_inv (res_state (timer_fires 1 run_one_room)).
Proof.
  assert (timers run_one_room !! 1%nat
          = Some {| timer_room := "R1"; timer_delay := 300000 |}) as Ht
    by (vm_compute; reflexivity).
  split; [apply run_one_room_collision_free |]. split; [done |].
  destruct (pending_timer_deletes_room 1 _ run_one_room
              run_one_room_collision_free Ht)
    as (_ & Hout & Hrooms & _ & _ & _ & Hinv).
  split_and!; done.
Defined.

Lemma cancelled_timer_is_noop_witness :
  collision_free run_one_room
  ∧ ∃ room,
      rooms run_one_room !! "R1"%string = Some room
      ∧ timer_fires (timer room)
          (res_state (join_room "s2" "R1" "u3" 3000 3001 run_one_room))
        = done_with
            (res_state (join_room "s2" "R1" "u3" 3000 3001 run_one_room)) [].
Proof.
  split; [apply run_one_room_collision_free |].
  assert (∃ room, rooms run_one_room !! "R1"%string = Some room)
    as [room Hl] by (vm_compute; eauto).
  exists room. split; [done |].
  destruct (cancelled_timer_is_noop "s2" "R1" "u3" "" 0 "" 0 3000 3001 room
              run_one_room run_one_room_collision_free Hl) as [Hjoin _].
  exact Hjoin.
Defined.

Lemma create_then_expire_witness :
  collision_free run_one_room
  ∧ rooms run_one_room !! "ZZ99"%string = None
  ∧ rooms
      (res_state
         (timer_fires (nextTimer run_one_room)
            (res_state
               (create_room "s2" "ZZ99" ["u5"; "u1"] 3000 3000
                  run_one_room))))
    = rooms run_one_room
  ∧ userRooms
      (res_state
         (timer_fires (nextTimer run_one_room)
            (res_state
               (create_room "s2" "ZZ99" ["u5"; "u1"] 3000 3000
                  run_one_room))))
    = userRooms run_one_room.
Proof.
  assert (rooms run_one_room !! "ZZ99"%string = None) as Hnone
    by (vm_compute; reflexivity).
  split; [apply run_one_room_collision_free |]. split; [done |].
  destruct (create_then_expire "s2" "ZZ99" ["u5"; "u1"] 3000 3000
              run_one_room run_one_room_collision_free Hnone)
    as (_ & Hrooms & Hidx & _).
  split; done.
Defined.

Lemma send_then_get_messages_witness :
  ∃ room,
    rooms run_one_room !! "R1"%string = Some room
    ∧ "u1"%string ∈ users room
    ∧ get_messages "s2" "R1"
        (res_state
           (send_message "s1" "R1" "u1" "hi" 7 "abc" 7 8 9 run_one_room))
      = done_with
          (res_state
             (send_message "s1" "R1" "u1" "hi" 7 "abc" 7 8 9 run_one_room))
          [(ToSocket "s2",
            ev_room_messages "R1"
              (messages room
               ++ [{| msg_id := messageId 7 "abc"; msg_userId := "u1";
                      msg_message := "hi"; msg_timestamp := 7 |}]))].
Proof.
  assert (∃ room, rooms run_one_room !! "R1"%string = Some room
                  ∧ users room = ["u1"; "u2"]) as (room & Hl & Hu)
    by (vm_compute; eauto).
  assert ("u1"%string ∈ users room) as Hin
    by (rewrite Hu; apply elem_of_cons; by left).
  exists room. split; [done |]. split; [done |].
  destruct (send_then_get_messages "s1" "s2" "R1" "u1" "hi" 7 "abc" 7 8 9
              room run_one_room Hl Hin) as (_ & _ & _ & Hget).
  exact Hget.
Defined.

Lemma ids_unique_for_distinct_draws_witness :
  NoDup (draws [Connect "s1"; CreateRoom "s1" "R1" ["u1"] 0 0;
                SendMessage "s1" "R1" "u1" "first" 5 "abc" 5 5 5;
                SendMessage "s1" "R1" "u1" "second" 5 "abd" 5 5 5])
  ∧ Forall (λ d, 0 ≤ d.1)
      (draws [Connect "s1"; CreateRoom "s1" "R1" ["u1"] 0 0;
              SendMessage "s1" "R1" "u1" "first" 5 "abc" 5 5 5;
              SendMessage "s1" "R1" "u1" "second" 5 "abd" 5 5 5])
  ∧ ∀ rid1 rid2 k1 k2 m1 m2,
      log_of (run init [Connect "s1"; CreateRoom "s1" "R1" ["u1"] 0 0;
                SendMessage "s1" "R1" "u1" "first" 5 "abc" 5 5 5;
                SendMessage "s1" "R1" "u1" "second" 5 "abd" 5 5 5]) rid1
        !! k1 = Some m1 →
      log_of (run init [Connect "s1"; CreateRoom "s1" "R1" ["u1"] 0 0;
                SendMessage "s1" "R1" "u1" "first" 5 "abc" 5 5 5;
                SendMessage "s1" "R1" "u1" "second" 5 "abd" 5 5 5]) rid2
        !! k2 = Some m2 →
      msg_id m1 = msg_id m2 → rid1 = rid2 ∧ k1 = k2.
Proof.
  assert (NoDup (draws [Connect "s1"; CreateRoom "s1" "R1" ["u1"] 0 0;
                SendMessage "s1" "R1" "u1" "first" 5 "abc" 5 5 5;
                SendMessage "s1" "R1" "u1" "second" 5 "abd" 5 5 5])) as Hnd.
  { cbn. apply NoDup_cons. split; [| apply NoDup_singleton].
    rewrite elem_of_cons, elem_of_nil. intros [H | []]. discriminate H. }
  assert (Forall (λ d, 0 ≤ d.1)
            (draws [Connect "s1"; CreateRoom "s1" "R1" ["u1"] 0 0;
                SendMessage "s1" "R1" "u1" "first" 5 "abc" 5 5 5;
                SendMessage "s1" "R1" "u1" "second" 5 "abd" 5 5 5])) as Hpos.
  { cbn. repeat constructor; cbn; lia. }
  split; [done |]. split; [done |].
  apply (ids_unique_for_distinct_draws _ Hnd Hpos).
Defined.

Lemma create_room_fresh_witness :
  rooms init !! "R1"%string = None
  ∧ res_out (create_room "s1" "R1" ["a"; "b"; "a"] 10 10 init)
    = map (λ u, (ToChannel u,
                 ev_room_created "R1"
                   (length (JSSet.of_list ["a"; "b"; "a"]))))
          ["a"; "b"; "a"]
  ∧ NoDup (JSSet.of_list ["a"; "b"; "a"])
  ∧ (length (JSSet.of_list ["a"; "b"; "a"]) ≤ 3)%nat.
Proof.
  assert (rooms init !! "R1"%string = None) as Hnone by apply lookup_empty.
  split; [done |].
  destruct (create_room_fresh "s1" "R1" ["a"; "b"; "a"] 10 10 init Hnone)
    as (_ & _ & Hout & Hnd & _ & Hlen & _).
  split_and!; done.
Defined.

Lemma join_room_reply_witness :
  ∃ room,
    rooms run_one_room !! "R1"%string = Some room
    ∧ ∃ rest,
        res_out (join_room "s2" "R1" "u3" 3000 3001 run_one_room)
        = [(ToSocket "s2",
            ev_room_joined "R1"
              (if JSSet.has "u3" (users room) then length (users room)
               else S (length (users room))));
           (ToSocket "s2",
            ev_room_expiration
              (minutesLeft (3000 + ROOM_EXPIRATION_MINUTES * 60 * 1000)
                           3001))]
          ++ rest.
Proof.
  assert (∃ room, rooms run_one_room !! "R1"%string = Some room)
    as [room Hl] by (vm_compute; eauto).
  exists room. split; [done |].
  destruct (join_room_reply "s2" "R1" "u3" 3000 3001 room run_one_room Hl)
    as [Hout _].
  exact Hout.
Defined.

Lemma channel_subscriptions_witness :
  is_Some (rooms run_one_room !! "R1"%string)
  ∧ is_Some (sockets run_one_room !! "s2"%string)
  ∧ subscribed (res_state (join_room "s2" "R1" "u3" 3000 3001 run_one_room))
               "s2" "R1" = true.
Proof.
  assert (is_Some (rooms run_one_room !! "R1"%string)) as Hroom
    by (vm_compute; eauto).
  assert (is_Some (sockets run_one_room !! "s2"%string)) as Hsock
    by (vm_compute; eauto).
  split; [done |]. split; [done |].
  destruct (channel_subscriptions run_one_room) as [Hjoin _].
  exact (Hjoin "s2" "R1"%string "u3"%string 3000 3001 Hroom Hsock).
Defined.

Lemma revisions_agree_witness :
  same_core run_v1_room run_created
  ∧ same_core
      (V1.res_state (V1.join_room "s1" "R1" "u3" 2000 2001 run_v1_room))
      (res_state (join_room "s1" "R1" "u3" 2000 2001 run_created))
  ∧ V1.res_out (V1.create_room "s1" "R2" ["u1"; "u4"] 2000 2000 run_v1_room)
    = res_out (create_room "s1" "R2" ["u1"; "u4"] 2000 2000 run_created).
Proof.
  split; [apply run_created_same_core |].
  destruct (revisions_agree run_v1_room run_created run_created_same_core)
    as (Hcreate & Hjoin & _).
  split.
  - apply (Hjoin "s1" "R1"%string "u3"%string 2000 2001 2000 2001).
  - apply (Hcreate "s1" "R2"%string ["u1"; "u4"]%string 2000 2000 2000 2000).
Defined.

Lemma deleteRoom_twice_witness :
  rooms init !! "R1"%string = None
  ∧ deleteRoom "R1" init = (init, [])
  ∧ deleteRoom "R1" (deleteRoom "R1" run_one_room).1
    = ((deleteRoom "R1" run_one_room).1, []).
Proof.
  assert (rooms init !! "R1"%string = None) as Hnone by apply lookup_empty.
  split; [done |].
  destruct (deleteRoom_twice "R1" V1.init init) as (_ & Habsent & _).
  destruct (deleteRoom_twice "R1" V1.init run_one_room) as (_ & _ & _ & Htw).
  split; [by apply Habsent | exact Htw].
Defined.

Lemma revisions_agree_messages_witness :
  same_core run_v1_room run_created
  ∧ V1.res_out (V1b.register "s1" "u1" run_v1_room)
    = res_out (register "s1" "u1" run_created)
  ∧ same_core
      (V1b.res1_state
         (V1b.send_message "s1" "R1" "u1" "hi" 7 8 9 run_v1_room))
      (res_state
         (send_message "s1" "R1" "u1" "hi" 7 "abc" 7 8 9 run_created)).
Proof.
  split; [apply run_created_same_core |].
  destruct (revisions_agree_messages run_v1_room run_created
              run_created_same_core) as (Hreg & Hsend & _).
  split.
  - apply (Hreg "s1" "u1"%string).
  - apply (Hsend "s1" "R1"%string "u1"%string "hi"%string 7 8 9 7
             "abc"%string 8 9).
Defined.

Lemma revisions_agree_join_by_user_witness :
  same_core run_v1_room run_created
  ∧ reachable run_created
  ∧ V1.res_out (V1b.join_by_user "s1" "u2" "u1" 1 2 3 4 5000 5000
                  run_v1_room)
    = res_out (join_by_user "s1" "u2" "u1" 1 2 3 4 5000 5000 run_created).
Proof.
  split; [apply run_created_same_core |].
  split; [apply run_created_reachable |].
  apply (revisions_agree_join_by_user run_v1_room run_created "s1" "u2" "u1"
           1 2 3 4 5000 5000 5000 5000 run_created_same_core
           run_created_reachable).
Defined.

End FurtherSamples.
